(** * Multi-signal bug localization: scoring and fusion engine

    A shallow embedding of the scoring core of the bug localizer:

    - [Judge]      : [scripts/agents/judge_agent.py]        (class [JudgeAgent])
    - [Classifier] : [scripts/agents/bug_type_classifier.py] (class [BugTypeClassifier])
    - [Coverage]   : [scripts/agents/test_failure_agent.py]  (class [TestFailureAgent])
    - [BM25]       : [scripts/bug_localizer.py]              (class [BM25Ranker])

    Conventions of the embedding.

    - A Python [float] is the real number it stands for ([R]); an [int] that
      counts something is a [nat], an [int] argument is a [Z].
    - An expression that can raise (a division, [math.log], a subscript on a
      dict) has type [option _]; [None] is the raised exception.
    - A dict that the source only reads by key is a [gmap]; a dict that the
      source iterates is an association list in insertion order, which is
      the iteration order of a Python dict.
    - [list.sort] is the stable sort of the language reference. *)

From Stdlib Require Import Reals Lra Lia ZArith String Ascii.
From stdpp Require Import gmap strings list fin_maps sorting.

Local Open Scope R_scope.

(** ** Python runtime *)

#[global] Instance Rlt_decision (x y : R) : Decision (x < y) := Rlt_dec x y.
#[global] Instance Rgt_decision (x y : R) : Decision (x > y) := Rgt_dec x y.
#[global] Instance Rle_decision (x y : R) : Decision (x <= y) := Rle_dec x y.
#[global] Instance Rge_decision (x y : R) : Decision (x >= y) := Rge_dec x y.
#[global] Instance Req_decision : EqDecision R := Req_dec_T.

Abbreviation dict V := (list (string * V)).

(** [d.get(k)]: the value of the first (only) item with key [k]. *)
Fixpoint dict_get {V : Type} (d : dict V) (k : string) : option V :=
  match d with
  | [] => None
  | (k', v) :: d' => if decide (k' = k) then Some v else dict_get d' k
  end.

(** [d[k] = v]: an existing key keeps its position, a new key goes last. *)
Fixpoint dict_set {V : Type} (d : dict V) (k : string) (v : V) : dict V :=
  match d with
  | [] => [(k, v)]
  | (k', v') :: d' =>
      if decide (k' = k) then (k', v) :: d' else (k', v') :: dict_set d' k v
  end.

Definition dict_keys {V : Type} (d : dict V) : list string := d.*1.
Definition dict_values {V : Type} (d : dict V) : list V := d.*2.

(** [x / y] on floats raises [ZeroDivisionError] when [y] is zero. *)
Definition py_div (x y : R) : option R :=
  if decide (y = 0) then None else Some (x / y).

(** [math.log(x)] raises [ValueError] unless [x] is positive. *)
Definition py_log (x : R) : option R :=
  if decide (0 < x) then Some (ln x) else None.

(** [sum(xs)]: starts from 0 and adds from left to right. *)
Definition py_sum (xs : list R) : R := foldl Rplus 0 xs.

(** [xs[:k]] for an integer [k]: a negative [k] counts from the end. *)
Definition py_slice_to {A : Type} (xs : list A) (k : Z) : list A :=
  if decide (0 <= k)%Z then take (Z.to_nat k) xs
  else take (Z.to_nat (Z.of_nat (length xs) + k)) xs.

(** [xs.sort(key=..., reverse=...)]. The result of [list.sort] is fixed by
    its contract: it is the permutation of [xs] that is ordered by key and
    keeps elements with equal keys in their original order, also under
    [reverse=True]. Insertion from the right computes that permutation:
    the element being inserted precedes everything already placed, so it
    stops before the first element that may not come before it. *)
Section Sort.
Context {A : Type} (key : A → R) (reverse : bool).

Definition sort_before (x y : A) : Prop :=
  if reverse then key x > key y else key x < key y.

#[global] Instance sort_before_dec x y : Decision (sort_before x y).
Proof. unfold sort_before. destruct reverse; apply _. Defined.

Fixpoint sort_insert (x : A) (l : list A) : list A :=
  match l with
  | [] => [x]
  | y :: l' =>
      if decide (sort_before y x) then y :: sort_insert x l' else x :: y :: l'
  end.

Definition py_sort (l : list A) : list A := foldr sort_insert [] l.
End Sort.

(** [enumerate(xs)] with the index shifted by [start]. *)
Fixpoint enumerate_from {A : Type} (start : nat) (xs : list A) : list (nat * A) :=
  match xs with
  | [] => []
  | x :: xs' => (start, x) :: enumerate_from (S start) xs'
  end.

(** [s.lower()] on ASCII text: the letters A-Z move to a-z. *)
Definition ascii_lower (c : ascii) : ascii :=
  let n := nat_of_ascii c in
  if (65 <=? n)%nat && (n <=? 90)%nat then ascii_of_nat (n + 32) else c.

Fixpoint py_lower (s : string) : string :=
  match s with
  | EmptyString => EmptyString
  | String c s' => String (ascii_lower c) (py_lower s')
  end.

(** [needle in hay] on strings. *)
Fixpoint py_contains (needle hay : string) : bool :=
  String.prefix needle hay
  || match hay with
     | EmptyString => false
     | String _ hay' => py_contains needle hay'
     end.

(** [s.split('.')[-1]]: the text after the last dot, all of [s] without one. *)
Fixpoint last_segment (acc s : string) : string :=
  match s with
  | EmptyString => acc
  | String c s' =>
      if Ascii.eqb c "." then last_segment EmptyString s'
      else last_segment (acc +:+ String c EmptyString) s'
  end.

Definition py_split_last (s : string) : string := last_segment EmptyString s.

(** ** Judge agent *)

Module Judge.

Record AgentScore := mkAgentScore {
  agent_name : string;
  score : R;
  confidence : R;
}.

Record CandidateJudgment := mkCandidateJudgment {
  class_name : string;
  final_score : R;
  agent_scores : dict AgentScore;
  consensus : bool;
  conflict_resolved : bool;
  rank : nat;
}.

Record JudgmentResult := mkJudgmentResult {
  candidates : list CandidateJudgment;
  bug_type : string;
  weights_used : dict R;
  consensus_rate : R;
}.

(** The only attribute of a [JudgeAgent] instance is [self.weights]. *)
Record JudgeAgent := mkJudgeAgent { weights : dict R }.

Definition DEFAULT_WEIGHTS : dict R :=
  [("stack_trace", 0.35); ("bm25", 0.30); ("pattern", 0.20); ("test", 0.15)].

Definition CONSENSUS_BONUS : R := 0.10.

Definition _normalize_weights (self : JudgeAgent) : option JudgeAgent :=
  let total := py_sum (dict_values (weights self)) in
  if decide (total > 0) then
    w ← mapM (λ kv, q ← py_div kv.2 total; Some (kv.1, q)) (weights self);
    Some (mkJudgeAgent w)
  else Some self.

(** [weights or self.DEFAULT_WEIGHTS.copy()]: [None] and the empty dict
    are both falsy. *)
Definition __init__ (weights : option (dict R)) : option JudgeAgent :=
  let w := match weights with
           | None | Some [] => DEFAULT_WEIGHTS
           | Some w => w
           end in
  _normalize_weights (mkJudgeAgent w).

Definition set_weights (self : JudgeAgent) (weights : dict R) : option JudgeAgent :=
  _normalize_weights (mkJudgeAgent weights).

Definition _check_consensus (agent_scores : dict AgentScore) : option (bool * bool) :=
  let scores := filter (λ s, s > 0) (score <$> dict_values agent_scores) in
  match scores with
  | [] => Some (false, false)
  | _ =>
      mean_score ← py_div (py_sum scores) (INR (length scores));
      variance ← py_div (py_sum ((λ s, (s - mean_score) ^ 2) <$> scores))
                        (INR (length scores));
      let std_dev := if decide (variance > 0) then sqrt variance else 0 in
      if decide (std_dev < 0.2) then Some (true, false)
      else if decide (std_dev > 0.4) then Some (false, true)
      else Some (false, false)
  end.

Definition _calculate_final_score (self : JudgeAgent)
    (agent_scores : dict AgentScore) (consensus conflict_resolved : bool) : R :=
  let weighted_sum :=
    foldl (λ acc item,
             let weight := default 0 (dict_get (weights self) item.1) in
             acc + weight * score item.2 * confidence item.2)
          0 agent_scores in
  let weighted_sum :=
    if consensus then weighted_sum * (1 + CONSENSUS_BONUS) else weighted_sum in
  let weighted_sum :=
    if conflict_resolved then weighted_sum * 0.95 else weighted_sum in
  Rmin weighted_sum 1.

(** The [agent_scores] dict built for one candidate. The [evidence] lists
    and the explanation text are formatted strings that no score, flag,
    order or rank depends on; they are left out of the records. *)
Definition gather_scores (class_name : string)
    (stack_trace_scores bm25_scores pattern_scores test_scores : gmap string R)
    : dict AgentScore :=
  [ ("stack_trace",
     mkAgentScore "StackTraceAgent"
       (default 0 (stack_trace_scores !! class_name))
       (if decide (is_Some (stack_trace_scores !! class_name)) then 1 else 0.5));
    ("bm25",
     mkAgentScore "BM25Agent" (default 0 (bm25_scores !! class_name)) 0.8);
    ("pattern",
     mkAgentScore "PatternAgent" (default 0 (pattern_scores !! class_name)) 0.7);
    ("test",
     mkAgentScore "TestAgent" (default 0 (test_scores !! class_name)) 0.6) ].

(** The body of the loop [for class_name in candidates]. *)
Definition judge_candidate (self : JudgeAgent)
    (stack_trace_scores bm25_scores pattern_scores test_scores : gmap string R)
    (class_name : string) : option CandidateJudgment :=
  let agent_scores :=
    gather_scores class_name stack_trace_scores bm25_scores pattern_scores
      test_scores in
  flags ← _check_consensus agent_scores;
  let final_score := _calculate_final_score self agent_scores flags.1 flags.2 in
  Some (mkCandidateJudgment class_name final_score agent_scores flags.1 flags.2 0).

Fixpoint judge_loop (self : JudgeAgent)
    (stack_trace_scores bm25_scores pattern_scores test_scores : gmap string R)
    (todo : list string) (judgments : list CandidateJudgment)
    (consensus_count : nat) : option (list CandidateJudgment * nat) :=
  match todo with
  | [] => Some (judgments, consensus_count)
  | class_name :: todo' =>
      judgment ← judge_candidate self stack_trace_scores bm25_scores
                   pattern_scores test_scores class_name;
      judge_loop self stack_trace_scores bm25_scores pattern_scores test_scores
        todo' (judgments ++ [judgment])
        (if consensus judgment then S consensus_count else consensus_count)
  end.

Definition set_rank (j : CandidateJudgment) (r : nat) : CandidateJudgment :=
  mkCandidateJudgment (class_name j) (final_score j) (agent_scores j)
    (consensus j) (conflict_resolved j) r.

Definition assign_ranks (judgments : list CandidateJudgment)
    : list CandidateJudgment :=
  (λ ij, set_rank ij.2 (ij.1 + 1)) <$> enumerate_from 0 judgments.

Definition judge (self : JudgeAgent) (candidates : list string)
    (stack_trace_scores bm25_scores pattern_scores test_scores : gmap string R)
    (bug_type : string) : option JudgmentResult :=
  st ← judge_loop self stack_trace_scores bm25_scores pattern_scores
         test_scores candidates [] 0%nat;
  let judgments := py_sort final_score true st.1 in
  let judgments := assign_ranks judgments in
  consensus_rate ←
    match candidates with
    | [] => Some 0
    | _ => py_div (INR st.2) (INR (length candidates))
    end;
  Some (mkJudgmentResult judgments bug_type (weights self) consensus_rate).

Definition get_top_k (result : JudgmentResult) (k : Z) : list CandidateJudgment :=
  py_slice_to (candidates result) k.

(** *** Vocabulary for the properties *)

(** The four raw signal scores recorded in a judgment. *)
Definition signal_scores (j : CandidateJudgment) : list R :=
  score <$> dict_values (agent_scores j).

(** Population standard deviation; undefined on the empty list. *)
Definition pstdev (xs : list R) : option R :=
  match xs with
  | [] => None
  | _ =>
      let n := INR (length xs) in
      let mean := py_sum xs / n in
      Some (sqrt (py_sum ((λ x, (x - mean) ^ 2) <$> xs) / n))
  end.

Definition weight_of (self : JudgeAgent) (signal : string) : R :=
  default 0 (dict_get (weights self) signal).

(** [Σ weight[signal] * score[signal] * confidence[signal]] for one
    candidate, over the four signals. *)
Definition fusion_raw (self : JudgeAgent)
    (stack_trace_scores bm25_scores pattern_scores test_scores : gmap string R)
    (c : string) : R :=
  weight_of self "stack_trace" * default 0 (stack_trace_scores !! c)
    * (if decide (is_Some (stack_trace_scores !! c)) then 1 else 0.5)
  + weight_of self "bm25" * default 0 (bm25_scores !! c) * 0.8
  + weight_of self "pattern" * default 0 (pattern_scores !! c) * 0.7
  + weight_of self "test" * default 0 (test_scores !! c) * 0.6.

(** The consensus bonus and the conflict penalty as one factor. *)
Definition fusion_factor (consensus conflict_resolved : bool) : R :=
  (if consensus then 1.10 else 1) * (if conflict_resolved then 0.95 else 1).

Definition clamp01 (x : R) : R := Rmax 0 (Rmin x 1).

End Judge.

(** ** Bug type classifier *)

Module Classifier.

Record BugClassification := mkBugClassification {
  bug_type : string;
  confidence : R;
  weights : dict R;
  indicators : list string;
}.

Definition BUG_PATTERNS : dict (list string) :=
  [ ("NPE",
     [ "NullPointerException"; "NPE"; "null\s+pointer"; "is\s+null";
       "was\s+null"; "returns?\s+null"; "\.get\w*\(\)\s+returns?\s+null";
       "dereferenc" ]);
    ("CCE",
     [ "ClassCastException"; "cannot\s+be\s+cast"; "incompatible\s+types?";
       "type\s+mismatch"; "wrong\s+type"; "cast\s+fail" ]);
    ("CME",
     [ "ConcurrentModificationException"; "concurrent\s+modification";
       "modified\s+while\s+iterating"; "iterator.*invalid";
       "collection.*changed" ]);
    ("AIOBE",
     [ "ArrayIndexOutOfBoundsException"; "IndexOutOfBoundsException";
       "index\s+out\s+of\s+bounds"; "array\s+index"; "invalid\s+index" ]);
    ("IAE",
     [ "IllegalArgumentException"; "illegal\s+argument"; "invalid\s+argument";
       "bad\s+argument"; "argument.*invalid" ]);
    ("ISE",
     [ "IllegalStateException"; "illegal\s+state"; "invalid\s+state";
       "wrong\s+state"; "state.*invalid" ]);
    ("IOE",
     [ "IOException"; "FileNotFoundException"; "file\s+not\s+found";
       "cannot\s+read"; "cannot\s+write"; "stream.*closed" ]) ].

Definition profile (stack_trace bm25 pattern test : R) : dict R :=
  [("stack_trace", stack_trace); ("bm25", bm25); ("pattern", pattern); ("test", test)].

Definition WEIGHT_PROFILES : dict (dict R) :=
  [ ("NPE", profile 0.35 0.25 0.25 0.15);
    ("CCE", profile 0.30 0.30 0.25 0.15);
    ("CME", profile 0.35 0.20 0.30 0.15);
    ("AIOBE", profile 0.40 0.25 0.20 0.15);
    ("IAE", profile 0.30 0.30 0.20 0.20);
    ("ISE", profile 0.30 0.25 0.25 0.20);
    ("IOE", profile 0.35 0.30 0.15 0.20);
    ("GENERIC", profile 0.35 0.30 0.20 0.15) ].

(** [max(d, key=d.get)]: the first key whose value is not exceeded by any
    other; [ValueError] on an empty dict. *)
Definition py_max_key (d : dict nat) : option string :=
  match d with
  | [] => None
  | first :: rest =>
      Some (foldl (λ best kv : string * nat,
                     if decide (best.2 < kv.2)%nat then kv else best)
                  first rest).1
  end.

Section Classify.
(** [findall pattern text]: the matches of the compiled, case-insensitive
    [pattern] in [text], as [re.findall] lists them. The regular-expression
    engine is a library; the classifier is modelled for any engine. *)
Context (findall : string → string → list string).

(** The inner loop over the patterns of one bug type. *)
Definition score_type (bug_report : string) (patterns : list string)
    : nat * list string :=
  foldl (λ acc pattern,
           let matches := findall pattern bug_report in
           match matches with
           | [] => acc
           | _ => ((acc.1 + length matches)%nat, acc.2 ++ take 3 matches)
           end)
        (0%nat, []) patterns.

Definition type_scores (bug_report : string) : dict nat :=
  (λ kv, (kv.1, (score_type bug_report kv.2).1)) <$> BUG_PATTERNS.

Definition type_indicators (bug_report : string) : dict (list string) :=
  (λ kv, (kv.1, (score_type bug_report kv.2).2)) <$> BUG_PATTERNS.

Definition classify (bug_report : string) : option BugClassification :=
  let scores := type_scores bug_report in
  let indicators := type_indicators bug_report in
  if forallb (λ n, Nat.eqb n 0) (dict_values scores) then
    generic ← dict_get WEIGHT_PROFILES "GENERIC";
    Some (mkBugClassification "GENERIC" 0.5 generic [])
  else
    best_type ← py_max_key scores;
    let total_score := sum_list (dict_values scores) in
    best_score ← dict_get scores best_type;
    confidence ←
      (if decide (0 < total_score)%nat
       then py_div (INR best_score) (INR total_score)
       else Some 0.5);
    weights ← dict_get WEIGHT_PROFILES best_type;
    found ← dict_get indicators best_type;
    Some (mkBugClassification best_type (Rmin confidence 1) weights found).

(** [BugLocalizationGraph._classify_bug_node]: the part of the run state
    that the node writes: bug type, confidence and dynamic weights. *)
Definition _classify_bug_node (bug_report : string)
    : option (string * R * dict R) :=
  classification ← classify bug_report;
  Some (bug_type classification, confidence classification,
        weights classification).

End Classify.

Definition get_weights (bug_type : string) : option (dict R) :=
  match dict_get WEIGHT_PROFILES bug_type with
  | Some w => Some w
  | None => dict_get WEIGHT_PROFILES "GENERIC"
  end.

Definition adjust_weights (base_weights : dict R) (confidence : R)
    : option (dict R) :=
  if decide (confidence >= 0.8) then Some base_weights
  else
    generic ← dict_get WEIGHT_PROFILES "GENERIC";
    mapM (λ kv : string * R,
            g ← dict_get generic kv.1;
            Some (kv.1, confidence * kv.2 + (1 - confidence) * g))
         base_weights.

(** *** Vocabulary for the properties *)

(** A matcher for closed examples: the non-overlapping occurrences of the
    pattern read as plain text, letter case ignored, from left to right.
    This is what [re.findall] returns for a pattern without
    metacharacters. [skip] counts the characters of the last match still
    to be passed. *)
Fixpoint literal_findall_from (skip : nat) (pattern text : string) : list string :=
  match text with
  | EmptyString => []
  | String _ text' =>
      match skip with
      | S skip' => literal_findall_from skip' pattern text'
      | O =>
          if String.prefix (py_lower pattern) (py_lower text)
          then substring 0 (String.length pattern) text
               :: literal_findall_from (String.length pattern - 1) pattern text'
          else literal_findall_from 0 pattern text'
      end
  end.

Definition literal_findall (pattern text : string) : list string :=
  literal_findall_from 0 pattern text.

(** The blend [confidence*category[s] + (1-confidence)*generic[s]]. *)
Definition blend (confidence : R) (category generic : dict R) (s : string) : R :=
  confidence * default 0 (dict_get category s)
  + (1 - confidence) * default 0 (dict_get generic s).

Definition signals : list string := ["stack_trace"; "bm25"; "pattern"; "test"].

End Classifier.

(** ** Test failure agent *)

Module Coverage.

(** The two indexes of a [TestFailureAgent] that scoring reads: subject
    class to its test files, and subject class to the classes tested in the
    same files. *)
Record TestFailureAgent := mkTestFailureAgent {
  _class_to_tests : gmap string (list string);
  _co_occurrence : gmap string (gset string);
}.

Definition _calculate_coverage_score (self : TestFailureAgent)
    (class_name : string) (candidates : list string)
    (test_mentions : gset string) : option R :=
  let simple_name := py_split_last class_name in
  let score := 0 in
  let score :=
    if decide (is_Some (_class_to_tests self !! simple_name))
    then score + 0.3 else score in
  let co_tested := default ∅ (_co_occurrence self !! simple_name) in
  let candidate_simple_names : gset string :=
    list_to_set (py_split_last <$> candidates) in
  let overlap := co_tested ∩ candidate_simple_names in
  score ←
    (if decide (overlap ≠ ∅)
     then ratio ← py_div (INR (size overlap)) (INR (length candidates));
          Some (score + 0.4 * ratio)
     else Some score);
  let score :=
    if existsb (λ test_mention,
                  py_contains (py_lower simple_name) (py_lower test_mention))
               (elements test_mentions)
    then score + 0.3 else score in
  Some (Rmin score 1).

Section Analyze.
(** [_extract_test_mentions]: the test-like tokens that four regular
    expressions find in the report; the engine is a library. *)
Context (_extract_test_mentions : string → gset string).

(** [get_test_scores]: the coverage score of every candidate, by name. *)
Definition get_test_scores (self : TestFailureAgent) (candidates : list string)
    (bug_report : string) : option (gmap string R) :=
  let test_classes := _extract_test_mentions bug_report in
  foldl (λ results class_name,
           results ← results;
           coverage_score ←
             _calculate_coverage_score self class_name candidates test_classes;
           Some (<[class_name := coverage_score]> results))
        (Some ∅) candidates.

End Analyze.

(** *** Vocabulary for the properties *)

Definition has_test_file (self : TestFailureAgent) (class_name : string) : Prop :=
  is_Some (_class_to_tests self !! py_split_last class_name).

(** The candidates' simple names that are tested together with the class. *)
Definition co_tested_candidates (self : TestFailureAgent)
    (class_name : string) (candidates : list string) : gset string :=
  default ∅ (_co_occurrence self !! py_split_last class_name)
  ∩ list_to_set (py_split_last <$> candidates).

(** Some test-like token contains the simple name, letter case ignored. *)
Definition mentioned (class_name : string) (test_mentions : gset string) : bool :=
  existsb (λ m, py_contains (py_lower (py_split_last class_name)) (py_lower m))
          (elements test_mentions).

(** The score as the specification words it: the co-occurrence factor is
    the fraction of the other candidates that are tested together with the
    class, and the mention factor asks for the simple name as a substring
    of a token. *)
Definition coverage_score_as_specified (self : TestFailureAgent)
    (class_name : string) (candidates : list string)
    (test_mentions : gset string) : R :=
  let simple_name := py_split_last class_name in
  let co_tested := default ∅ (_co_occurrence self !! simple_name) in
  let others := filter (λ c, c ≠ class_name) candidates in
  let co_tested_others := filter (λ c, py_split_last c ∈ co_tested) others in
  Rmin ((if decide (has_test_file self class_name) then 0.3 else 0)
        + 0.4 * (INR (length co_tested_others) / INR (length others))
        + (if existsb (λ m, py_contains simple_name m) (elements test_mentions)
           then 0.3 else 0))
       1.

End Coverage.

(** ** BM25 ranker *)

Module BM25.

Definition BM25_K1 : R := 1.2.
Definition BM25_B : R := 0.75.

(** A document as [fit] receives it: a dict whose keys may be missing. *)
Record DocInfo := mkDocInfo {
  text : option string;
  class_name : option string;
  file_path : option string;
  methods : option (list string);
}.

Record DocMetadata := mkDocMetadata {
  md_class_name : string;
  md_file_path : string;
  md_methods : list string;
}.

(** [doc_terms] is the one dict that [rank] iterates; it keeps its order. *)
Record BM25Ranker := mkBM25Ranker {
  k1 : R;
  b : R;
  doc_freqs : gmap string nat;
  doc_lens : gmap string nat;
  avgdl : R;
  N : nat;
  doc_terms : dict (gmap string nat);
  doc_metadata : gmap string DocMetadata;
}.

Definition __init__ (k1 b : R) : BM25Ranker :=
  mkBM25Ranker k1 b ∅ ∅ 0 0 [] ∅.

(** [Counter(terms)]: every term with the number of its occurrences. *)
Definition Counter (terms : list string) : gmap string nat :=
  foldl (λ c term, <[term := S (default 0%nat (c !! term))]> c) ∅ terms.

(** [for term in set(terms): doc_freqs[term] = doc_freqs.get(term, 0) + 1];
    the order in which a set is walked does not change the outcome. *)
Definition count_doc_freqs (doc_freqs : gmap string nat) (terms : list string)
    : gmap string nat :=
  foldl (λ f term, <[term := (default 0%nat (f !! term) + 1)%nat]> f)
        doc_freqs (remove_dups terms).

Section Ranker.
(** [_tokenize] splits identifiers and extracts words with regular
    expressions; the ranker is modelled for any tokenizer. *)
Context (_tokenize : string → list string).

(** The body of the loop of [fit], on the ranker and [total_len]. *)
Definition fit_doc (st : BM25Ranker * nat) (item : string * DocInfo)
    : BM25Ranker * nat :=
  let self := st.1 in
  let doc_id := item.1 in
  let doc_info := item.2 in
  let terms := _tokenize (default EmptyString (text doc_info)) in
  (mkBM25Ranker (k1 self) (b self)
     (count_doc_freqs (doc_freqs self) terms)
     (<[doc_id := length terms]> (doc_lens self))
     (avgdl self) (N self)
     (dict_set (doc_terms self) doc_id (Counter terms))
     (<[doc_id := mkDocMetadata (default doc_id (class_name doc_info))
                    (default EmptyString (file_path doc_info))
                    (default [] (methods doc_info))]> (doc_metadata self)),
   (st.2 + length terms)%nat).

Definition fit (self : BM25Ranker) (documents : dict DocInfo) : option BM25Ranker :=
  let self := mkBM25Ranker (k1 self) (b self) (doc_freqs self) (doc_lens self)
                (avgdl self) (length documents) (doc_terms self)
                (doc_metadata self) in
  let st := foldl fit_doc (self, 0%nat) documents in
  let self := st.1 in
  let total_len := st.2 in
  avgdl ← (if decide (0 < N self)%nat
            then py_div (INR total_len) (INR (N self)) else Some 0);
  Some (mkBM25Ranker (k1 self) (b self) (doc_freqs self) (doc_lens self)
          avgdl (N self) (doc_terms self) (doc_metadata self)).

Definition _idf (self : BM25Ranker) (term : string) : option R :=
  let df := default 0%nat (doc_freqs self !! term) in
  if decide (df = 0%nat) then Some 0
  else
    odds ← py_div (INR (N self) - INR df + 0.5) (INR df + 0.5);
    py_log (odds + 1).

(** What one query term found [tf] times in a document of [doc_len] terms
    adds to the score: [idf * (numerator / denominator)]. *)
Definition term_score (self : BM25Ranker) (term : string) (tf doc_len : nat)
    : option R :=
  idf ← _idf self term;
  let numerator := INR tf * (k1 self + 1) in
  length_ratio ← py_div (b self * INR doc_len) (avgdl self);
  let denominator := INR tf + k1 self * (1 - b self + length_ratio) in
  quotient ← py_div numerator denominator;
  Some (idf * quotient).

(** The body of the loop of [score]. *)
Definition score_step (self : BM25Ranker) (doc_term_freqs : gmap string nat)
    (doc_len : nat) (score : R) (term : string) : option R :=
  match doc_term_freqs !! term with
  | None => Some score
  | Some tf =>
      added ← term_score self term tf doc_len;
      Some (score + added)
  end.

Definition score_terms (self : BM25Ranker) (query_terms : list string)
    (doc_id : string) : option R :=
  let doc_term_freqs := default ∅ (dict_get (doc_terms self) doc_id) in
  let doc_len := default 0%nat (doc_lens self !! doc_id) in
  if decide (doc_len = 0%nat) then Some 0
  else
    foldl (λ score term,
             score ← score; score_step self doc_term_freqs doc_len score term)
          (Some 0) query_terms.

Definition score (self : BM25Ranker) (query doc_id : string) : option R :=
  score_terms self (_tokenize query) doc_id.

(** The loop of [rank] that collects the documents with a positive score. *)
Definition rank_collect (self : BM25Ranker) (query : string)
    : option (list (string * R)) :=
  foldl (λ scores doc_id,
           scores ← scores;
           s ← score self query doc_id;
           Some (if decide (s > 0) then scores ++ [(doc_id, s)] else scores))
        (Some []) (dict_keys (doc_terms self)).

Definition rank (self : BM25Ranker) (query : string) (top_k : Z)
    : option (list (string * R)) :=
  scores ← rank_collect self query;
  let scores := py_sort (λ x : string * R, - x.2) false scores in
  Some (py_slice_to scores top_k).

End Ranker.

(** *** Vocabulary for the properties *)

(** A tokenizer for closed examples: the blank-separated words of at least
    two characters, in lower case. On lower-case words separated by blanks
    this is what [_tokenize] returns. *)
Fixpoint blank_words (word : string) (s : string) : list string :=
  match s with
  | EmptyString => [word]
  | String c s' =>
      if Ascii.eqb c " " then word :: blank_words EmptyString s'
      else blank_words (word +:+ String (ascii_lower c) EmptyString) s'
  end.

Definition blank_tokenize (s : string) : list string :=
  filter (λ w, 2 <= String.length w)%nat (blank_words EmptyString s).

End BM25.

(** ** The evaluation metrics ([scripts/bug_localizer.py], [TopKEvaluator]) *)

Module TopKEvaluator.

(** An entry of [top_locations] and a localization result; both are dicts
    that the metrics read with [get] and a default. *)
Record Location := mkLocation {
  file_path : option string;
}.

Record Result := mkResult {
  bug_id : option string;
  top_locations : option (list Location);
}.

(** The dict that [evaluate_all] returns, with its keys [top_1], [top_5],
    [top_10], [mrr] and [map]. *)
Record Metrics := mkMetrics {
  top_1 : R;
  top_5 : R;
  top_10 : R;
  m_mrr : R;
  m_map : R;
}.

Section Metrics.
(** [Path(p).name], the final component of a path, is kept abstract. *)
Context (path_name : string → string).

(** [p in actual or Path(p).name in actual] *)
Definition matches (actual : gset string) (p : string) : bool :=
  bool_decide (p ∈ actual) || bool_decide (path_name p ∈ actual).

(** [[r.get('file_path', '') for r in locations]] *)
Definition predicted_paths (locations : list Location) : list string :=
  (λ r, default EmptyString (file_path r)) <$> locations.

(** The body of the loop of [top_k_accuracy], on [(hits, total)]. *)
Definition top_k_accuracy_step (ground_truth : gmap string (list string))
    (k : Z) (st : nat * nat) (result : Result) : nat * nat :=
  let hits := st.1 in
  let total := st.2 in
  let bug_id := default EmptyString (bug_id result) in
  match ground_truth !! bug_id with
  | None => (hits, total)
  | Some files =>
      let total := (total + 1)%nat in
      let predicted :=
        predicted_paths (py_slice_to (default [] (top_locations result)) k) in
      let actual : gset string := list_to_set files in
      if existsb (matches actual) predicted
      then ((hits + 1)%nat, total) else (hits, total)
  end.

Definition top_k_accuracy (results : list Result)
    (ground_truth : gmap string (list string)) (k : Z) : option R :=
  let st := foldl (top_k_accuracy_step ground_truth k) (0%nat, 0%nat) results in
  let hits := st.1 in
  let total := st.2 in
  if decide (0 < total)%nat
  then q ← py_div (INR hits) (INR total); Some (q * 100)
  else Some 0.

(** The inner loop of [mrr]: the first matching prediction adds the
    reciprocal of its rank and ends the loop. *)
Fixpoint reciprocal_rank (actual : gset string) (ranked : list (nat * string))
    (rr_sum : R) : option R :=
  match ranked with
  | [] => Some rr_sum
  | (rank, pred) :: ranked' =>
      if matches actual pred
      then q ← py_div 1 (INR rank); Some (rr_sum + q)
      else reciprocal_rank actual ranked' rr_sum
  end.

(** The body of the loop of [mrr], on [(rr_sum, total)]. *)
Definition mrr_step (ground_truth : gmap string (list string))
    (st : R * nat) (result : Result) : option (R * nat) :=
  let rr_sum := st.1 in
  let total := st.2 in
  let bug_id := default EmptyString (bug_id result) in
  match ground_truth !! bug_id with
  | None => Some (rr_sum, total)
  | Some files =>
      let total := (total + 1)%nat in
      let predicted := predicted_paths (default [] (top_locations result)) in
      let actual : gset string := list_to_set files in
      rr_sum ← reciprocal_rank actual (enumerate_from 1 predicted) rr_sum;
      Some (rr_sum, total)
  end.

Definition mrr (results : list Result)
    (ground_truth : gmap string (list string)) : option R :=
  st ← foldl (λ st result, st ← st; mrr_step ground_truth st result)
             (Some (0, 0%nat)) results;
  let rr_sum := st.1 in
  let total := st.2 in
  if decide (0 < total)%nat then py_div rr_sum (INR total) else Some 0.

(** The inner loop of [mean_average_precision], on [(hits, precision_sum)]. *)
Definition precision_step (actual : gset string) (st : nat * R)
    (item : nat * string) : option (nat * R) :=
  let hits := st.1 in
  let precision_sum := st.2 in
  let rank := item.1 in
  let pred := item.2 in
  if matches actual pred
  then
    let hits := (hits + 1)%nat in
    q ← py_div (INR hits) (INR rank);
    Some (hits, precision_sum + q)
  else Some (hits, precision_sum).

(** The body of the loop of [mean_average_precision], on [(ap_sum, total)]. *)
Definition average_precision_step (ground_truth : gmap string (list string))
    (st : R * nat) (result : Result) : option (R * nat) :=
  let ap_sum := st.1 in
  let total := st.2 in
  let bug_id := default EmptyString (bug_id result) in
  match ground_truth !! bug_id with
  | None => Some (ap_sum, total)
  | Some files =>
      let total := (total + 1)%nat in
      let predicted := predicted_paths (default [] (top_locations result)) in
      let actual : gset string := list_to_set files in
      inner ← foldl (λ st item, st ← st; precision_step actual st item)
                    (Some (0%nat, 0)) (enumerate_from 1 predicted);
      let precision_sum := inner.2 in
      if decide (0 < size actual)%nat
      then
        q ← py_div precision_sum (INR (size actual));
        Some (ap_sum + q, total)
      else Some (ap_sum, total)
  end.

Definition mean_average_precision (results : list Result)
    (ground_truth : gmap string (list string)) : option R :=
  st ← foldl (λ st result, st ← st; average_precision_step ground_truth st result)
             (Some (0, 0%nat)) results;
  let ap_sum := st.1 in
  let total := st.2 in
  if decide (0 < total)%nat then py_div ap_sum (INR total) else Some 0.

Definition evaluate_all (results : list Result)
    (ground_truth : gmap string (list string)) : option Metrics :=
  top_1 ← top_k_accuracy results ground_truth 1;
  top_5 ← top_k_accuracy results ground_truth 5;
  top_10 ← top_k_accuracy results ground_truth 10;
  mrr ← mrr results ground_truth;
  map ← mean_average_precision results ground_truth;
  Some (mkMetrics top_1 top_5 top_10 mrr map).

End Metrics.

End TopKEvaluator.

(** ** The pattern agent ([agents/pattern_detection_agent.py]) *)

Module PatternDetection.

(** An entry of a pattern table: [regex], [severity], [description]. *)
Record PatternInfo := mkPatternInfo {
  regex : string;
  severity : R;
  description : string;
}.

Record PatternMatch := mkPatternMatch {
  pattern_type : string;
  location : string;
  line_hint : option string;
  match_severity : R;
  match_description : string;
}.

Record PatternAnalysis := mkPatternAnalysis {
  class_name : string;
  matches : list PatternMatch;
  score : R;
  risk_factors : list string;
}.

Definition NULL_PATTERNS : dict PatternInfo :=
  [ ("return_null",
     mkPatternInfo "return\s+null\s*;" 0.7 "Method returns null directly");
    ("no_null_check_before_call",
     mkPatternInfo "(\w+)\s*\.\s*\w+\s*\([^)]*\)" 0.3
       "Method call without null check");
    ("nullable_field",
     mkPatternInfo
       "(private|protected|public)\s+\w+\s+\w+\s*;(?!\s*//\s*@NotNull)" 0.2
       "Field without non-null annotation");
    ("get_or_null",
     mkPatternInfo "\.\s*(get|find|lookup|resolve)\w*\s*\([^)]*\)" 0.5
       "Method that may return null") ].

Definition TYPE_PATTERNS : dict PatternInfo :=
  [ ("unsafe_cast",
     mkPatternInfo "\(\s*\w+\s*\)\s*\w+" 0.6
       "Direct cast without instanceof check");
    ("instanceof_without_cast",
     mkPatternInfo "instanceof\s+\w+" 0.1 "Type check present");
    ("generic_raw_type",
     mkPatternInfo "(List|Set|Map|Collection)\s+\w+\s*[=;]" 0.4
       "Raw generic type usage") ].

Definition SYNC_PATTERNS : dict PatternInfo :=
  [ ("iterator_without_sync",
     mkPatternInfo "\.iterator\(\)|for\s*\(\s*\w+\s+\w+\s*:\s*\w+\s*\)" 0.5
       "Iterator usage (potential CME)");
    ("collection_modify_in_loop",
     mkPatternInfo "(\.add\(|\.remove\(|\.clear\(\))" 0.4
       "Collection modification");
    ("missing_synchronized",
     mkPatternInfo
       "(private|protected|public)\s+(?!synchronized)\w+\s+\w+\s*\([^)]*\)\s*\{"
       0.2 "Method without synchronized keyword");
    ("shared_mutable",
     mkPatternInfo "(static\s+(?!final)\w+\s+\w+|volatile\s+\w+)" 0.5
       "Shared mutable state") ].

Definition BOUNDS_PATTERNS : dict PatternInfo :=
  [ ("array_access",
     mkPatternInfo "\w+\s*\[\s*\w+\s*\]" 0.4 "Array index access");
    ("get_by_index",
     mkPatternInfo "\.get\s*\(\s*\d+\s*\)|\.get\s*\(\s*\w+\s*\)" 0.4
       "Collection get by index");
    ("substring",
     mkPatternInfo "\.substring\s*\(" 0.5 "String substring operation") ].

Definition BUG_TYPE_PATTERNS : dict (dict PatternInfo) :=
  [ ("NPE", NULL_PATTERNS);
    ("CCE", TYPE_PATTERNS);
    ("CME", SYNC_PATTERNS);
    ("AIOBE", BOUNDS_PATTERNS);
    ("IAE", []);
    ("ISE", []);
    ("GENERIC", []) ].

(** [d.update(e)] *)
Definition dict_update {V : Type} (d e : dict V) : dict V :=
  foldl (λ d kv, dict_set d kv.1 kv.2) d e.

(** [_compile_patterns]: every pattern of the four tables, by name. A
    compiled pattern is kept as its regex text. *)
Definition _compile_patterns : dict PatternInfo :=
  foldl (λ compiled pattern_set,
           foldl (λ compiled (item : string * PatternInfo),
                    dict_set compiled item.1
                      (mkPatternInfo (regex item.2) (severity item.2)
                         (description item.2)))
                 compiled pattern_set)
        [] [NULL_PATTERNS; TYPE_PATTERNS; SYNC_PATTERNS; BOUNDS_PATTERNS].

(** [patterns_to_check] of [analyze_class]: the table of the bug type, if
    the type has one, updated with [NULL_PATTERNS]. *)
Definition patterns_to_check (bug_type : string) : dict PatternInfo :=
  let patterns_to_check := [] in
  let patterns_to_check :=
    match dict_get BUG_TYPE_PATTERNS bug_type with
    | Some patterns => dict_update patterns_to_check patterns
    | None => patterns_to_check
    end in
  dict_update patterns_to_check NULL_PATTERNS.

Section Agent.
(** The parsed code structure is an opaque document here: the agent only
    asks whether it is empty before it searches it and reads a file, which
    [read_class_source] stands for. [findall] is [re.findall]. *)
Context {Json : Type}.
Context (findall : string → string → list string).
Context (read_class_source : dict Json → string → option string).

Record PatternDetectionAgent := mkPatternDetectionAgent {
  code_structure : dict Json;
  _compiled : dict PatternInfo;
}.

Definition __init__ (code_structure : option (dict Json)) : PatternDetectionAgent :=
  mkPatternDetectionAgent (default [] code_structure) _compile_patterns.

Definition _get_class_source (self : PatternDetectionAgent) (class_name : string)
    : option string :=
  match code_structure self with
  | [] => None
  | _ => read_class_source (code_structure self) class_name
  end.

(** The body of the detection loop, on the analysis and [total_severity]. *)
Definition detect_step (self : PatternDetectionAgent) (class_name : string)
    (source_code : string) (st : PatternAnalysis * R)
    (item : string * PatternInfo) : PatternAnalysis * R :=
  let analysis := st.1 in
  let total_severity := st.2 in
  let pattern_name := item.1 in
  match dict_get (_compiled self) pattern_name with
  | None => (analysis, total_severity)
  | Some compiled =>
      let found := findall (regex compiled) source_code in
      match found with
      | [] => (analysis, total_severity)
      | first :: _ =>
          let match_ :=
            mkPatternMatch pattern_name class_name (Some first)
              (severity compiled) (description compiled) in
          let risks :=
            if decide (severity compiled >= 0.5)
            then risk_factors analysis
                 ++ [pattern_name +:+ ": " +:+ description compiled]
            else risk_factors analysis in
          (mkPatternAnalysis (PatternDetection.class_name analysis)
             (matches analysis ++ [match_]) (score analysis) risks,
           total_severity + severity compiled * INR (length found))
      end
  end.

Definition analyze_class (self : PatternDetectionAgent) (class_name : string)
    (bug_type : string) (source_code : option string) : option PatternAnalysis :=
  let analysis := mkPatternAnalysis class_name [] 0 [] in
  let source_code :=
    match source_code with
    | None => _get_class_source self class_name
    | Some _ => source_code
    end in
  match source_code with
  | None | Some EmptyString => Some analysis
  | Some source_code =>
      let patterns_to_check := patterns_to_check bug_type in
      let st :=
        foldl (detect_step self class_name source_code) (analysis, 0)
              patterns_to_check in
      let analysis := st.1 in
      let total_severity := st.2 in
      let max_possible :=
        py_sum ((λ p, severity p * 3) <$> dict_values patterns_to_check) in
      if decide (max_possible > 0)
      then
        ratio ← py_div total_severity max_possible;
        Some (mkPatternAnalysis (PatternDetection.class_name analysis)
                (matches analysis) (Rmin ratio 1) (risk_factors analysis))
      else Some analysis
  end.

Definition analyze_candidates (self : PatternDetectionAgent)
    (candidates : list string) (bug_type : string)
    (source_codes : option (gmap string string))
    : option (gmap string PatternAnalysis) :=
  let source_codes := default ∅ source_codes in
  foldl (λ results class_name,
           results ← results;
           let source := source_codes !! class_name in
           analysis ← analyze_class self class_name bug_type source;
           Some (<[class_name := analysis]> results))
        (Some ∅) candidates.

Definition get_pattern_scores (self : PatternDetectionAgent)
    (candidates : list string) (bug_type : string) : option (gmap string R) :=
  match analyze_candidates self candidates bug_type None with
  | Some analyses => Some (score <$> analyses)
  | None => None
  end.

End Agent.

End PatternDetection.

(** ** The test index ([agents/test_failure_agent.py], [_build_index]) *)

Module TestIndex.
Import Coverage.

(** [s[n:]] and [s[:n]] for a length [n] that is not negative. *)
Fixpoint py_drop (n : nat) (s : string) : string :=
  match n, s with
  | O, _ => s
  | S n', String _ s' => py_drop n' s'
  | S _, EmptyString => EmptyString
  end.

Fixpoint py_take (n : nat) (s : string) : string :=
  match n, s with
  | O, _ => EmptyString
  | S n', String c s' => String c (py_take n' s')
  | S _, EmptyString => EmptyString
  end.

(** [s.startswith(p)] and [s.endswith(p)] *)
Definition py_startswith (s p : string) : bool := String.prefix p s.

Definition py_endswith (s p : string) : bool :=
  (String.length p <=? String.length s)%nat
  && String.eqb (py_drop (String.length s - String.length p) s) p.

(** The parsed code structure as the index reads it, every field with
    [get] and a default. *)
Record MethodInfo := mkMethodInfo {
  method_name : option string;
}.

Record ClassInfo := mkClassInfo {
  name : option string;
  methods : option (list MethodInfo);
}.

Record FileInfo := mkFileInfo {
  file_path : option string;
  classes : option (list ClassInfo);
}.

Definition _is_test_file (file_path : string) : bool :=
  let path_lower := py_lower file_path in
  py_contains "test" path_lower
  || py_endswith file_path "Test.java"
  || py_endswith file_path "Tests.java"
  || py_contains "/test/" file_path
  || py_contains "\test\" file_path.

Definition _is_test_method (method_name : string) : bool :=
  py_startswith method_name "test"
  || py_startswith method_name "should"
  || py_endswith method_name "Test".

Definition _extract_tested_class (test_class_name : string) : option string :=
  if py_startswith test_class_name "Test"
  then Some (py_drop 4 test_class_name)
  else if py_endswith test_class_name "Test"
  then Some (py_take (String.length test_class_name - 4) test_class_name)
  else if py_endswith test_class_name "Tests"
  then Some (py_take (String.length test_class_name - 5) test_class_name)
  else None.

(** The body of the loop over the methods of a class of a test file, on
    [classes_in_test] and [_class_to_tests]. *)
Definition index_method (file_path : string) (cls : ClassInfo)
    (st : gset string * gmap string (list string)) (method : MethodInfo)
    : gset string * gmap string (list string) :=
  let classes_in_test := st.1 in
  let class_to_tests := st.2 in
  if _is_test_method (default EmptyString (method_name method))
  then
    match _extract_tested_class (default EmptyString (name cls)) with
    | None | Some EmptyString => (classes_in_test, class_to_tests)
    | Some tested_class =>
        (classes_in_test ∪ {[tested_class]},
         <[tested_class :=
             default [] (class_to_tests !! tested_class) ++ [file_path]]>
           class_to_tests)
    end
  else (classes_in_test, class_to_tests).

Definition index_class (file_path : string)
    (st : gset string * gmap string (list string)) (cls : ClassInfo)
    : gset string * gmap string (list string) :=
  foldl (index_method file_path cls) st (default [] (methods cls)).

(** [if cls1 != cls2: self._co_occurrence[cls1].add(cls2)] *)
Definition add_co_occurrence (cls1 : string)
    (co_occurrence : gmap string (gset string)) (cls2 : string)
    : gmap string (gset string) :=
  if decide (cls1 ≠ cls2)
  then <[cls1 := default ∅ (co_occurrence !! cls1) ∪ {[cls2]}]> co_occurrence
  else co_occurrence.

(** The two loops over [classes_in_test]; the order in which the set is
    walked does not change the outcome. *)
Definition build_co_occurrence (classes_in_test : gset string)
    (co_occurrence : gmap string (gset string)) : gmap string (gset string) :=
  foldl (λ co cls1, foldl (add_co_occurrence cls1) co (elements classes_in_test))
        co_occurrence (elements classes_in_test).

(** The body of the loop of [_build_index] over the files. *)
Definition index_file (self : TestFailureAgent) (file_info : FileInfo)
    : TestFailureAgent :=
  let file_path := default EmptyString (file_path file_info) in
  if _is_test_file file_path
  then
    let st :=
      foldl (index_class file_path) (∅, _class_to_tests self)
            (default [] (classes file_info)) in
    let classes_in_test := st.1 in
    mkTestFailureAgent st.2
      (build_co_occurrence classes_in_test (_co_occurrence self))
  else self.

Definition _build_index (self : TestFailureAgent) (files : list FileInfo)
    : TestFailureAgent :=
  foldl index_file self files.

(** The constructor; [code_structure] is the list under the key [files]
    of the structure, when a structure is given. *)
Definition __init__ (code_structure : option (list FileInfo)) : TestFailureAgent :=
  let self := mkTestFailureAgent ∅ ∅ in
  match code_structure with
  | Some files => _build_index self files
  | None => self
  end.

Definition get_co_tested_classes (self : TestFailureAgent) (class_name : string)
    : gset string :=
  let simple_name := py_split_last class_name in
  default ∅ (_co_occurrence self !! simple_name).

End TestIndex.

(** ** The orchestrator ([agents/langgraph_orchestrator.py]) *)

Module Orchestrator.

(** [sep.join(l)] *)
Fixpoint py_join (sep : string) (l : list string) : string :=
  match l with
  | [] => EmptyString
  | [x] => x
  | x :: l' => x +:+ sep +:+ py_join sep l'
  end.

(** [max(xs)]: [ValueError] on an empty sequence. *)
Definition py_max (xs : list R) : option R :=
  match xs with
  | [] => None
  | x :: xs' => Some (foldl Rmax x xs')
  end.

(** An entry of [final_rankings], without its explanation text. *)
Record Ranking := mkRanking {
  rank : nat;
  class_name : string;
  score : R;
  consensus : bool;
  stack_trace : bool;
  bm25_score : R;
  pattern_score : R;
  test_score : R;
}.

(** The run state. [agent_trace] and [error] hold formatted text only and
    are left out. *)
Record AgentState := mkAgentState {
  bug_report : string;
  keywords : list string;
  stack_trace_classes : list string;
  potential_classes : list string;
  bug_type : string;
  bug_confidence : R;
  dynamic_weights : dict R;
  candidate_names : list string;
  bm25_scores : dict R;
  stack_trace_scores : gmap string R;
  pattern_scores : gmap string R;
  test_scores : gmap string R;
  final_rankings : list Ranking;
  consensus_rate : R;
}.

(** What [localize] returns, without the trace. *)
Record Localization := mkLocalization {
  top_k : list Ranking;
  l_bug_type : string;
  l_bug_confidence : R;
  weights_used : dict R;
  l_consensus_rate : R;
  total_candidates : nat;
}.

Section Graph.
(** The libraries and the text parsing that the nodes call: the tokenizer
    of the BM25 ranker, [re.findall], the file reader of the pattern agent,
    the test mentions of a report, and [_extract_info_node], whose parsing
    of the report goes through [str.split], [str.strip] and the iteration
    order of a set. It yields the keywords, the stack trace classes and
    the potential classes. *)
Context {Json : Type}.
Context (_tokenize : string → list string).
Context (findall : string → string → list string).
Context (read_class_source : dict Json → string → option string).
Context (_extract_test_mentions : string → gset string).
Context (_extract_info_node : string → list string * list string * list string).

(** The agents of a [BugLocalizationGraph]. The classifier has no state
    and the knowledge graph is not read by any node. *)
Record BugLocalizationGraph := mkBugLocalizationGraph {
  bm25_ranker : option BM25.BM25Ranker;
  pattern_agent : PatternDetection.PatternDetectionAgent (Json:=Json);
  test_agent : Coverage.TestFailureAgent;
  judge_agent : Judge.JudgeAgent;
}.

Definition __init__ (ranker : option BM25.BM25Ranker)
    : option BugLocalizationGraph :=
  judge ← Judge.__init__ None;
  Some (mkBugLocalizationGraph ranker (PatternDetection.__init__ None)
          (TestIndex.__init__ None) judge).

(** [f"{' '.join(state['keywords'])} {' '.join(state['potential_classes'])}"] *)
Definition query_of (state : AgentState) : string :=
  py_join " " (keywords state) +:+ " " +:+ py_join " " (potential_classes state).

(** [_get_candidates_node]: the new [candidate_names]. *)
Definition _get_candidates_node (self : BugLocalizationGraph)
    (state : AgentState) : option (list string) :=
  candidates ←
    match bm25_ranker self with
    | Some ranker =>
        bm25_results ← BM25.rank _tokenize ranker (query_of state) 100;
        Some (bm25_results.*1)
    | None => Some []
    end;
  let candidates :=
    foldl (λ candidates st_class,
             let simple_name := py_split_last st_class in
             if decide (simple_name ∈ candidates) then candidates
             else candidates ++ [simple_name])
          candidates (stack_trace_classes state) in
  Some (py_slice_to candidates 100).

(** [_compute_bm25_node]: the new [bm25_scores]. *)
Definition _compute_bm25_node (self : BugLocalizationGraph)
    (state : AgentState) : option (dict R) :=
  match bm25_ranker self with
  | Some ranker =>
      scores ←
        foldl (λ scores doc_id,
                 scores ← scores;
                 s ← BM25.score _tokenize ranker (query_of state) doc_id;
                 Some (dict_set scores doc_id s))
              (Some []) (candidate_names state);
      max_score ←
        match scores with
        | [] => Some 1
        | _ => py_max (dict_values scores)
        end;
      if decide (max_score > 0)
      then mapM (λ kv : string * R, q ← py_div kv.2 max_score; Some (kv.1, q))
                scores
      else Some scores
  | None => Some []
  end.

(** [_detect_patterns_node]: the new [pattern_scores]. *)
Definition _detect_patterns_node (self : BugLocalizationGraph)
    (state : AgentState) : option (gmap string R) :=
  PatternDetection.get_pattern_scores findall read_class_source
    (pattern_agent self) (candidate_names state) (bug_type state).

(** [_analyze_tests_node]: the new [test_scores]. *)
Definition _analyze_tests_node (self : BugLocalizationGraph)
    (state : AgentState) : option (gmap string R) :=
  Coverage.get_test_scores _extract_test_mentions (test_agent self)
    (candidate_names state) (bug_report state).

(** [state.get("bm25_scores", {})] as the judge reads it, by key. *)
Definition by_key (scores : dict R) : gmap string R := list_to_map scores.

(** [_judge_fusion_node]: the judge with its new weights, and the new
    [stack_trace_scores], [final_rankings] and [consensus_rate]. *)
Definition _judge_fusion_node (self : BugLocalizationGraph) (state : AgentState)
    : option (BugLocalizationGraph * (gmap string R * list Ranking * R)) :=
  judge ← Judge.set_weights (judge_agent self) (dynamic_weights state);
  let self :=
    mkBugLocalizationGraph (bm25_ranker self) (pattern_agent self)
      (test_agent self) judge in
  let st_classes : gset string :=
    list_to_set (py_split_last <$> stack_trace_classes state) in
  let stack_scores : gmap string R :=
    foldl (λ scores candidate,
             let simple_name := py_split_last candidate in
             <[candidate := if decide (simple_name ∈ st_classes) then 1 else 0]>
               scores)
          ∅ (candidate_names state) in
  judgment ←
    Judge.judge judge (candidate_names state) stack_scores
      (by_key (bm25_scores state)) (pattern_scores state) (test_scores state)
      (bug_type state);
  let rankings :=
    (λ j, mkRanking (Judge.rank j) (Judge.class_name j) (Judge.final_score j)
            (Judge.consensus j)
            (bool_decide (default 0 (stack_scores !! Judge.class_name j) > 0))
            (default 0 (by_key (bm25_scores state) !! Judge.class_name j))
            (default 0 (pattern_scores state !! Judge.class_name j))
            (default 0 (test_scores state !! Judge.class_name j)))
    <$> py_slice_to (Judge.candidates judgment) 20 in
  Some (self, (stack_scores, rankings, Judge.consensus_rate judgment)).

(** The graph runs its nodes in the order of its edges, each node on the
    state with the values of the nodes before it. *)
Definition invoke (self : BugLocalizationGraph) (initial_state : AgentState)
    : option (BugLocalizationGraph * AgentState) :=
  let state := initial_state in
  let info := _extract_info_node (bug_report state) in
  let state :=
    mkAgentState (bug_report state) info.1.1 info.1.2 info.2
      (bug_type state) (bug_confidence state) (dynamic_weights state)
      (candidate_names state) (bm25_scores state) (stack_trace_scores state)
      (pattern_scores state) (test_scores state) (final_rankings state)
      (consensus_rate state) in
  classified ← Classifier._classify_bug_node findall (bug_report state);
  let state :=
    mkAgentState (bug_report state) (keywords state) (stack_trace_classes state)
      (potential_classes state) classified.1.1 classified.1.2 classified.2
      (candidate_names state) (bm25_scores state) (stack_trace_scores state)
      (pattern_scores state) (test_scores state) (final_rankings state)
      (consensus_rate state) in
  candidates ← _get_candidates_node self state;
  let state :=
    mkAgentState (bug_report state) (keywords state) (stack_trace_classes state)
      (potential_classes state) (bug_type state) (bug_confidence state)
      (dynamic_weights state) candidates (bm25_scores state)
      (stack_trace_scores state) (pattern_scores state) (test_scores state)
      (final_rankings state) (consensus_rate state) in
  bm25 ← _compute_bm25_node self state;
  let state :=
    mkAgentState (bug_report state) (keywords state) (stack_trace_classes state)
      (potential_classes state) (bug_type state) (bug_confidence state)
      (dynamic_weights state) (candidate_names state) bm25
      (stack_trace_scores state) (pattern_scores state) (test_scores state)
      (final_rankings state) (consensus_rate state) in
  patterns ← _detect_patterns_node self state;
  let state :=
    mkAgentState (bug_report state) (keywords state) (stack_trace_classes state)
      (potential_classes state) (bug_type state) (bug_confidence state)
      (dynamic_weights state) (candidate_names state) (bm25_scores state)
      (stack_trace_scores state) patterns (test_scores state)
      (final_rankings state) (consensus_rate state) in
  tests ← _analyze_tests_node self state;
  let state :=
    mkAgentState (bug_report state) (keywords state) (stack_trace_classes state)
      (potential_classes state) (bug_type state) (bug_confidence state)
      (dynamic_weights state) (candidate_names state) (bm25_scores state)
      (stack_trace_scores state) (pattern_scores state) tests
      (final_rankings state) (consensus_rate state) in
  fused ← _judge_fusion_node self state;
  let self := fused.1 in
  let state :=
    mkAgentState (bug_report state) (keywords state) (stack_trace_classes state)
      (potential_classes state) (bug_type state) (bug_confidence state)
      (dynamic_weights state) (candidate_names state) (bm25_scores state)
      fused.2.1.1 (pattern_scores state) (test_scores state)
      fused.2.1.2 fused.2.2 in
  Some (self, state).

Definition localize (self : BugLocalizationGraph) (report : string)
    (k : Z) : option (BugLocalizationGraph * Localization) :=
  let initial_state :=
    mkAgentState report [] [] [] "GENERIC" 0 [] [] [] ∅ ∅ ∅ [] 0 in
  run ← invoke self initial_state;
  let final_state := run.2 in
  Some (run.1,
        mkLocalization (py_slice_to (final_rankings final_state) k)
          (bug_type final_state) (bug_confidence final_state)
          (dynamic_weights final_state) (consensus_rate final_state)
          (length (candidate_names final_state))).

End Graph.

End Orchestrator.

(** ** Candidate aggregation ([scripts/bug_localizer.py], [_rank_candidates]) *)

Module RankCandidates.

Section Candidates.
(** A candidate is a dict; [_rank_candidates] reads its keys [type],
    [name] and [score] and carries the others along. *)
Context {Payload : Type}.

Record Candidate := mkCandidate {
  type : option string;
  name : option string;
  score : option R;
  payload : Payload;
}.

(** The dict [scores], keyed by the tuple [(type, name)], in insertion
    order. *)
Fixpoint scores_get (scores : list (string * string * Candidate))
    (key : string * string) : option Candidate :=
  match scores with
  | [] => None
  | (key', entry) :: scores' =>
      if decide (key' = key) then Some entry else scores_get scores' key
  end.

Fixpoint scores_set (scores : list (string * string * Candidate))
    (key : string * string) (entry : Candidate)
    : list (string * string * Candidate) :=
  match scores with
  | [] => [(key, entry)]
  | (key', entry') :: scores' =>
      if decide (key' = key) then (key', entry) :: scores'
      else (key', entry') :: scores_set scores' key entry
  end.

(** The body of the loop; a missing key raises [KeyError]. *)
Definition rank_step (scores : list (string * string * Candidate))
    (c : Candidate) : option (list (string * string * Candidate)) :=
  c_type ← type c;
  c_name ← name c;
  let key := (c_type, c_name) in
  let scores :=
    match scores_get scores key with
    | Some _ => scores
    | None =>
        scores_set scores key (mkCandidate (type c) (name c) (Some 0) (payload c))
    end in
  entry ← scores_get scores key;
  current ← score entry;
  c_score ← score c;
  Some (scores_set scores key
          (mkCandidate (type entry) (name entry) (Some (current + c_score))
             (payload entry))).

(** Every entry of [scores] has its [score]; the sort key reads it. *)
Definition _rank_candidates (candidates : list Candidate)
    : option (list Candidate) :=
  scores ← foldl (λ scores c, scores ← scores; rank_step scores c)
                 (Some []) candidates;
  let ranked := scores.*2 in
  Some (py_sort (λ x, default 0 (score x)) true ranked).

(** *** Vocabulary for the properties *)

Definition key_of (c : Candidate) : option (string * string) :=
  c_type ← type c; c_name ← name c; Some (c_type, c_name).

(** The candidates of a list that name one location, in their order. *)
Definition located (key : string * string) (candidates : list Candidate)
    : list Candidate :=
  filter (λ c, key_of c = Some key) candidates.

End Candidates.

End RankCandidates.

(** * Properties *)

(** ** Facts about the runtime helpers *)

Section RuntimeFacts.

Lemma foldl_Rplus (a : R) (xs : list R) : foldl Rplus a xs = a + py_sum xs.
Proof.
  unfold py_sum. revert a. induction xs as [|x xs IH]; intros a; simpl.
  - lra.
  - rewrite (IH (a + x)), (IH (0 + x)). lra.
Qed.

Lemma py_sum_nil : py_sum [] = 0.
Proof. reflexivity. Qed.

Lemma py_sum_cons (x : R) (xs : list R) : py_sum (x :: xs) = x + py_sum xs.
Proof. unfold py_sum at 1. simpl. rewrite foldl_Rplus. lra. Qed.

Lemma py_sum_nonneg (xs : list R) : Forall (λ x, 0 <= x) xs → 0 <= py_sum xs.
Proof.
  induction 1 as [|x xs Hx _ IH]; [rewrite py_sum_nil; lra|].
  rewrite py_sum_cons. lra.
Qed.

Lemma py_sum_scale (c : R) (xs : list R) :
  py_sum ((λ x, x / c) <$> xs) = py_sum xs / c.
Proof.
  induction xs as [|x xs IH].
  - rewrite fmap_nil, py_sum_nil. unfold Rdiv. lra.
  - rewrite fmap_cons, !py_sum_cons, IH. unfold Rdiv. lra.
Qed.

Lemma py_div_Some (x y : R) : y ≠ 0 → py_div x y = Some (x / y).
Proof. intros. unfold py_div. by rewrite decide_False. Qed.

Lemma py_div_zero (x : R) : py_div x 0 = None.
Proof. unfold py_div. by rewrite decide_True. Qed.

Lemma INR_length_pos {A : Type} (x : A) (xs : list A) : 0 < INR (length (x :: xs)).
Proof. apply lt_0_INR. simpl. lia. Qed.

Lemma length_py_slice_to {A : Type} (xs : list A) (k : Z) :
  (0 <= k)%Z → (length (py_slice_to xs k) <= Z.to_nat k)%nat.
Proof.
  intros Hk. unfold py_slice_to. rewrite decide_True by done.
  rewrite length_take. lia.
Qed.

Lemma enumerate_from_fst {A : Type} (start : nat) (xs : list A) :
  (enumerate_from start xs).*1 = seq start (length xs).
Proof.
  revert start. induction xs as [|x xs IH]; intros start; simpl; [done|].
  by rewrite IH.
Qed.

Lemma enumerate_from_snd {A : Type} (start : nat) (xs : list A) :
  (enumerate_from start xs).*2 = xs.
Proof.
  revert start. induction xs as [|x xs IH]; intros start; simpl; [done|].
  by rewrite IH.
Qed.

End RuntimeFacts.

(** ** [list.sort]: permutation, order and stability *)

Section SortFacts.
Context {A : Type} (key : A → R) (reverse : bool).

(** [x] may stand before [y] in the sorted list. *)
Definition sort_le (x y : A) : Prop := ¬ sort_before key reverse y x.

Lemma sort_le_trans x y z : sort_le x y → sort_le y z → sort_le x z.
Proof. unfold sort_le, sort_before. destruct reverse; lra. Qed.

Lemma sort_le_total x y : sort_before key reverse x y → sort_le x y.
Proof. unfold sort_le, sort_before. destruct reverse; lra. Qed.

Lemma sort_insert_perm x l : sort_insert key reverse x l ≡ₚ x :: l.
Proof.
  induction l as [|y l IH]; simpl; [done|].
  case_decide; [|done]. rewrite IH. apply Permutation_swap.
Qed.

Lemma py_sort_perm l : py_sort key reverse l ≡ₚ l.
Proof.
  induction l as [|x l IH]; simpl; [done|].
  rewrite sort_insert_perm. by rewrite IH.
Qed.

Lemma py_sort_length l : length (py_sort key reverse l) = length l.
Proof. apply Permutation_length, py_sort_perm. Qed.

Lemma sort_insert_sorted x l :
  StronglySorted sort_le l → StronglySorted sort_le (sort_insert key reverse x l).
Proof.
  induction 1 as [|y l Hl IH Hy]; simpl.
  - repeat constructor.
  - case_decide as Hyx.
    + constructor; [done|].
      rewrite sort_insert_perm. constructor; [|done].
      by apply sort_le_total.
    + constructor; [by constructor|].
      constructor; [done|].
      eapply Forall_impl; [exact Hy|]. intros z Hz.
      eapply sort_le_trans; [exact Hyx|exact Hz].
Qed.

Lemma py_sort_sorted l : StronglySorted sort_le (py_sort key reverse l).
Proof.
  induction l as [|x l IH]; simpl; [constructor|].
  by apply sort_insert_sorted.
Qed.

Lemma sort_insert_filter_key (v : R) x l :
  filter (λ y, key y = v) (sort_insert key reverse x l)
  = filter (λ y, key y = v) (x :: l).
Proof.
  induction l as [|y l IH]; simpl; [done|].
  case_decide as Hyx; [|done].
  rewrite filter_cons, IH, !filter_cons.
  repeat case_decide; try done.
  exfalso. unfold sort_before in Hyx. destruct reverse; lra.
Qed.

(** Stability: the elements with any one key keep their original order. *)
Lemma py_sort_stable (v : R) l :
  filter (λ y, key y = v) (py_sort key reverse l) = filter (λ y, key y = v) l.
Proof.
  induction l as [|x l IH]; simpl; [done|].
  rewrite sort_insert_filter_key, !filter_cons, IH. done.
Qed.

End SortFacts.

(** ** Judge agent *)

Module JudgeFacts.
Import Judge.

Lemma normalize_mapM (total : R) (w : dict R) :
  total ≠ 0 →
  mapM (λ kv : string * R, q ← py_div kv.2 total; Some (kv.1, q)) w
  = Some ((λ kv, (kv.1, kv.2 / total)) <$> w).
Proof.
  intros Ht. apply mapM_Some. induction w as [|kv w IH]; simpl.
  - constructor.
  - constructor; [|done]. by rewrite py_div_Some.
Qed.

Lemma normalize_values (total : R) (w : dict R) :
  dict_values ((λ kv : string * R, (kv.1, kv.2 / total)) <$> w)
  = (λ x, x / total) <$> dict_values w.
Proof. unfold dict_values. rewrite <- !list_fmap_compose. done. Qed.

Lemma _normalize_weights_positive (self : JudgeAgent) :
  py_sum (dict_values (weights self)) > 0 →
  _normalize_weights self
  = Some (mkJudgeAgent
            ((λ kv, (kv.1, kv.2 / py_sum (dict_values (weights self))))
               <$> weights self)).
Proof.
  intros Hpos. unfold _normalize_weights. rewrite decide_True by done.
  rewrite normalize_mapM by lra. done.
Qed.



(** *** Consensus check *)

Lemma sum_squares_nonneg (m : R) (xs : list R) :
  0 <= py_sum ((λ x, (x - m) ^ 2) <$> xs).
Proof.
  apply py_sum_nonneg, Forall_fmap, Forall_forall. intros x _. simpl.
  apply pow2_ge_0.
Qed.

Lemma variance_nonneg (m : R) (xs : list R) :
  xs ≠ [] → 0 <= py_sum ((λ x, (x - m) ^ 2) <$> xs) / INR (length xs).
Proof.
  intros Hne. destruct xs as [|x xs]; [done|].
  apply Rmult_le_pos; [apply sum_squares_nonneg|].
  left. apply Rinv_0_lt_compat, INR_length_pos.
Qed.

Local Ltac settle_flags Hp :=
  repeat split;
  first [ done
        | by eauto
        | (let Heq := fresh in
           intros (? & Heq & ?); rewrite Hp in Heq; simplify_eq; lra)
        | (intros [? ?]; done) ].

(** What [_check_consensus] returns, in terms of the standard deviation
    of the strictly positive scores. *)
Lemma _check_consensus_spec (agent_scores : dict AgentScore) :
  let positive := filter (λ s, s > 0) (score <$> dict_values agent_scores) in
  ∃ c r, _check_consensus agent_scores = Some (c, r)
    ∧ (c = true ↔ ∃ sd, pstdev positive = Some sd ∧ sd < 0.2)
    ∧ (r = true ↔ ∃ sd, pstdev positive = Some sd ∧ sd > 0.4)
    ∧ ¬ (c = true ∧ r = true).
Proof.
  intros positive. unfold _check_consensus. fold positive.
  destruct positive as [|x xs] eqn:Hpos.
  - exists false, false. split; [done|]. simpl.
    split; [|split]; [| |intros [? _]; done];
      (split; [done|intros (sd & ? & _); done]).
  - set (l := x :: xs). set (n := INR (length l)).
    assert (Hn : n ≠ 0).
    { pose proof (INR_length_pos x xs). subst n l. lra. }
    rewrite (py_div_Some _ n Hn). cbn [mbind option_bind].
    rewrite (py_div_Some _ n Hn). cbn [mbind option_bind].
    set (v := py_sum ((λ s, (s - py_sum l / n) ^ 2) <$> l) / n).
    assert (Hv : 0 <= v) by (apply variance_nonneg; done).
    assert (Hsd : (if decide (v > 0) then sqrt v else 0) = sqrt v).
    { case_decide; [done|]. assert (v = 0) as -> by lra. by rewrite sqrt_0. }
    rewrite Hsd.
    assert (Hp : pstdev l = Some (sqrt v)) by done.
    destruct (decide (sqrt v < 0.2)) as [Hlt|Hge];
      [|destruct (decide (sqrt v > 0.4)) as [Hgt|Hle]];
      eexists _, _; (split; [done|]); settle_flags Hp.
Qed.

(** *** Fusion *)

Lemma _calculate_final_score_gather (self : JudgeAgent)
    (st bm pt ts : gmap string R) (c : string) (consensus conflict : bool) :
  _calculate_final_score self (gather_scores c st bm pt ts) consensus conflict
  = Rmin (fusion_raw self st bm pt ts c * fusion_factor consensus conflict) 1.
Proof.
  unfold _calculate_final_score, gather_scores, fusion_raw, fusion_factor,
    weight_of, CONSENSUS_BONUS.
  cbn [foldl fst snd score confidence].
  f_equal. destruct consensus, conflict; lra.
Qed.

(** *** The judging loop *)

(** [judged c j]: the loop body turns candidate [c] into judgment [j]. *)
Definition judged (self : JudgeAgent) (st bm pt ts : gmap string R)
    (c : string) (j : CandidateJudgment) : Prop :=
  judge_candidate self st bm pt ts c = Some j.

Lemma judge_candidate_total self st bm pt ts c :
  ∃ j, judged self st bm pt ts c j.
Proof.
  unfold judged, judge_candidate.
  destruct (_check_consensus_spec (gather_scores c st bm pt ts))
    as (cs & cr & -> & _).
  cbn [mbind option_bind]. eauto.
Qed.

Lemma judged_fields self st bm pt ts c j :
  judged self st bm pt ts c j →
  class_name j = c
  ∧ agent_scores j = gather_scores c st bm pt ts
  ∧ rank j = 0%nat
  ∧ _check_consensus (agent_scores j) = Some (consensus j, conflict_resolved j)
  ∧ final_score j
    = Rmin (fusion_raw self st bm pt ts c
            * fusion_factor (consensus j) (conflict_resolved j)) 1.
Proof.
  unfold judged, judge_candidate. intros Hj.
  destruct (_check_consensus (gather_scores c st bm pt ts)) as [[cs cr]|] eqn:Hc;
    [|done].
  cbn [mbind option_bind fst snd] in Hj. injection Hj as <-.
  cbn [class_name agent_scores rank consensus conflict_resolved final_score].
  rewrite _calculate_final_score_gather. done.
Qed.

Lemma judge_loop_spec self st bm pt ts todo judgments n :
  ∃ js, Forall2 (judged self st bm pt ts) todo js
    ∧ judge_loop self st bm pt ts todo judgments n
      = Some (judgments ++ js, (n + length (filter (λ j, consensus j = true) js))%nat).
Proof.
  revert judgments n. induction todo as [|c todo IH]; intros judgments n.
  - exists []. split; [constructor|]. simpl. rewrite app_nil_r. do 2 f_equal. lia.
  - destruct (judge_candidate_total self st bm pt ts c) as [j Hj].
    destruct (IH (judgments ++ [j])
                (if consensus j then S n else n)) as (js & Hjs & Heq).
    exists (j :: js). split; [by constructor|].
    cbn [judge_loop]. unfold judged in Hj. rewrite Hj. cbn [mbind option_bind].
    rewrite Heq, <- app_assoc. cbn [app]. do 2 f_equal.
    rewrite filter_cons. destruct (consensus j); simpl; lia.
Qed.

Lemma judge_spec self cands st bm pt ts bt :
  ∃ js rate, Forall2 (judged self st bm pt ts) cands js
    ∧ judge self cands st bm pt ts bt
      = Some (mkJudgmentResult
                (assign_ranks (py_sort final_score true js))
                bt (weights self) rate).
Proof.
  destruct (judge_loop_spec self st bm pt ts cands [] 0%nat) as (js & Hjs & Heq).
  unfold judge. rewrite Heq. cbn [mbind option_bind fst snd app].
  destruct cands as [|c cands].
  - exists js, 0. done.
  - rewrite py_div_Some; [eauto|].
    pose proof (INR_length_pos c cands). lra.
Qed.

(** *** Rank assignment *)

Lemma assign_ranks_from (start : nat) (l : list CandidateJudgment) :
  ((λ ij : nat * CandidateJudgment, set_rank ij.2 (ij.1 + 1))
     <$> enumerate_from start l)
  = zip_with set_rank l (seq (S start) (length l)).
Proof.
  revert start. induction l as [|j l IH]; intros start; [done|].
  cbn [enumerate_from fmap list_fmap length seq zip_with].
  rewrite <- IH. f_equal. f_equal. cbn [fst]. lia.
Qed.

Lemma assign_ranks_zip (l : list CandidateJudgment) :
  assign_ranks l = zip_with set_rank l (seq 1 (length l)).
Proof. apply assign_ranks_from. Qed.

Lemma zip_set_rank_rank (l : list CandidateJudgment) (rs : list nat) :
  length rs = length l → rank <$> zip_with set_rank l rs = rs.
Proof.
  revert rs. induction l as [|j l IH]; intros [|r rs] Hlen; try done.
  simpl in *. f_equal. apply IH. lia.
Qed.

Lemma zip_set_rank_keep {B : Type} (f : CandidateJudgment → B)
    (l : list CandidateJudgment) (rs : list nat) :
  (∀ j r, f (set_rank j r) = f j) →
  length rs = length l → f <$> zip_with set_rank l rs = f <$> l.
Proof.
  intros Hf. revert rs. induction l as [|j l IH]; intros [|r rs] Hlen; try done.
  simpl in *. rewrite Hf. f_equal. apply IH. lia.
Qed.

Lemma zip_set_rank_filter (P : CandidateJudgment → Prop)
    `{∀ j, Decision (P j)} (l : list CandidateJudgment) (rs : list nat) :
  (∀ j r, P (set_rank j r) ↔ P j) →
  length rs = length l →
  class_name <$> filter P (zip_with set_rank l rs) = class_name <$> filter P l.
Proof.
  intros HP. revert rs. induction l as [|j l IH]; intros [|r rs] Hlen; try done.
  simpl in *. rewrite !filter_cons.
  destruct (decide (P (set_rank j r))) as [Hy|Hn];
    destruct (decide (P j)) as [Hy'|Hn']; try (by rewrite HP in *).
  - rewrite !fmap_cons. cbn [class_name set_rank]. f_equal. apply IH. lia.
  - apply IH. lia.
Qed.

Lemma zip_set_rank_Forall (P : CandidateJudgment → Prop)
    (l : list CandidateJudgment) (rs : list nat) :
  (∀ j r, P j → P (set_rank j r)) →
  Forall P l → Forall P (zip_with set_rank l rs).
Proof.
  intros HP Hl. revert rs. induction Hl as [|j l Hj _ IH]; intros [|r rs];
    simpl; constructor; auto.
Qed.

(** A property of judgments that ignores the rank passes from the loop's
    judgments to the ranked output. *)
Lemma ranked_Forall (P : CandidateJudgment → Prop) (js : list CandidateJudgment) :
  (∀ j r, P j → P (set_rank j r)) →
  Forall P js → Forall P (assign_ranks (py_sort final_score true js)).
Proof.
  intros HP Hjs. rewrite assign_ranks_zip. apply zip_set_rank_Forall; [done|].
  by rewrite py_sort_perm.
Qed.

Lemma judged_Forall (P : CandidateJudgment → Prop) self st bm pt ts cands js :
  (∀ c j, judged self st bm pt ts c j → P j) →
  Forall2 (judged self st bm pt ts) cands js → Forall P js.
Proof.
  intros HP Hjs. induction Hjs as [|c j cands js Hj _ IH]; constructor; eauto.
Qed.

Lemma judged_class_names self st bm pt ts cands js :
  Forall2 (judged self st bm pt ts) cands js → class_name <$> js = cands.
Proof.
  induction 1 as [|c j cands js Hj _ IH]; [done|].
  rewrite fmap_cons, IH. f_equal. by apply judged_fields in Hj as [-> _].
Qed.

(** *** The claims about the judge *)


(** C9. Judging [N] candidates succeeds for every [N], the output holds [N]
    judgments, and their ranks read from the top are exactly [1, 2, ..., N];
    for the empty candidate list the output is the empty list. *)
Theorem judge_ranks_are_one_to_n (self : JudgeAgent) (cands : list string)
    (st bm pt ts : gmap string R) (bt : string) :
  (∃ res, judge self cands st bm pt ts bt = Some res
     ∧ length (candidates res) = length cands
     ∧ rank <$> candidates res = seq 1 (length cands))
  ∧ judge self [] st bm pt ts bt = Some (mkJudgmentResult [] bt (weights self) 0).
Proof.
  split; [|done].
  destruct (judge_spec self cands st bm pt ts bt) as (js & rate & Hjs & ->).
  eexists. split; [done|]. cbn [candidates].
  assert (Hlen : length (py_sort final_score true js) = length cands).
  { rewrite py_sort_length. symmetry. by eapply Forall2_length. }
  rewrite assign_ranks_zip. split.
  - rewrite length_zip_with, length_seq, Hlen. lia.
  - rewrite zip_set_rank_rank by (by rewrite length_seq). by rewrite Hlen.
Qed.

(** C3 (as the code has it). The output is ordered by final score, highest
    first, and it is the input rearranged; candidates with one and the same
    final score appear in the order in which they were supplied. *)
Theorem judge_order_desc_ties_in_input_order (self : JudgeAgent)
    (cands : list string) (st bm pt ts : gmap string R) (bt : string) :
  ∃ res js, judge self cands st bm pt ts bt = Some res
    ∧ Forall2 (judged self st bm pt ts) cands js
    ∧ StronglySorted Rge (final_score <$> candidates res)
    ∧ class_name <$> candidates res ≡ₚ cands
    ∧ ∀ v : R,
        class_name <$> filter (λ j, final_score j = v) (candidates res)
        = class_name <$> filter (λ j, final_score j = v) js.
Proof.
  destruct (judge_spec self cands st bm pt ts bt) as (js & rate & Hjs & ->).
  eexists _, js. split; [done|]. split; [done|]. cbn [candidates].
  rewrite assign_ranks_zip.
  assert (Hlen : length (seq 1 (length (py_sort final_score true js)))
                 = length (py_sort final_score true js)) by apply length_seq.
  split; [|split].
  - rewrite zip_set_rank_keep by done.
    eapply StronglySorted_fmap; [|apply (py_sort_sorted final_score true)].
    intros x y. unfold sort_le, sort_before. lra.
  - rewrite zip_set_rank_keep by done.
    rewrite py_sort_perm. by rewrite (judged_class_names _ _ _ _ _ _ _ Hjs).
  - intros v. rewrite zip_set_rank_filter by done.
    by rewrite py_sort_stable.
Qed.

Lemma fusion_raw_nonneg self st bm pt ts c :
  (∀ s, 0 <= weight_of self s) →
  0 <= default 0 (st !! c) → 0 <= default 0 (bm !! c) →
  0 <= default 0 (pt !! c) → 0 <= default 0 (ts !! c) →
  0 <= fusion_raw self st bm pt ts c.
Proof.
  intros Hw Hst Hbm Hpt Hts. unfold fusion_raw.
  pose proof (Hw "stack_trace"). pose proof (Hw "bm25").
  pose proof (Hw "pattern"). pose proof (Hw "test").
  assert (0 <= (if decide (is_Some (st !! c)) then 1 else 0.5))
    by (case_decide; lra).
  repeat apply Rplus_le_le_0_compat;
    (apply Rmult_le_pos; [apply Rmult_le_pos; lra | lra]).
Qed.

Lemma fusion_raw_zero self st bm pt ts c :
  default 0 (st !! c) = 0 → default 0 (bm !! c) = 0 →
  default 0 (pt !! c) = 0 → default 0 (ts !! c) = 0 →
  fusion_raw self st bm pt ts c = 0.
Proof. intros Hst Hbm Hpt Hts. unfold fusion_raw. rewrite Hst, Hbm, Hpt, Hts. lra. Qed.

Lemma fusion_factor_pos (cs cr : bool) : 0 < fusion_factor cs cr.
Proof. unfold fusion_factor. destruct cs, cr; lra. Qed.

Lemma fusion_factor_none : fusion_factor false false = 1.
Proof. unfold fusion_factor. lra. Qed.

Lemma signal_scores_gather c st bm pt ts :
  score <$> dict_values (gather_scores c st bm pt ts)
  = [default 0 (st !! c); default 0 (bm !! c);
     default 0 (pt !! c); default 0 (ts !! c)].
Proof. reflexivity. Qed.

Lemma weight_of_nonneg (self : JudgeAgent) (s : string) :
  Forall (λ w, 0 <= w) (dict_values (weights self)) → 0 <= weight_of self s.
Proof.
  unfold weight_of, dict_values. destruct self as [w]. cbn [weights].
  induction w as [|[k v] w IH]; intros Hw.
  - cbn. lra.
  - rewrite fmap_cons in Hw. apply Forall_cons in Hw as [Hv Hw].
    cbn [dict_get]. case_decide; [done|]. by apply IH.
Qed.

Lemma score_default_nonneg (m : gmap string R) (c : string) :
  map_Forall (λ _ v, 0 <= v) m → 0 <= default 0 (m !! c).
Proof.
  intros Hm. destruct (m !! c) as [v|] eqn:Hc; cbn [default].
  - by apply (Hm c v).
  - unfold Datatypes.id. lra.
Qed.


(** The judgments returned are those of the candidates supplied, one for
    each, in some order. *)
Lemma judge_output_names self cands st bm pt ts js :
  Forall2 (judged self st bm pt ts) cands js →
  class_name <$> assign_ranks (py_sort final_score true js) ≡ₚ cands.
Proof.
  intros Hjs. rewrite assign_ranks_zip.
  rewrite zip_set_rank_keep by (done || apply length_seq).
  rewrite py_sort_perm. by rewrite (judged_class_names _ _ _ _ _ _ _ Hjs).
Qed.

(** C1. With non-negative weights and non-negative signal scores, judging
    succeeds and returns one judgment for each candidate supplied. The
    per-signal scores of a judgment are those looked up for its candidate,
    its flags are those of the consensus check on them, and its final score
    is the sum of weight * score * confidence over the four signals, times
    1.10 under consensus and times 0.95 under a resolved conflict, clamped
    to [0,1]. The final score lies in [0,1], and it is 0 for a candidate
    whose four signal scores are 0. *)
Theorem judge_final_score_is_clamped_fusion (self : JudgeAgent)
    (cands : list string) (st bm pt ts : gmap string R) (bt : string) :
  Forall (λ w, 0 <= w) (dict_values (weights self)) →
  map_Forall (λ _ v, 0 <= v) st → map_Forall (λ _ v, 0 <= v) bm →
  map_Forall (λ _ v, 0 <= v) pt → map_Forall (λ _ v, 0 <= v) ts →
  ∃ res, judge self cands st bm pt ts bt = Some res
    ∧ class_name <$> candidates res ≡ₚ cands
    ∧ Forall (λ j,
        let c := class_name j in
        let weighted_sum :=
          py_sum ((λ item, weight_of self item.1
                           * score item.2 * confidence item.2)
                    <$> agent_scores j) in
        agent_scores j = gather_scores c st bm pt ts
        ∧ _check_consensus (agent_scores j)
          = Some (consensus j, conflict_resolved j)
        ∧ weighted_sum = fusion_raw self st bm pt ts c
        ∧ final_score j
          = clamp01 (weighted_sum
                     * fusion_factor (consensus j) (conflict_resolved j))
        ∧ 0 <= final_score j <= 1
        ∧ (default 0 (st !! c) = 0 → default 0 (bm !! c) = 0 →
           default 0 (pt !! c) = 0 → default 0 (ts !! c) = 0 →
           final_score j = 0))
      (candidates res).
Proof.
  intros Hw Hst Hbm Hpt Hts.
  destruct (judge_spec self cands st bm pt ts bt) as (js & rate & Hjs & ->).
  eexists. split; [done|]. cbn [candidates].
  split; [by eapply judge_output_names|].
  apply ranked_Forall; [intros j r; by cbn|].
  eapply judged_Forall; [|exact Hjs].
  intros c j Hj.
  apply judged_fields in Hj as (-> & Hscores & _ & Hflags & Hfinal).
  cbn zeta. split; [done|]. split; [done|].
  assert (Hsum : py_sum ((λ item, weight_of self item.1
                                  * score item.2 * confidence item.2)
                           <$> agent_scores j)
                 = fusion_raw self st bm pt ts c).
  { rewrite Hscores. unfold gather_scores, fusion_raw.
    cbn [fmap list_fmap fst snd score confidence].
    rewrite !py_sum_cons, py_sum_nil. ring. }
  split; [done|]. rewrite Hsum, Hfinal.
  set (fused := _ * _).
  assert (0 <= fused).
  { apply Rmult_le_pos; [|left; apply fusion_factor_pos].
    apply fusion_raw_nonneg;
      [intros s; by apply weight_of_nonneg|by apply score_default_nonneg..]. }
  assert (0 <= Rmin fused 1) by (apply Rmin_glb; lra).
  split; [unfold clamp01; by rewrite Rmax_right|].
  split; [split; [done|apply Rmin_r]|].
  intros H1 H2 H3 H4. unfold fused.
  rewrite fusion_raw_zero by done. rewrite Rmult_0_l.
  apply Rmin_left. lra.
Qed.


(** *** Concrete runs *)

(** The judge that [JudgeAgent()] builds. *)
Definition default_judge : JudgeAgent :=
  mkJudgeAgent
    ((λ kv, (kv.1, kv.2 / py_sum (dict_values DEFAULT_WEIGHTS))) <$> DEFAULT_WEIGHTS).

Lemma default_weights_total : py_sum (dict_values DEFAULT_WEIGHTS) = 1.
Proof. unfold py_sum, DEFAULT_WEIGHTS. cbn [dict_values fmap list_fmap snd foldl]. lra. Qed.

Lemma init_default_judge : __init__ None = Some default_judge.
Proof.
  unfold __init__. rewrite _normalize_weights_positive; [done|].
  cbn [weights]. rewrite default_weights_total. lra.
Qed.

Lemma default_judge_weights :
  weight_of default_judge "stack_trace" = 0.35
  ∧ weight_of default_judge "bm25" = 0.30
  ∧ weight_of default_judge "pattern" = 0.20
  ∧ weight_of default_judge "test" = 0.15.
Proof.
  unfold weight_of, default_judge. rewrite default_weights_total.
  unfold DEFAULT_WEIGHTS. cbn [weights fmap list_fmap fst snd dict_get].
  repeat split; repeat case_decide; try done; cbn [default];
    unfold Datatypes.id; lra.
Qed.

(** A call with one candidate returns that candidate's judgment, ranked 1. *)
Lemma judge_one_candidate self c st bm pt ts bt :
  ∃ res j, judge self [c] st bm pt ts bt = Some res
    ∧ judged self st bm pt ts c j
    ∧ candidates res = [set_rank j 1].
Proof.
  destruct (judge_spec self [c] st bm pt ts bt) as (js & rate & Hjs & ->).
  apply Forall2_cons_inv_l in Hjs as (j & js' & Hj & Hnil & ->).
  apply Forall2_nil_inv_l in Hnil as ->.
  eexists _, j. split; [done|]. split; [done|]. reflexivity.
Qed.

(** Flags of a judgment none of whose scores is positive. *)
Lemma judged_flags_no_positive self st bm pt ts c j :
  judged self st bm pt ts c j →
  filter (λ s, s > 0) (signal_scores j) = [] →
  consensus j = false ∧ conflict_resolved j = false.
Proof.
  intros Hj Hnil. apply judged_fields in Hj as (_ & _ & _ & Hflags & _).
  unfold _check_consensus in Hflags. fold (signal_scores j) in Hflags.
  rewrite Hnil in Hflags. by injection Hflags as <- <-.
Qed.

Local Ltac eval_filter :=
  repeat (rewrite filter_cons;
          first [rewrite decide_True by lra | rewrite decide_False by lra]);
  rewrite ?filter_nil.

Lemma default_judge_weights_nonneg :
  Forall (λ w, 0 <= w) (dict_values (weights default_judge)).
Proof.
  unfold default_judge. rewrite default_weights_total.
  unfold DEFAULT_WEIGHTS, dict_values. cbn [weights fmap list_fmap fst snd].
  repeat (apply Forall_cons_2; [lra|]). apply Forall_nil_2.
Qed.

Lemma judge_final_score_is_clamped_fusion_witness :
  ∃ res,
    judge default_judge ["A"; "B"] {["A" := 1]} {["B" := 0.5]} ∅ ∅ "GENERIC"
    = Some res
    ∧ class_name <$> candidates res ≡ₚ ["A"; "B"]
    ∧ Forall (λ j, 0 <= final_score j <= 1) (candidates res).
Proof.
  destruct (judge_final_score_is_clamped_fusion default_judge ["A"; "B"]
              {["A" := 1]} {["B" := 0.5]} ∅ ∅ "GENERIC")
    as (res & Hres & Hperm & Hall).
  - apply default_judge_weights_nonneg.
  - apply map_Forall_singleton. lra.
  - apply map_Forall_singleton. lra.
  - apply map_Forall_empty.
  - apply map_Forall_empty.
  - exists res. split; [done|]. split; [done|].
    eapply Forall_impl; [exact Hall|].
    intros j (_ & _ & _ & _ & Hbounds & _). exact Hbounds.
Defined.


(** The scores have to be non-negative for the lower bound: a stack-trace
    score of -1 for the only candidate would give the final score -0.35
    with the default weights, since the code cuts off at 1 only. *)
Lemma negative_score_gives_negative_final :
  ∃ self res j,
    __init__ None = Some self
    ∧ judge self ["A"] {["A" := -1]} ∅ ∅ ∅ "GENERIC" = Some res
    ∧ candidates res = [j]
    ∧ final_score j = -0.35
    ∧ ¬ (0 <= final_score j <= 1)
    ∧ final_score j
      ≠ clamp01 (fusion_raw self {["A" := -1]} ∅ ∅ ∅ "A"
                 * fusion_factor (consensus j) (conflict_resolved j)).
Proof.
  destruct (judge_one_candidate default_judge "A" {["A" := -1]} ∅ ∅ ∅ "GENERIC")
    as (res & j & Hres & Hj & Hcands).
  exists default_judge, res, (set_rank j 1).
  split; [apply init_default_judge|]. split; [done|]. split; [done|].
  pose proof (judged_fields _ _ _ _ _ _ _ Hj) as (_ & Hscores & _ & _ & Hfinal).
  assert (Hsig : signal_scores j = [-1; 0; 0; 0]).
  { unfold signal_scores. rewrite Hscores, signal_scores_gather.
    by rewrite lookup_singleton_eq, !lookup_empty. }
  destruct (judged_flags_no_positive _ _ _ _ _ _ _ Hj) as [Hcs Hcr].
  { rewrite Hsig. by eval_filter. }
  cbn [final_score consensus conflict_resolved set_rank].
  rewrite Hcs, Hcr in *.
  assert (Hraw : fusion_raw default_judge {["A" := -1]} ∅ ∅ ∅ "A" = -0.35).
  { unfold fusion_raw. destruct default_judge_weights as (-> & -> & -> & ->).
    rewrite lookup_singleton_eq, !lookup_empty. cbn [default].
    unfold Datatypes.id. rewrite decide_True by eauto. lra. }
  assert (Hf : final_score j = -0.35).
  { rewrite Hfinal, Hraw, fusion_factor_none, Rmult_1_r. apply Rmin_left. lra. }
  rewrite Hf, Hraw, fusion_factor_none, Rmult_1_r. split; [done|]. split; [lra|].
  unfold clamp01. rewrite Rmin_left by lra.
  rewrite Rmax_left by lra. lra.
Qed.

Lemma pstdev_singleton (x : R) : pstdev [x] = Some 0.
Proof.
  unfold pstdev. cbn [length fmap list_fmap]. rewrite !py_sum_cons, !py_sum_nil.
  f_equal. transitivity (sqrt 0); [|apply sqrt_0].
  f_equal. cbn [INR pow]. field.
Qed.

Lemma pstdev_minus_one_one : pstdev [-1; 1] = Some 1.
Proof.
  unfold pstdev. cbn [length fmap list_fmap]. rewrite !py_sum_cons, !py_sum_nil.
  f_equal. transitivity (sqrt 1); [|apply sqrt_1].
  f_equal. cbn [INR pow]. field.
Qed.

(** The consensus check keeps the strictly positive scores, which are the
    nonzero ones only when no score is negative: with stack-trace score -1
    and BM25 score 1 it would look at the score 1 alone and report
    consensus. *)
Lemma consensus_ignores_negative_scores :
  ∃ self res j,
    __init__ None = Some self
    ∧ judge self ["A"] {["A" := -1]} {["A" := 1]} ∅ ∅ "GENERIC" = Some res
    ∧ candidates res = [j]
    ∧ signal_scores j = [-1; 1; 0; 0]
    ∧ pstdev (filter (λ s, s ≠ 0) (signal_scores j)) = Some 1
    ∧ ¬ (1 < 0.2) ∧ 1 > 0.4
    ∧ consensus j = true
    ∧ conflict_resolved j = false.
Proof.
  destruct (judge_one_candidate default_judge "A" {["A" := -1]} {["A" := 1]} ∅ ∅
              "GENERIC") as (res & j & Hres & Hj & Hcands).
  exists default_judge, res, (set_rank j 1).
  split; [apply init_default_judge|]. split; [done|]. split; [done|].
  pose proof (judged_fields _ _ _ _ _ _ _ Hj) as (_ & Hscores & _ & Hflags & _).
  assert (Hsig : signal_scores j = [-1; 1; 0; 0]).
  { unfold signal_scores. rewrite Hscores, signal_scores_gather.
    by rewrite !lookup_singleton_eq, !lookup_empty. }
  change (signal_scores (set_rank j 1)) with (signal_scores j).
  cbn [consensus conflict_resolved set_rank].
  split; [done|]. rewrite Hsig. split.
  { eval_filter. apply pstdev_minus_one_one. }
  split; [lra|]. split; [lra|].
  destruct (_check_consensus_spec (agent_scores j)) as (cs & cr & Heq & Hc & _ & Hex).
  rewrite Hflags in Heq. injection Heq as <- <-.
  fold (signal_scores j) in Hc. rewrite Hsig in Hc.
  assert (Htrue : consensus j = true).
  { apply Hc. exists 0. split; [|lra]. eval_filter. apply pstdev_singleton. }
  split; [done|].
  destruct (conflict_resolved j); [|done]. exfalso. by apply Hex.
Qed.

(** C3, counterexample. Two candidates with equal final score, supplied as
    B then A, come out as B then A: the smaller name is second. *)
Lemma equal_scores_keep_supplied_order :
  ∃ self res jb ja,
    __init__ None = Some self
    ∧ judge self ["B"; "A"] ∅ ∅ ∅ ∅ "GENERIC" = Some res
    ∧ candidates res = [jb; ja]
    ∧ class_name jb = "B" ∧ class_name ja = "A"
    ∧ final_score jb = final_score ja
    ∧ String.ltb (class_name ja) (class_name jb) = true.
Proof.
  destruct (judge_spec default_judge ["B"; "A"] ∅ ∅ ∅ ∅ "GENERIC")
    as (js & rate & Hjs & Hres).
  apply Forall2_cons_inv_l in Hjs as (jb & js' & Hb & Hjs & ->).
  apply Forall2_cons_inv_l in Hjs as (ja & js'' & Ha & Hjs & ->).
  apply Forall2_nil_inv_l in Hjs as ->.
  pose proof (judged_fields _ _ _ _ _ _ _ Hb) as (Hnb & _ & _ & _ & Hfb).
  pose proof (judged_fields _ _ _ _ _ _ _ Ha) as (Hna & _ & _ & _ & Hfa).
  rewrite fusion_raw_zero, Rmult_0_l, Rmin_left in Hfb by (done || lra).
  rewrite fusion_raw_zero, Rmult_0_l, Rmin_left in Hfa by (done || lra).
  assert (Hsort : py_sort final_score true [jb; ja] = [jb; ja]).
  { cbn [py_sort foldr sort_insert]. rewrite decide_False; [done|].
    unfold sort_before. lra. }
  rewrite Hsort in Hres.
  eexists default_judge, _, (set_rank jb 1), (set_rank ja 2).
  split; [apply init_default_judge|]. split; [exact Hres|].
  split; [reflexivity|]. cbn [class_name final_score set_rank].
  rewrite Hnb, Hna, Hfb, Hfa. done.
Qed.


End JudgeFacts.

(** ** Bug type classifier *)

Module ClassifierFacts.
Import Classifier.

Lemma dict_get_is_Some {V : Type} (d : dict V) (k : string) :
  k ∈ dict_keys d → is_Some (dict_get d k).
Proof.
  unfold dict_keys. induction d as [|[k' v] d IH]; intros Hin.
  - by apply elem_of_nil in Hin.
  - cbn [dict_get]. case_decide; [eauto|].
    rewrite fmap_cons in Hin. apply elem_of_cons in Hin as [->|Hin]; [done|auto].
Qed.

Lemma py_max_key_in (d : dict nat) :
  d ≠ [] → ∃ k, py_max_key d = Some k ∧ k ∈ dict_keys d.
Proof.
  destruct d as [|first rest]; [done|]. intros _. unfold py_max_key.
  eexists. split; [done|].
  assert (Hin : ∀ best : string * nat,
            foldl (λ best kv : string * nat,
                     if decide (best.2 < kv.2)%nat then kv else best) best rest
            ∈ best :: rest).
  { induction rest as [|kv rest IH]; intros best; cbn [foldl].
    - apply list_elem_of_here.
    - specialize (IH (if decide (best.2 < kv.2)%nat then kv else best)).
      apply elem_of_cons in IH as [->|IH].
      + case_decide; [apply list_elem_of_further|]; apply list_elem_of_here.
      + by do 2 apply list_elem_of_further. }
  unfold dict_keys. apply list_elem_of_fmap. eexists. split; [done|]. apply Hin.
Qed.

Lemma type_scores_keys findall report :
  dict_keys (type_scores findall report) = dict_keys BUG_PATTERNS.
Proof. unfold dict_keys, type_scores. by rewrite <- list_fmap_compose. Qed.

Lemma type_indicators_keys findall report :
  dict_keys (type_indicators findall report) = dict_keys BUG_PATTERNS.
Proof. unfold dict_keys, type_indicators. by rewrite <- list_fmap_compose. Qed.

Lemma pattern_types_have_profiles (k : string) :
  k ∈ dict_keys BUG_PATTERNS → is_Some (dict_get WEIGHT_PROFILES k).
Proof.
  intros Hin. apply dict_get_is_Some.
  unfold dict_keys, BUG_PATTERNS, WEIGHT_PROFILES in *.
  cbn [fmap list_fmap fst] in *.
  repeat (apply elem_of_cons in Hin as [->|Hin];
          [repeat (apply list_elem_of_here || apply list_elem_of_further)|]).
  by apply elem_of_nil in Hin.
Qed.

(** [classify] always returns, and the weights it returns are the entry of
    [WEIGHT_PROFILES] for the type it returns. *)
Lemma classify_spec findall report :
  ∃ cl, classify findall report = Some cl
    ∧ dict_get WEIGHT_PROFILES (bug_type cl) = Some (weights cl).
Proof.
  unfold classify.
  destruct (forallb _ _) eqn:Hany.
  - eexists. split; [reflexivity|]. reflexivity.
  - destruct (py_max_key_in (type_scores findall report)) as (best & -> & Hin);
      [done|].
    cbn [mbind option_bind].
    destruct (dict_get_is_Some _ _ Hin) as [n ->]. cbn [mbind option_bind].
    rewrite type_scores_keys in Hin.
    assert (∃ conf,
      (if decide (0 < sum_list (dict_values (type_scores findall report)))%nat
       then py_div (INR n) (INR (sum_list (dict_values (type_scores findall report))))
       else Some 0.5) = Some conf) as [conf ->].
    { case_decide as Hpos; [|eauto]. rewrite py_div_Some; [eauto|].
      apply not_0_INR. lia. }
    cbn [mbind option_bind].
    destruct (pattern_types_have_profiles _ Hin) as [w Hw]. rewrite Hw.
    cbn [mbind option_bind].
    rewrite <- (type_indicators_keys findall report) in Hin.
    destruct (dict_get_is_Some _ _ Hin) as [found ->]. cbn [mbind option_bind].
    eexists. split; [reflexivity|]. exact Hw.
Qed.

Lemma generic_profile :
  dict_get WEIGHT_PROFILES "GENERIC" = Some (profile 0.35 0.30 0.20 0.15).
Proof. reflexivity. Qed.

Lemma adjust_weights_high (base : dict R) (conf : R) :
  conf >= 0.8 → adjust_weights base conf = Some base.
Proof. intros H. unfold adjust_weights. by rewrite decide_True. Qed.

Lemma adjust_weights_low_profile (a b c d conf : R) :
  conf < 0.8 →
  adjust_weights (profile a b c d) conf
  = Some (profile (conf * a + (1 - conf) * 0.35) (conf * b + (1 - conf) * 0.30)
                  (conf * c + (1 - conf) * 0.20) (conf * d + (1 - conf) * 0.15)).
Proof.
  intros H. unfold adjust_weights. rewrite decide_False by lra.
  rewrite generic_profile. reflexivity.
Qed.

Lemma table_profiles (category : string) (w : dict R) :
  dict_get WEIGHT_PROFILES category = Some w →
  ∃ a b c d, w = profile a b c d.
Proof.
  unfold WEIGHT_PROFILES. cbn [dict_get]. intros H.
  repeat case_decide; simplify_eq; eauto.
Qed.

Lemma blend_profile (conf a b c d ga gb gc gd : R) :
  blend conf (profile a b c d) (profile ga gb gc gd) "stack_trace"
    = conf * a + (1 - conf) * ga
  ∧ blend conf (profile a b c d) (profile ga gb gc gd) "bm25"
    = conf * b + (1 - conf) * gb
  ∧ blend conf (profile a b c d) (profile ga gb gc gd) "pattern"
    = conf * c + (1 - conf) * gc
  ∧ blend conf (profile a b c d) (profile ga gb gc gd) "test"
    = conf * d + (1 - conf) * gd.
Proof. repeat split; reflexivity. Qed.

(** C4 (as the code has it). [classify] always returns; the weight profile
    it returns, and that the pipeline's classification node passes on, is
    the winning category's own entry of [WEIGHT_PROFILES], whatever the
    confidence. The blend is computed by the separate operation
    [adjust_weights]: for a profile of the table it returns the profile
    unchanged when the confidence is at least 0.8, and otherwise the
    profile with [confidence*category[s] + (1-confidence)*generic[s]] for
    each of the four signals. *)
Theorem classify_returns_profile_and_adjust_weights_blends
    (findall : string → string → list string) (bug_report : string) :
  (∃ cl, classify findall bug_report = Some cl
     ∧ dict_get WEIGHT_PROFILES (bug_type cl) = Some (weights cl)
     ∧ _classify_bug_node findall bug_report
       = Some (bug_type cl, confidence cl, weights cl))
  ∧ (∀ (category : string) (w generic : dict R) (conf : R),
       dict_get WEIGHT_PROFILES category = Some w →
       dict_get WEIGHT_PROFILES "GENERIC" = Some generic →
       (conf >= 0.8 → adjust_weights w conf = Some w)
       ∧ (conf < 0.8 →
          ∃ adjusted, adjust_weights w conf = Some adjusted
            ∧ dict_keys adjusted = signals
            ∧ Forall (λ s, dict_get adjusted s = Some (blend conf w generic s))
                signals)).
Proof.
  split.
  - destruct (classify_spec findall bug_report) as (cl & Hcl & Hw).
    exists cl. split; [done|]. split; [done|].
    unfold _classify_bug_node. by rewrite Hcl.
  - intros category w generic conf Hw Hg. split; [apply adjust_weights_high|].
    intros Hlow. apply table_profiles in Hw as (a & b & c & d & ->).
    rewrite generic_profile in Hg. injection Hg as <-.
    rewrite adjust_weights_low_profile by done.
    eexists. split; [done|]. split; [done|].
    unfold signals. repeat constructor; reflexivity.
Qed.

(** *** A concrete run *)

Definition two_exceptions : string := "NullPointerException ClassCastException".

Lemma two_exceptions_scores :
  type_scores literal_findall two_exceptions
  = [("NPE", 1); ("CCE", 1); ("CME", 0); ("AIOBE", 0); ("IAE", 0); ("ISE", 0);
     ("IOE", 0)]%nat.
Proof. vm_compute. reflexivity. Qed.

Lemma two_exceptions_indicators :
  dict_get (type_indicators literal_findall two_exceptions) "NPE"
  = Some ["NullPointerException"].
Proof. vm_compute. reflexivity. Qed.

Lemma two_exceptions_classified :
  classify literal_findall two_exceptions
  = Some (mkBugClassification "NPE" (Rmin (INR 1 / INR 2) 1)
            (profile 0.35 0.25 0.25 0.15) ["NullPointerException"]).
Proof.
  unfold classify. rewrite two_exceptions_scores.
  change (forallb _ _) with false. cbv iota.
  change (py_max_key _) with (Some "NPE"). cbn [mbind option_bind].
  change (sum_list _) with 2%nat.
  change (dict_get (V:=nat) _ "NPE") with (Some 1%nat). cbn [mbind option_bind].
  rewrite decide_True by lia.
  rewrite py_div_Some by (apply not_0_INR; lia). cbn [mbind option_bind].
  rewrite two_exceptions_indicators. reflexivity.
Qed.

(** C4, counterexample. A report naming two exception types is classified
    as NPE with confidence 0.5, below 0.8; the weights returned are the NPE
    profile itself, with 0.25 for BM25, where the blend with the Generic
    profile has 0.275. *)
Lemma classify_does_not_blend_at_low_confidence :
  ∃ cl generic,
    classify literal_findall two_exceptions = Some cl
    ∧ dict_get WEIGHT_PROFILES "GENERIC" = Some generic
    ∧ bug_type cl = "NPE"
    ∧ confidence cl = 0.5
    ∧ confidence cl < 0.8
    ∧ dict_get (weights cl) "bm25" = Some 0.25
    ∧ blend (confidence cl) (weights cl) generic "bm25" = 0.275
    ∧ 0.25 ≠ 0.275.
Proof.
  eexists _, _. split; [apply two_exceptions_classified|].
  split; [apply generic_profile|]. cbn [bug_type confidence weights].
  assert (Hconf : Rmin (INR 1 / INR 2) 1 = 0.5).
  { cbn [INR]. rewrite Rmin_left; lra. }
  rewrite Hconf. split; [done|]. split; [done|]. split; [lra|].
  split; [reflexivity|].
  destruct (blend_profile 0.5 0.35 0.25 0.25 0.15 0.35 0.30 0.20 0.15)
    as (_ & -> & _). split; lra.
Qed.

End ClassifierFacts.

(** ** Test failure agent *)

Module CoverageFacts.
Import Coverage.

Lemma overlap_needs_candidates (co_tested : gset string) (candidates : list string) :
  co_tested ∩ list_to_set (py_split_last <$> candidates) ≠ ∅ → candidates ≠ [].
Proof. intros Hne ->. apply Hne. apply (right_absorb_L ∅ (∩)). Qed.

Lemma ratio_nonneg (n m : nat) : 0 <= INR n / INR m.
Proof.
  destruct m as [|m].
  - unfold Rdiv. cbn [INR]. rewrite Rinv_0. lra.
  - apply Rmult_le_pos; [apply pos_INR|].
    left. apply Rinv_0_lt_compat, lt_0_INR. lia.
Qed.

(** The value of [_calculate_coverage_score] as one expression. *)
Lemma _calculate_coverage_score_value self class_name candidates test_mentions :
  _calculate_coverage_score self class_name candidates test_mentions
  = Some (Rmin ((if decide (has_test_file self class_name) then 0.3 else 0)
                + 0.4 * (INR (size (co_tested_candidates self class_name candidates))
                         / INR (length candidates))
                + (if mentioned class_name test_mentions then 0.3 else 0))
               1).
Proof.
  unfold _calculate_coverage_score, has_test_file, mentioned.
  fold (co_tested_candidates self class_name candidates).
  set (overlap := co_tested_candidates self class_name candidates).
  destruct (decide (overlap ≠ ∅)) as [Hne|Hemp].
  - assert (Hlen : INR (length candidates) ≠ 0).
    { apply not_0_INR. apply overlap_needs_candidates in Hne.
      destruct candidates; [done|]. simpl. lia. }
    rewrite py_div_Some by done. cbn [mbind option_bind].
    do 2 f_equal. repeat case_decide; destruct (existsb _ _); lra.
  - assert (overlap = ∅) as -> by (by destruct (decide (overlap = ∅))).
    cbn [mbind option_bind]. rewrite size_empty. cbn [INR].
    do 2 f_equal. unfold Rdiv. repeat case_decide; destruct (existsb _ _); lra.
Qed.

Lemma get_test_scores_loop self extract (all : list string) (bug_report : string)
    (todo : list string) (results : gmap string R) :
  ∃ scores,
    foldl (λ results class_name,
             results ← results;
             coverage_score ←
               _calculate_coverage_score self class_name all (extract bug_report);
             Some (<[class_name := coverage_score]> results))
          (Some results) todo = Some scores
    ∧ ∀ c, c ∈ todo →
        scores !! c = _calculate_coverage_score self c all (extract bug_report).
Proof.
  revert results. induction todo as [|c todo IH] using rev_ind; intros results.
  - exists results. split; [done|]. intros c Hc. by apply elem_of_nil in Hc.
  - destruct (IH results) as (scores & Heq & Hscores).
    rewrite foldl_app. cbn [foldl]. rewrite Heq. cbn [mbind option_bind].
    rewrite _calculate_coverage_score_value. cbn [mbind option_bind].
    eexists. split; [done|]. intros c' Hc'.
    destruct (decide (c = c')) as [->|Hne].
    + by rewrite lookup_insert_eq, _calculate_coverage_score_value.
    + rewrite lookup_insert_ne by done. apply Hscores.
      apply elem_of_app in Hc' as [?|Hc']; [done|].
      apply list_elem_of_singleton in Hc'. congruence.
Qed.

(** C8 (as the code has it). The coverage score of a candidate is always
    defined. It is the sum, cut off at 1, of 0.3 if the simple name has
    test files, of 0.4 times the number of distinct candidate simple names
    tested together with it divided by the length of the whole candidate
    list, and of 0.3 if some test-like token contains the simple name with
    letter case ignored. It lies in [0,1]. Without index entries for the
    class the first two terms vanish and the score is 0.3 or 0, by the
    mention alone. [get_test_scores] returns these scores for all
    candidates, whatever the candidate list. *)
Theorem coverage_score_is_capped_sum_of_three_factors (self : TestFailureAgent)
    (class_name : string) (candidates : list string) (test_mentions : gset string) :
  (∃ s, _calculate_coverage_score self class_name candidates test_mentions = Some s
     ∧ s = Rmin ((if decide (has_test_file self class_name) then 0.3 else 0)
                 + 0.4 * (INR (size (co_tested_candidates self class_name candidates))
                          / INR (length candidates))
                 + (if mentioned class_name test_mentions then 0.3 else 0))
                1
     ∧ 0 <= s <= 1
     ∧ (_class_to_tests self !! py_split_last class_name = None →
        _co_occurrence self !! py_split_last class_name = None →
        s = if mentioned class_name test_mentions then 0.3 else 0))
  ∧ (∀ (extract : string → gset string) (bug_report : string),
       ∃ scores, get_test_scores extract self candidates bug_report = Some scores
         ∧ ∀ c, c ∈ candidates →
             scores !! c
             = _calculate_coverage_score self c candidates (extract bug_report)).
Proof.
  split.
  - eexists. split; [apply _calculate_coverage_score_value|]. split; [done|].
    pose proof (ratio_nonneg (size (co_tested_candidates self class_name candidates))
                  (length candidates)) as Hratio.
    split; [split|].
    + apply Rmin_glb; [|lra].
      case_decide; destruct (mentioned _ _); lra.
    + apply Rmin_r.
    + intros Htests Hco. unfold has_test_file, co_tested_candidates.
      rewrite Htests, Hco. cbn [default].
      rewrite decide_False by (by intros [? ?]).
      rewrite (left_absorb_L ∅ (∩)).
      rewrite size_empty. cbn [INR]. unfold Rdiv.
      destruct (mentioned _ _); rewrite Rmin_left; lra.
  - intros extract bug_report. unfold get_test_scores.
    apply get_test_scores_loop.
Qed.

(** *** Concrete runs *)

Definition agent_a_with_b : TestFailureAgent :=
  mkTestFailureAgent ∅ {["A" := {["B"]}]}.

Definition agent_without_data : TestFailureAgent := mkTestFailureAgent ∅ ∅.

Lemma a_with_b_code :
  _calculate_coverage_score agent_a_with_b "A" ["A"; "B"] ∅ = Some 0.2.
Proof.
  rewrite _calculate_coverage_score_value. f_equal.
  unfold has_test_file, co_tested_candidates, mentioned, agent_a_with_b.
  cbn [_class_to_tests _co_occurrence].
  change (py_split_last "A") with "A".
  rewrite lookup_empty, lookup_singleton_eq, elements_empty.
  rewrite decide_False by (by intros [? ?]).
  cbn [default existsb fmap list_fmap length]. unfold Datatypes.id.
  change (py_split_last "A") with "A". change (py_split_last "B") with "B".
  replace ({["B"]} ∩ list_to_set ["A"; "B"]) with ({["B"]} : gset string)
    by set_solver.
  rewrite size_singleton. cbn [INR]. rewrite Rmin_left; lra.
Qed.

Lemma a_with_b_specified :
  coverage_score_as_specified agent_a_with_b "A" ["A"; "B"] ∅ = 0.4.
Proof.
  unfold coverage_score_as_specified, has_test_file, agent_a_with_b.
  cbn [_class_to_tests _co_occurrence].
  change (py_split_last "A") with "A".
  rewrite lookup_empty, lookup_singleton_eq, elements_empty.
  rewrite decide_False by (by intros [? ?]).
  cbn [default existsb]. unfold Datatypes.id.
  rewrite (filter_cons (λ c, c ≠ "A") "A"), decide_False by (by intros ?).
  rewrite (filter_cons (λ c, c ≠ "A") "B"), decide_True by done.
  rewrite filter_nil.
  rewrite (filter_cons _ "B"), decide_True by (by apply elem_of_singleton).
  rewrite filter_nil. cbn [length INR]. rewrite Rmin_left; lra.
Qed.

Lemma no_data_but_mentioned :
  _calculate_coverage_score agent_without_data "World" ["World"] {["WorldTest"]}
  = Some 0.3.
Proof.
  rewrite _calculate_coverage_score_value. f_equal.
  unfold has_test_file, co_tested_candidates, mentioned, agent_without_data.
  cbn [_class_to_tests _co_occurrence].
  rewrite !lookup_empty, elements_singleton.
  rewrite decide_False by (by intros [? ?]).
  change (existsb _ _) with true. cbn [default].
  rewrite (left_absorb_L ∅ (∩)).
  rewrite size_empty. cbn [length fmap list_fmap INR]. rewrite Rmin_left; lra.
Qed.

(** C8, counterexample. (1) Of two candidates A and B, B being A's only
    other candidate and tested together with it, the code gives A the
    score 0.4 * 1/2 = 0.2 where the fraction of the other candidates is 1
    and the specified score 0.4. (2) An agent with no coverage data at all
    gives World the score 0.3, not 0, when the report mentions WorldTest. *)
Lemma coverage_ratio_and_missing_data_differ :
  _calculate_coverage_score agent_a_with_b "A" ["A"; "B"] ∅ = Some 0.2
  ∧ coverage_score_as_specified agent_a_with_b "A" ["A"; "B"] ∅ = 0.4
  ∧ 0.2 ≠ 0.4
  ∧ _class_to_tests agent_without_data = ∅
  ∧ _co_occurrence agent_without_data = ∅
  ∧ _calculate_coverage_score agent_without_data "World" ["World"] {["WorldTest"]}
    = Some 0.3
  ∧ 0.3 ≠ 0.
Proof.
  split; [apply a_with_b_code|]. split; [apply a_with_b_specified|].
  split; [lra|]. split; [done|]. split; [done|].
  split; [apply no_data_but_mentioned|]. lra.
Qed.

End CoverageFacts.

(** ** BM25 ranker *)

Module BM25Facts.
Import BM25.

Lemma dict_get_set {V : Type} (d : dict V) (k k' : string) (v : V) :
  dict_get (dict_set d k v) k' = if decide (k = k') then Some v else dict_get d k'.
Proof.
  induction d as [|[k0 v0] d IH]; cbn [dict_set dict_get].
  - by repeat case_decide.
  - destruct (decide (k0 = k)) as [->|Hne]; cbn [dict_get].
    + by repeat case_decide.
    + rewrite IH. repeat case_decide; congruence.
Qed.

Lemma dict_get_Some_key {V : Type} (d : dict V) (k : string) (v : V) :
  dict_get d k = Some v → k ∈ dict_keys d.
Proof.
  unfold dict_keys. induction d as [|[k0 v0] d IH]; cbn [dict_get]; [done|].
  rewrite fmap_cons. case_decide as Hk.
  - intros _. cbn [fst]. rewrite Hk. apply list_elem_of_here.
  - intros H. apply list_elem_of_further. auto.
Qed.

(** *** [Counter] and document frequencies *)

Lemma Counter_fold_positive (c0 : gmap string nat) (terms : list string) :
  (∀ t n, c0 !! t = Some n → (1 <= n)%nat) →
  ∀ t n,
    foldl (λ c term, <[term := S (default 0%nat (c !! term))]> c) c0 terms !! t
    = Some n →
    (1 <= n)%nat.
Proof.
  revert c0. induction terms as [|x terms IH]; intros c0 Hc0 t n; cbn [foldl].
  - apply Hc0.
  - apply IH. intros t' n'. destruct (decide (x = t')) as [->|Hne].
    + rewrite lookup_insert_eq. intros [= <-]. lia.
    + rewrite lookup_insert_ne by done. apply Hc0.
Qed.

Lemma Counter_positive (terms : list string) (t : string) (n : nat) :
  Counter terms !! t = Some n → (1 <= n)%nat.
Proof.
  apply Counter_fold_positive. intros t' n'. by rewrite lookup_empty.
Qed.

Lemma Counter_fold_member (c0 : gmap string nat) (terms : list string) (t : string) :
  is_Some (foldl (λ c term, <[term := S (default 0%nat (c !! term))]> c) c0 terms !! t) →
  t ∈ terms ∨ is_Some (c0 !! t).
Proof.
  revert c0. induction terms as [|x terms IH]; intros c0; cbn [foldl]; [auto|].
  intros H. apply IH in H as [H|H].
  - left. by apply list_elem_of_further.
  - destruct (decide (x = t)) as [->|Hne].
    + left. apply list_elem_of_here.
    + rewrite lookup_insert_ne in H by done. auto.
Qed.

Lemma Counter_member (terms : list string) (t : string) (n : nat) :
  Counter terms !! t = Some n → t ∈ terms.
Proof.
  intros H. destruct (Counter_fold_member ∅ terms t) as [|[? Hemp]]; [by eexists|done|].
  by rewrite lookup_empty in Hemp.
Qed.

Lemma count_fold_value (f : gmap string nat) (l : list string) (t : string) :
  NoDup l →
  default 0%nat
    (foldl (λ f term, <[term := (default 0%nat (f !! term) + 1)%nat]> f) f l !! t)
  = (default 0%nat (f !! t) + (if decide (t ∈ l) then 1 else 0))%nat.
Proof.
  intros Hnd. revert f. induction Hnd as [|x l Hx Hnd IH]; intros f; cbn [foldl].
  - rewrite decide_False by apply not_elem_of_nil. lia.
  - rewrite IH. destruct (decide (x = t)) as [->|Hne].
    + rewrite lookup_insert_eq, decide_False by done.
      rewrite decide_True by apply list_elem_of_here. done.
    + rewrite lookup_insert_ne by done.
      destruct (decide (t ∈ l)) as [Hin|Hnin].
      * rewrite decide_True by (by apply list_elem_of_further). done.
      * rewrite decide_False; [done|].
        intros [->|?]%elem_of_cons; done.
Qed.

(** Indexing one document raises the frequency of exactly its terms by 1. *)
Lemma count_doc_freqs_value (f : gmap string nat) (terms : list string) (t : string) :
  default 0%nat (count_doc_freqs f terms !! t)
  = (default 0%nat (f !! t) + (if decide (t ∈ terms) then 1 else 0))%nat.
Proof.
  unfold count_doc_freqs. rewrite count_fold_value by apply NoDup_remove_dups.
  destruct (decide (t ∈ terms)) as [Hin|Hnin].
  - by rewrite decide_True by (by apply elem_of_remove_dups).
  - by rewrite decide_False by (by rewrite elem_of_remove_dups).
Qed.

(** *** The index that [fit] builds *)

Section Fit.
Context (_tokenize : string → list string).

(** What holds of the ranker and [total_len] after [i] rounds of the loop
    of [fit] on a new ranker. *)
Record fit_inv (i : nat) (st : BM25Ranker * nat) : Prop := mk_fit_inv {
  inv_lens : ∀ d n, doc_lens st.1 !! d = Some n → (n <= st.2)%nat ∧ (1 <= i)%nat;
  inv_freqs : ∀ t, (default 0%nat (doc_freqs st.1 !! t) <= i)%nat;
  inv_terms : ∀ d c t tf,
    dict_get (doc_terms st.1) d = Some c → c !! t = Some tf →
    (1 <= tf)%nat ∧ (1 <= default 0%nat (doc_freqs st.1 !! t))%nat;
  inv_doc_len : ∀ d c t tf,
    dict_get (doc_terms st.1) d = Some c → c !! t = Some tf →
    ∃ n, doc_lens st.1 !! d = Some n ∧ (1 <= n)%nat;
}.

Lemma fit_inv_init (k1 b a : R) (n : nat) :
  fit_inv 0 (mkBM25Ranker k1 b ∅ ∅ a n [] ∅, 0%nat).
Proof. split; cbn; intros *; try rewrite lookup_empty; done || lia. Qed.

Lemma fit_inv_step (i : nat) (st : BM25Ranker * nat) (item : string * DocInfo) :
  fit_inv i st → fit_inv (S i) (fit_doc _tokenize st item).
Proof.
  intros [Hlens Hfreqs Hterms Hlen]. destruct st as [self total], item as [doc_id info].
  set (terms := _tokenize (default EmptyString (text info))).
  split; unfold fit_doc; cbn [fst snd doc_lens doc_freqs doc_terms] in *; fold terms.
  - intros d n. destruct (decide (doc_id = d)) as [->|Hne].
    + rewrite lookup_insert_eq. intros [= <-]. lia.
    + rewrite lookup_insert_ne by done. intros H. apply Hlens in H. lia.
  - intros t. rewrite count_doc_freqs_value. specialize (Hfreqs t).
    case_decide; lia.
  - intros d c t tf. rewrite dict_get_set, count_doc_freqs_value.
    destruct (decide (doc_id = d)) as [->|Hne].
    + intros [= <-] Hc. split; [by eapply Counter_positive|].
      rewrite decide_True by (by eapply Counter_member). lia.
    + intros Hd Hc. destruct (Hterms d c t tf Hd Hc). split; [done|lia].
  - intros d c t tf. rewrite dict_get_set.
    destruct (decide (doc_id = d)) as [->|Hne].
    + intros [= <-] Hc. rewrite lookup_insert_eq. eexists. split; [done|].
      apply Counter_member in Hc. destruct terms; [by apply elem_of_nil in Hc|].
      simpl. lia.
    + intros Hd Hc. rewrite lookup_insert_ne by done. eauto.
Qed.

Lemma fit_inv_loop (i : nat) (st : BM25Ranker * nat) (documents : dict DocInfo) :
  fit_inv i st →
  fit_inv (i + length documents) (foldl (fit_doc _tokenize) st documents).
Proof.
  revert i st. induction documents as [|item documents IH]; intros i st Hinv.
  - cbn [foldl length]. by rewrite Nat.add_0_r.
  - cbn [foldl length]. rewrite Nat.add_succ_r, <- Nat.add_succ_l.
    apply IH. by apply fit_inv_step.
Qed.

Lemma fit_loop_params (st : BM25Ranker * nat) (documents : dict DocInfo) :
  let st' := foldl (fit_doc _tokenize) st documents in
  k1 st'.1 = k1 st.1 ∧ b st'.1 = b st.1 ∧ N st'.1 = N st.1.
Proof.
  revert st. induction documents as [|item documents IH]; intros st; [done|].
  cbn [foldl]. destruct (IH (fit_doc _tokenize st item)) as (-> & -> & ->).
  done.
Qed.

(** A ranker as [fit] leaves it when run on a new ranker. *)
Record fitted (r : BM25Ranker) : Prop := mk_fitted {
  fitted_df_le_N : ∀ t, (default 0%nat (doc_freqs r !! t) <= N r)%nat;
  fitted_terms : ∀ d c t tf,
    dict_get (doc_terms r) d = Some c → c !! t = Some tf →
    (1 <= tf)%nat ∧ (1 <= default 0%nat (doc_freqs r !! t))%nat;
  fitted_doc_len : ∀ d c t tf,
    dict_get (doc_terms r) d = Some c → c !! t = Some tf →
    ∃ n, doc_lens r !! d = Some n ∧ (1 <= n)%nat;
  fitted_avgdl : ∀ d n, doc_lens r !! d = Some n → (0 < n)%nat → 0 < avgdl r;
}.

Lemma fit_new_ranker (k1' b' : R) (documents : dict DocInfo) :
  ∃ r, fit _tokenize (__init__ k1' b') documents = Some r
    ∧ fitted r ∧ k1 r = k1' ∧ b r = b' ∧ N r = length documents.
Proof.
  unfold fit, __init__. cbn [k1 b doc_freqs doc_lens avgdl doc_terms doc_metadata].
  set (st0 := (mkBM25Ranker k1' b' ∅ ∅ 0 (length documents) [] ∅, 0%nat)).
  pose proof (fit_inv_loop 0 st0 documents (fit_inv_init _ _ _ _)) as Hinv.
  destruct (fit_loop_params st0 documents) as (Hk & Hb & HN).
  set (st := foldl (fit_doc _tokenize) st0 documents) in *.
  unfold st0 in Hk, Hb, HN. cbn [fst snd k1 b N] in Hk, Hb, HN.
  cbn [Nat.add] in Hinv.
  destruct Hinv as [Hlens Hfreqs Hterms Hlen].
  assert (∃ a, (if decide (0 < N st.1)%nat
                then py_div (INR st.2) (INR (N st.1)) else Some 0) = Some a
               ∧ ∀ d n, doc_lens st.1 !! d = Some n → (0 < n)%nat → 0 < a)
    as (a & -> & Ha).
  { rewrite HN. destruct (decide (0 < length documents)%nat) as [Hpos|Hzero].
    - rewrite py_div_Some by (apply not_0_INR; lia).
      eexists. split; [done|]. intros d n Hd Hn. apply Hlens in Hd.
      apply Rdiv_lt_0_compat; apply lt_0_INR; lia.
    - exists 0. split; [done|]. intros d n Hd _. apply Hlens in Hd. lia. }
  cbn [mbind option_bind]. eexists. split; [done|].
  split; [|by rewrite Hk, Hb, HN].
  split; cbn [doc_freqs doc_lens doc_terms N avgdl]; try done.
  intros t. rewrite HN. apply Hfreqs.
Qed.

End Fit.

(** *** IDF and the score of one term *)

Lemma _idf_spec (r : BM25Ranker) (t : string) :
  fitted r →
  ∃ idf, _idf r t = Some idf
    ∧ 0 <= idf
    ∧ (default 0%nat (doc_freqs r !! t) = 0%nat → idf = 0)
    ∧ (default 0%nat (doc_freqs r !! t) ≠ 0%nat → 0 < idf).
Proof.
  intros Hr. unfold _idf. set (df := default 0%nat (doc_freqs r !! t)).
  destruct (decide (df = 0%nat)) as [Hz|Hnz].
  - exists 0. split; [done|]. split; [lra|]. split; [done|]. intros H. done.
  - pose proof (fitted_df_le_N r Hr t) as Hle. fold df in Hle.
    apply le_INR in Hle. pose proof (pos_INR df) as Hdf.
    rewrite py_div_Some by lra. cbn [mbind option_bind].
    set (odds := (INR (N r) - INR df + 0.5) / (INR df + 0.5)).
    assert (Hodds : 0 < odds) by (apply Rdiv_lt_0_compat; lra).
    unfold py_log. rewrite decide_True by lra.
    assert (0 < ln (odds + 1)).
    { rewrite <- ln_1. apply ln_increasing; lra. }
    eexists. split; [done|]. split; [lra|]. split; [done|]. intros _. done.
Qed.

(** The saturation quotient [x*(k+1)/(x+c)] does not decrease with [x]. *)
Lemma saturation_monotone (k c x y : R) :
  0 <= k → 0 <= c → 0 < x → x <= y →
  x * (k + 1) / (x + c) <= y * (k + 1) / (y + c).
Proof.
  intros Hk Hc Hx Hxy.
  assert (Hdiff : 0 <= y * (k + 1) / (y + c) - x * (k + 1) / (x + c)); [|lra].
  replace (y * (k + 1) / (y + c) - x * (k + 1) / (x + c))
    with ((k + 1) * c * (y - x) / ((x + c) * (y + c))) by (field; lra).
  apply Rmult_le_pos.
  - apply Rmult_le_pos; [apply Rmult_le_pos|]; lra.
  - left. apply Rinv_0_lt_compat. apply Rmult_lt_0_compat; lra.
Qed.

Lemma term_score_spec (r : BM25Ranker) (t : string) (tf doc_len : nat) :
  fitted r → 0 <= k1 r → 0 <= b r <= 1 → 0 < avgdl r → (1 <= tf)%nat →
  ∃ idf, _idf r t = Some idf
    ∧ 0 <= idf
    ∧ 0 < INR tf + k1 r * (1 - b r + b r * INR doc_len / avgdl r)
    ∧ term_score r t tf doc_len
      = Some (idf * (INR tf * (k1 r + 1)
                     / (INR tf + k1 r * (1 - b r + b r * INR doc_len / avgdl r)))).
Proof.
  intros Hr Hk Hb Havg Htf.
  destruct (_idf_spec r t Hr) as (idf & Hidf & Hpos & _).
  exists idf. split; [done|]. split; [done|].
  assert (Hden : 0 < INR tf + k1 r * (1 - b r + b r * INR doc_len / avgdl r)).
  { apply le_INR in Htf. cbn [INR] in Htf.
    assert (0 <= b r * INR doc_len / avgdl r).
    { apply Rmult_le_pos; [apply Rmult_le_pos; [lra|apply pos_INR]|].
      left. by apply Rinv_0_lt_compat. }
    assert (0 <= k1 r * (1 - b r + b r * INR doc_len / avgdl r))
      by (apply Rmult_le_pos; lra).
    lra. }
  split; [done|].
  unfold term_score. rewrite Hidf. cbn [mbind option_bind].
  rewrite py_div_Some by lra. cbn [mbind option_bind].
  rewrite py_div_Some by lra. done.
Qed.

(** *** [score] and [rank] on a fitted index *)

Section Score.
Context (_tokenize : string → list string).

Lemma score_loop_total (r : BM25Ranker) (c : gmap string nat) (doc_len : nat)
    (terms : list string) (acc : R) :
  fitted r → 0 <= k1 r → 0 <= b r <= 1 → 0 < avgdl r →
  (∀ t tf, c !! t = Some tf → (1 <= tf)%nat) →
  0 <= acc →
  ∃ s, foldl (λ score term, score ← score; score_step r c doc_len score term)
             (Some acc) terms = Some s
    ∧ acc <= s.
Proof.
  intros Hr Hk Hb Havg Hc. revert acc.
  induction terms as [|t terms IH]; intros acc Hacc; cbn [foldl].
  - exists acc. split; [done|lra].
  - cbn [mbind option_bind]. unfold score_step at 2.
    destruct (c !! t) as [tf|] eqn:Htf.
    + destruct (term_score_spec r t tf doc_len Hr Hk Hb Havg (Hc _ _ Htf))
        as (idf & _ & Hidf & Hden & ->).
      cbn [mbind option_bind].
      assert (0 <= idf * (INR tf * (k1 r + 1)
                / (INR tf + k1 r * (1 - b r + b r * INR doc_len / avgdl r)))).
      { apply Rmult_le_pos; [done|]. apply Rmult_le_pos.
        - apply Rmult_le_pos; [apply pos_INR|lra].
        - left. by apply Rinv_0_lt_compat. }
      destruct (IH (acc + idf * (INR tf * (k1 r + 1)
                / (INR tf + k1 r * (1 - b r + b r * INR doc_len / avgdl r)))))
        as (s & -> & Hs); [lra|].
      exists s. split; [done|lra].
    + apply IH. done.
Qed.

Lemma score_terms_total (r : BM25Ranker) (terms : list string) (doc_id : string) :
  fitted r → 0 <= k1 r → 0 <= b r <= 1 →
  ∃ s, score_terms r terms doc_id = Some s ∧ 0 <= s.
Proof.
  intros Hr Hk Hb. unfold score_terms.
  destruct (doc_lens r !! doc_id) as [n|] eqn:Hn; cbn [default];
    [|exists 0; rewrite decide_True by done; split; [done|lra]].
  unfold Datatypes.id.
  destruct (decide (n = 0%nat)) as [Hz|Hnz]; [exists 0; split; [done|lra]|].
  apply score_loop_total; try done.
  - eapply fitted_avgdl; [done|exact Hn|lia].
  - intros t tf. destruct (dict_get (doc_terms r) doc_id) as [c|] eqn:Hc;
      cbn [default]; [|by rewrite lookup_empty].
    unfold Datatypes.id. intros Htf.
    by destruct (fitted_terms r Hr _ _ _ _ Hc Htf).
Qed.

Lemma score_terms_no_tokens (r : BM25Ranker) (terms : list string) (doc_id : string) :
  default 0%nat (doc_lens r !! doc_id) = 0%nat →
  score_terms r terms doc_id = Some 0.
Proof. intros H. unfold score_terms. by rewrite decide_True. Qed.

Lemma rank_collect_loop (r : BM25Ranker) (query : string)
    (ids : list string) (acc : list (string * R)) :
  fitted r → 0 <= k1 r → 0 <= b r <= 1 →
  ∃ hits,
    foldl (λ scores doc_id,
             scores ← scores;
             s ← score _tokenize r query doc_id;
             Some (if decide (s > 0) then scores ++ [(doc_id, s)] else scores))
          (Some acc) ids = Some (acc ++ hits)
    ∧ Forall (λ x, x.2 > 0 ∧ score _tokenize r query x.1 = Some x.2) hits
    ∧ hits.*1 `sublist_of` ids.
Proof.
  intros Hr Hk Hb. revert acc.
  induction ids as [|d ids IH]; intros acc; cbn [foldl].
  - exists []. rewrite app_nil_r. split; [done|]. split; [constructor|done].
  - cbn [mbind option_bind].
    destruct (score_terms_total r (_tokenize query) d Hr Hk Hb) as (s & Hs & _).
    fold (score _tokenize r query d) in Hs. rewrite Hs. cbn [mbind option_bind].
    destruct (decide (s > 0)) as [Hpos|Hnpos].
    + destruct (IH (acc ++ [(d, s)])) as (hits & -> & Hall & Hsub).
      exists ((d, s) :: hits). rewrite <- app_assoc. split; [done|].
      split; [by constructor|]. rewrite fmap_cons. by apply sublist_skip.
    + destruct (IH acc) as (hits & -> & Hall & Hsub).
      exists hits. split; [done|]. split; [done|]. by apply sublist_cons.
Qed.

Lemma rank_collect_spec (r : BM25Ranker) (query : string) :
  fitted r → 0 <= k1 r → 0 <= b r <= 1 →
  ∃ hits, rank_collect _tokenize r query = Some hits
    ∧ Forall (λ x, x.2 > 0 ∧ score _tokenize r query x.1 = Some x.2) hits
    ∧ hits.*1 `sublist_of` dict_keys (doc_terms r).
Proof.
  intros Hr Hk Hb. unfold rank_collect.
  destruct (rank_collect_loop r query (dict_keys (doc_terms r)) [] Hr Hk Hb)
    as (hits & Heq & H). cbn [app] in Heq. eauto.
Qed.

End Score.

(** *** Slices of sorted lists *)

Lemma py_slice_to_take {A : Type} (xs : list A) (k : Z) :
  ∃ n, py_slice_to xs k = take n xs.
Proof. unfold py_slice_to. case_decide; eauto. Qed.

Lemma StronglySorted_take {A : Type} (Rel : A → A → Prop) (n : nat) (l : list A) :
  StronglySorted Rel l → StronglySorted Rel (take n l).
Proof.
  intros Hl. revert n. induction Hl as [|x l Hl IH Hx]; intros [|n]; cbn [take];
    try constructor; [apply IH|by apply Forall_take].
Qed.

Lemma StronglySorted_weaken {A : Type} (R1 R2 : A → A → Prop) (l : list A) :
  (∀ x y, R1 x y → R2 x y) → StronglySorted R1 l → StronglySorted R2 l.
Proof.
  intros HR. induction 1 as [|x l Hl IH Hx]; constructor; [done|].
  eapply Forall_impl; [exact Hx|]. auto.
Qed.

Lemma filter_take_prefix {A : Type} (P : A → Prop) `{∀ x, Decision (P x)}
    (n : nat) (l : list A) :
  filter P (take n l) `prefix_of` filter P l.
Proof.
  exists (filter P (drop n l)). by rewrite <- filter_app, take_drop.
Qed.

Lemma filter_iff {A : Type} (P Q : A → Prop)
    `{∀ x, Decision (P x)} `{∀ x, Decision (Q x)} (l : list A) :
  (∀ x, P x ↔ Q x) → filter P l = filter Q l.
Proof.
  intros HPQ. induction l as [|x l IH]; [done|].
  rewrite !filter_cons, IH.
  destruct (decide (P x)), (decide (Q x)); try done; by rewrite HPQ in *.
Qed.

(** *** The claims about the ranker *)

Lemma default_parameters : 0 <= BM25_K1 ∧ 0 <= BM25_B <= 1.
Proof. unfold BM25_K1, BM25_B. lra. Qed.

(** The index of a new ranker with the standard parameters. *)
Lemma fit_default (_tokenize : string → list string) (documents : dict DocInfo) :
  ∃ r, fit _tokenize (__init__ BM25_K1 BM25_B) documents = Some r
    ∧ fitted r ∧ 0 <= k1 r ∧ 0 <= b r <= 1.
Proof.
  destruct (fit_new_ranker _tokenize BM25_K1 BM25_B documents)
    as (r & Hfit & Hr & Hk & Hb & _).
  exists r. split; [done|]. split; [done|]. rewrite Hk, Hb.
  apply default_parameters.
Qed.

(** C10. On the ranker that [BM25Ranker()] builds, [fit] succeeds on every
    document map, and afterwards every call of [score] returns a number: no
    division by zero, no logarithm outside its domain. A positive token
    count of an indexed document makes the average length positive. For a
    document id that is unknown or has no tokens [score] returns 0.0
    before any division, on every ranker. *)
Theorem score_never_divides_by_zero_after_fit
    (_tokenize : string → list string) (documents : dict DocInfo) :
  ∃ r, fit _tokenize (__init__ BM25_K1 BM25_B) documents = Some r
    ∧ (∀ query doc_id, ∃ s, score _tokenize r query doc_id = Some s)
    ∧ (∀ doc_id n, doc_lens r !! doc_id = Some n → (0 < n)%nat → 0 < avgdl r)
    ∧ (∀ (r' : BM25Ranker) query doc_id,
         doc_lens r' !! doc_id = None ∨ doc_lens r' !! doc_id = Some 0%nat →
         score _tokenize r' query doc_id = Some 0).
Proof.
  destruct (fit_default _tokenize documents) as (r & Hfit & Hr & Hk & Hb).
  exists r. split; [done|]. split; [|split].
  - intros query doc_id.
    destruct (score_terms_total r (_tokenize query) doc_id Hr Hk Hb) as (s & Hs & _).
    by exists s.
  - apply (fitted_avgdl r Hr).
  - intros r' query doc_id Hlen. apply score_terms_no_tokens.
    by destruct Hlen as [-> | ->].
Qed.

Lemma absent_term_not_in_docs (r : BM25Ranker) (term doc_id : string) :
  fitted r → default 0%nat (doc_freqs r !! term) = 0%nat →
  default ∅ (dict_get (doc_terms r) doc_id) !! term = None.
Proof.
  intros Hr Hdf. destruct (dict_get (doc_terms r) doc_id) as [c|] eqn:Hc;
    cbn [default]; [|apply lookup_empty].
  unfold Datatypes.id. destruct (c !! term) as [tf|] eqn:Htf; [|done].
  destruct (fitted_terms r Hr _ _ _ _ Hc Htf). lia.
Qed.

Lemma score_loop_skip (r : BM25Ranker) (c : gmap string nat) (doc_len : nat)
    (term : string) (before after : list string) (start : option R) :
  c !! term = None →
  foldl (λ score t, score ← score; score_step r c doc_len score t)
        start (before ++ term :: after)
  = foldl (λ score t, score ← score; score_step r c doc_len score t)
          start (before ++ after).
Proof.
  intros Hc. rewrite !foldl_app. cbn [foldl]. f_equal.
  destruct (foldl _ start before) as [acc|]; [|done].
  cbn [mbind option_bind]. unfold score_step. by rewrite Hc.
Qed.

(** C6. On the ranker that [BM25Ranker()] builds, after [fit] on any
    corpus: a term contained in no document has IDF 0, leaves the running
    score of every document as it is, and can be dropped from a query
    without changing any score; the IDF of every term is defined and not
    negative; and for an indexed document length the score of one term is
    defined for every frequency from 1 on and does not decrease when the
    frequency grows. *)
Theorem absent_term_adds_zero_and_term_score_grows_with_tf
    (_tokenize : string → list string) (documents : dict DocInfo) :
  ∃ r, fit _tokenize (__init__ BM25_K1 BM25_B) documents = Some r
    ∧ (∀ term, default 0%nat (doc_freqs r !! term) = 0%nat →
         _idf r term = Some 0
         ∧ (∀ doc_id doc_len running,
              score_step r (default ∅ (dict_get (doc_terms r) doc_id))
                doc_len running term = Some running)
         ∧ (∀ before after doc_id,
              score_terms r (before ++ term :: after) doc_id
              = score_terms r (before ++ after) doc_id))
    ∧ (∀ term, ∃ idf, _idf r term = Some idf ∧ 0 <= idf)
    ∧ (∀ term doc_id doc_len (tf1 tf2 : nat),
         doc_lens r !! doc_id = Some doc_len → (0 < doc_len)%nat →
         (1 <= tf1)%nat → (tf1 <= tf2)%nat →
         ∃ s1 s2, term_score r term tf1 doc_len = Some s1
           ∧ term_score r term tf2 doc_len = Some s2
           ∧ s1 <= s2).
Proof.
  destruct (fit_default _tokenize documents) as (r & Hfit & Hr & Hk & Hb).
  exists r. split; [done|]. split; [|split].
  - intros term Hdf. split; [|split].
    + destruct (_idf_spec r term Hr) as (idf & Hidf & _ & Hzero & _).
      by rewrite Hidf, (Hzero Hdf).
    + intros doc_id doc_len running. unfold score_step.
      by rewrite absent_term_not_in_docs.
    + intros before after doc_id. unfold score_terms.
      case_decide; [done|]. apply score_loop_skip.
      by apply absent_term_not_in_docs.
  - intros term. destruct (_idf_spec r term Hr) as (idf & Hidf & Hpos & _).
    eauto.
  - intros term doc_id doc_len tf1 tf2 Hlen Hpos Htf1 Htf12.
    pose proof (fitted_avgdl r Hr _ _ Hlen Hpos) as Havg.
    destruct (term_score_spec r term tf1 doc_len Hr Hk Hb Havg Htf1)
      as (idf & Hidf & Hidf0 & Hden1 & ->).
    destruct (term_score_spec r term tf2 doc_len Hr Hk Hb Havg)
      as (idf' & Hidf' & _ & Hden2 & ->); [lia|].
    rewrite Hidf in Hidf'. injection Hidf' as <-.
    eexists _, _. split; [done|]. split; [done|].
    apply Rmult_le_compat_l; [done|].
    apply saturation_monotone.
    + done.
    + apply Rmult_le_pos; [done|].
      assert (0 <= b r * INR doc_len / avgdl r); [|lra].
      apply Rmult_le_pos; [apply Rmult_le_pos; [lra|apply pos_INR]|].
      left. by apply Rinv_0_lt_compat.
    + apply lt_0_INR. lia.
    + by apply le_INR.
Qed.

(** C7 (as the code has it). On the ranker that [BM25Ranker()] builds,
    after [fit] on any corpus, [rank] succeeds for every query and limit.
    It returns the first [top_k] of the documents with a positive score,
    sorted by score from high to low: every returned pair holds a document
    of the index and its score, which is positive; the scores do not
    increase along the result; for a limit that is not negative at most
    [top_k] pairs are returned; and pairs with one and the same score stand
    in the order in which the index holds their documents. *)
Theorem rank_positive_sorted_ties_in_index_order
    (_tokenize : string → list string) (documents : dict DocInfo)
    (query : string) (top_k : Z) :
  ∃ r hits result,
    fit _tokenize (__init__ BM25_K1 BM25_B) documents = Some r
    ∧ rank_collect _tokenize r query = Some hits
    ∧ rank _tokenize r query top_k = Some result
    ∧ hits.*1 `sublist_of` dict_keys (doc_terms r)
    ∧ result = py_slice_to (py_sort (λ x : string * R, - x.2) false hits) top_k
    ∧ Forall (λ x, x.2 > 0 ∧ score _tokenize r query x.1 = Some x.2) result
    ∧ StronglySorted (λ x y : string * R, x.2 >= y.2) result
    ∧ ((0 <= top_k)%Z → (length result <= Z.to_nat top_k)%nat)
    ∧ (∀ v : R,
         filter (λ x, x.2 = v) result `prefix_of` filter (λ x, x.2 = v) hits).
Proof.
  destruct (fit_default _tokenize documents) as (r & Hfit & Hr & Hk & Hb).
  destruct (rank_collect_spec _tokenize r query Hr Hk Hb) as (hits & Hhits & Hall & Hsub).
  exists r, hits, (py_slice_to (py_sort (λ x : string * R, - x.2) false hits) top_k).
  split; [done|]. split; [done|].
  split; [unfold rank; by rewrite Hhits|]. split; [done|]. split; [done|].
  destruct (py_slice_to_take (py_sort (λ x : string * R, - x.2) false hits) top_k)
    as [n Hn].
  split; [|split; [|split]].
  - rewrite Hn. apply Forall_take. by rewrite py_sort_perm.
  - rewrite Hn. apply StronglySorted_take.
    eapply StronglySorted_weaken;
      [|apply (py_sort_sorted (λ x : string * R, - x.2) false)].
    intros x y. unfold sort_le, sort_before. lra.
  - apply length_py_slice_to.
  - intros v. rewrite Hn.
    rewrite (filter_iff (λ x : string * R, x.2 = v) (λ x, - x.2 = - v)
               (take n _)) by (intros x; lra).
    rewrite (filter_iff (λ x : string * R, x.2 = v) (λ x, - x.2 = - v) hits)
      by (intros x; lra).
    rewrite <- (py_sort_stable (λ x : string * R, - x.2) false (- v) hits).
    apply filter_take_prefix.
Qed.

(** *** A concrete run *)

(** Two documents with the same text, indexed as b, then a. *)
Definition docs_b_a : dict DocInfo :=
  [ ("b", mkDocInfo (Some "foo") None None None);
    ("a", mkDocInfo (Some "foo") None None None) ].

Definition index_b_a (k1 b avgdl : R) : BM25Ranker :=
  mkBM25Ranker k1 b {["foo" := 2%nat]} {["b" := 1%nat; "a" := 1%nat]} avgdl 2
    [("b", {["foo" := 1%nat]}); ("a", {["foo" := 1%nat]})]
    {["b" := mkDocMetadata "b" "" []; "a" := mkDocMetadata "a" "" []]}.

Lemma fit_loop_b_a (k1 b avgdl : R) :
  foldl (fit_doc blank_tokenize) (mkBM25Ranker k1 b ∅ ∅ avgdl 2 [] ∅, 0%nat) docs_b_a
  = (index_b_a k1 b avgdl, 2%nat).
Proof. vm_compute. reflexivity. Qed.

Lemma fit_b_a (k1 b : R) :
  fit blank_tokenize (__init__ k1 b) docs_b_a = Some (index_b_a k1 b (INR 2 / INR 2)).
Proof.
  unfold fit, __init__.
  cbn [BM25.k1 BM25.b doc_freqs doc_lens BM25.avgdl doc_terms doc_metadata].
  change (length docs_b_a) with 2%nat. rewrite fit_loop_b_a.
  cbn [fst snd N index_b_a]. rewrite decide_True by lia.
  rewrite py_div_Some by (apply not_0_INR; lia). reflexivity.
Qed.

(** In this index the term bar occurs in no document, and document b has
    one token: the premises of the facts about absent terms and about
    indexed document lengths are met. *)
Lemma index_b_a_absent_term_and_indexed_length (k1 b avgdl : R) :
  default 0%nat (doc_freqs (index_b_a k1 b avgdl) !! "bar") = 0%nat
  ∧ doc_lens (index_b_a k1 b avgdl) !! "b" = Some 1%nat.
Proof. split; reflexivity. Qed.

Lemma score_b_a (k1 b avgdl : R) (doc_id : string) :
  doc_id = "b" ∨ doc_id = "a" →
  score blank_tokenize (index_b_a k1 b avgdl) "foo" doc_id
  = (added ← term_score (index_b_a k1 b avgdl) "foo" 1 1; Some (0 + added)).
Proof. intros [-> | ->]; reflexivity. Qed.

(** Both documents get one and the same positive score for the query foo. *)
Lemma scores_b_a_equal :
  ∃ r s, fit blank_tokenize (__init__ BM25_K1 BM25_B) docs_b_a = Some r
    ∧ dict_keys (doc_terms r) = ["b"; "a"]
    ∧ s > 0
    ∧ score blank_tokenize r "foo" "b" = Some s
    ∧ score blank_tokenize r "foo" "a" = Some s.
Proof.
  destruct (fit_default blank_tokenize docs_b_a) as (r & Hfit & Hr & Hk & Hb).
  rewrite fit_b_a in Hfit. injection Hfit as <-.
  set (r := index_b_a BM25_K1 BM25_B (INR 2 / INR 2)) in *.
  assert (Havg : 0 < avgdl r).
  { apply (fitted_avgdl r Hr "b" 1%nat); [reflexivity|lia]. }
  destruct (term_score_spec r "foo" 1 1 Hr Hk Hb Havg) as (idf & Hidf & _ & Hden & Hts);
    [lia|].
  destruct (_idf_spec r "foo" Hr) as (idf' & Hidf' & _ & _ & Hpos).
  rewrite Hidf in Hidf'. injection Hidf' as <-.
  assert (0 < idf) by (apply Hpos; by vm_compute).
  eexists r, _. split; [apply fit_b_a|]. split; [reflexivity|].
  split; [|split; unfold r; rewrite score_b_a by auto; fold r; by rewrite Hts].
  assert (0 < INR 1 * (k1 r + 1)).
  { change (k1 r) with BM25_K1. unfold BM25_K1. cbn [INR]. lra. }
  assert (0 < INR 1 * (k1 r + 1)
              / (INR 1 + k1 r * (1 - b r + b r * INR 1 / avgdl r)))
    by (by apply Rdiv_lt_0_compat).
  assert (0 < idf * (INR 1 * (k1 r + 1)
              / (INR 1 + k1 r * (1 - b r + b r * INR 1 / avgdl r))))
    by (by apply Rmult_lt_0_compat).
  lra.
Qed.

(** C7, counterexample. Documents b and a, indexed in this order, have the
    same positive score for the query foo; [rank] returns b before a,
    although a is the smaller id. With the limit -1 it returns one pair,
    which is more than the limit. *)
Lemma rank_ties_follow_index_order :
  ∃ r s,
    fit blank_tokenize (__init__ BM25_K1 BM25_B) docs_b_a = Some r
    ∧ rank blank_tokenize r "foo" 10 = Some [("b", s); ("a", s)]
    ∧ String.ltb "a" "b" = true
    ∧ rank blank_tokenize r "foo" (-1) = Some [("b", s)]
    ∧ ¬ (Z.of_nat (length [("b", s)]) <= -1)%Z.
Proof.
  destruct scores_b_a_equal as (r & s & Hfit & Hkeys & Hs & Hb & Ha).
  exists r, s. split; [done|].
  assert (Hhits : rank_collect blank_tokenize r "foo" = Some [("b", s); ("a", s)]).
  { unfold rank_collect. rewrite Hkeys. cbn [foldl mbind option_bind].
    rewrite Hb. cbn [mbind option_bind]. rewrite decide_True by done.
    cbn [mbind option_bind app]. rewrite Ha. cbn [mbind option_bind].
    by rewrite decide_True by done. }
  assert (Hsort : py_sort (λ x : string * R, - x.2) false [("b", s); ("a", s)]
                  = [("b", s); ("a", s)]).
  { cbn [py_sort foldr sort_insert]. rewrite decide_False; [done|].
    unfold sort_before. cbn [snd]. lra. }
  unfold rank. rewrite Hhits. cbn [mbind option_bind]. rewrite Hsort.
  split; [reflexivity|]. split; [reflexivity|]. split; [reflexivity|].
  cbn [length]. lia.
Qed.

End BM25Facts.

(** * Further properties of the code *)

(** ** Judge agent: consensus rate, top-k, weight normalisation *)

Module JudgeMore.
Import Judge JudgeFacts.

Lemma judge_rate_spec self cands st bm pt ts bt :
  ∃ js, Forall2 (judged self st bm pt ts) cands js
    ∧ judge self cands st bm pt ts bt
      = Some (mkJudgmentResult
                (assign_ranks (py_sort final_score true js)) bt (weights self)
                (match cands with
                 | [] => 0
                 | _ => INR (length (filter (λ j, consensus j = true) js))
                        / INR (length cands)
                 end)).
Proof.
  destruct (judge_loop_spec self st bm pt ts cands [] 0%nat) as (js & Hjs & Heq).
  exists js. split; [done|].
  unfold judge. rewrite Heq. cbn [mbind option_bind fst snd app Nat.add].
  destruct cands as [|c cands]; [done|].
  rewrite py_div_Some; [done|].
  pose proof (INR_length_pos c cands). lra.
Qed.

Lemma consensus_count_ranked (js : list CandidateJudgment) :
  length (filter (λ j, consensus j = true)
            (assign_ranks (py_sort final_score true js)))
  = length (filter (λ j, consensus j = true) js).
Proof.
  rewrite assign_ranks_zip.
  rewrite <- (length_fmap class_name (filter _ (zip_with _ _ _))).
  rewrite zip_set_rank_filter; [|done|by rewrite length_seq].
  rewrite length_fmap. apply Permutation_length.
  by rewrite py_sort_perm.
Qed.

(** X1. The consensus rate of a judgment result is the number of returned
    judgments with the consensus flag divided by the number of candidates;
    it lies between 0 and 1, and it is 0 for the empty candidate list. *)
Theorem consensus_rate_is_fraction_of_consensus_judgments (self : JudgeAgent)
    (cands : list string) (st bm pt ts : gmap string R) (bt : string) :
  ∃ res, judge self cands st bm pt ts bt = Some res
    ∧ consensus_rate res * INR (length cands)
      = INR (length (filter (λ j, consensus j = true) (candidates res)))
    ∧ 0 <= consensus_rate res <= 1
    ∧ (cands = [] → consensus_rate res = 0).
Proof.
  destruct (judge_rate_spec self cands st bm pt ts bt) as (js & Hjs & ->).
  eexists. split; [done|]. cbn [consensus_rate candidates].
  rewrite consensus_count_ranked.
  set (n := length (filter (λ j, consensus j = true) js)).
  assert (Hn : (n <= length cands)%nat).
  { unfold n. rewrite (Forall2_length _ _ _ Hjs). apply length_filter. }
  destruct cands as [|c cands].
  - cbn [length] in *. assert (n = 0%nat) as -> by lia. cbn [INR].
    split; [lra|]. split; [lra|done].
  - pose proof (INR_length_pos c cands) as Hpos.
    apply le_INR in Hn. pose proof (pos_INR n).
    split; [field; lra|]. split; [|done]. split.
    + apply Rmult_le_pos; [done|]. left. by apply Rinv_0_lt_compat.
    + apply (Rmult_le_reg_r (INR (length (c :: cands)))); [done|].
      unfold Rdiv. rewrite Rmult_assoc, Rinv_l by lra. lra.
Qed.

Lemma zip_set_rank_sorted (l : list CandidateJudgment) (rs : list nat) :
  StronglySorted (λ a b, final_score a >= final_score b) l →
  StronglySorted (λ a b, final_score a >= final_score b) (zip_with set_rank l rs).
Proof.
  intros Hl. revert rs. induction Hl as [|j l Hl IH Hj]; intros [|r rs];
    cbn [zip_with]; try constructor; [apply IH|].
  apply zip_set_rank_Forall; [by intros j' r'|done].
Qed.

Lemma ranked_sorted (js : list CandidateJudgment) :
  StronglySorted (λ a b, final_score a >= final_score b)
    (assign_ranks (py_sort final_score true js)).
Proof.
  rewrite assign_ranks_zip. apply zip_set_rank_sorted.
  eapply BM25Facts.StronglySorted_weaken; [|apply (py_sort_sorted final_score true)].
  intros x y. unfold sort_le, sort_before. lra.
Qed.

Lemma ranked_ranks (js : list CandidateJudgment) :
  rank <$> assign_ranks (py_sort final_score true js) = seq 1 (length js).
Proof.
  rewrite assign_ranks_zip, zip_set_rank_rank by (by rewrite length_seq).
  by rewrite py_sort_length.
Qed.

(** X2. [get_top_k] applied to a judgment result returns a leading part of
    the ranked list: no judgment left out has a higher final score than one
    returned, and for a limit [k >= 0] the returned judgments carry exactly
    the ranks 1, ..., min(k, N). *)
Theorem get_top_k_returns_the_best_ranked (self : JudgeAgent)
    (cands : list string) (st bm pt ts : gmap string R) (bt : string) (k : Z) :
  ∃ res rest, judge self cands st bm pt ts bt = Some res
    ∧ candidates res = get_top_k res k ++ rest
    ∧ (∀ j j', j ∈ get_top_k res k → j' ∈ rest → final_score j >= final_score j')
    ∧ ((0 <= k)%Z →
       rank <$> get_top_k res k = seq 1 (Z.to_nat k `min` length cands)).
Proof.
  destruct (judge_spec self cands st bm pt ts bt) as (js & rate & Hjs & ->).
  set (ranked := assign_ranks (py_sort final_score true js)).
  unfold get_top_k. cbn [candidates]. fold ranked.
  destruct (BM25Facts.py_slice_to_take ranked k) as [n Hn].
  eexists _, (drop n ranked). split; [done|]. cbn [candidates]. fold ranked.
  rewrite Hn. split; [by rewrite take_drop|]. split.
  - intros j j' Hj Hj'.
    apply (StronglySorted_app_1_elem_of
             (λ a b, final_score a >= final_score b)
             (take n ranked) (drop n ranked)); [|done|done].
    rewrite take_drop. apply ranked_sorted.
  - intros Hk. rewrite <- Hn. unfold py_slice_to. rewrite decide_True by done.
    rewrite fmap_take. unfold ranked. rewrite ranked_ranks, take_seq.
    by rewrite (Forall2_length _ _ _ Hjs).
Qed.

End JudgeMore.

(** ** Bug type classifier: the winning type, confidence, profiles *)

Module ClassifierMore.
Import Classifier ClassifierFacts.

(** [max(d, key=d.get)] is the first item with the greatest value. *)
Lemma max_fold_first_greatest (pre rest : dict nat) (best : string * nat) (i : nat) :
  pre !! i = Some best →
  (∀ j x, pre !! j = Some x → (x.2 <= best.2)%nat ∧ (j < i → x.2 < best.2)%nat) →
  ∃ i', (pre ++ rest) !! i'
        = Some (foldl (λ best kv : string * nat,
                         if decide (best.2 < kv.2)%nat then kv else best) best rest)
    ∧ ∀ j x, (pre ++ rest) !! j = Some x →
        (x.2 <= (foldl (λ best kv : string * nat,
                          if decide (best.2 < kv.2)%nat then kv else best)
                       best rest).2)%nat
        ∧ (j < i' →
           x.2 < (foldl (λ best kv : string * nat,
                           if decide (best.2 < kv.2)%nat then kv else best)
                        best rest).2)%nat.
Proof.
  revert pre best i. induction rest as [|kv rest IH]; intros pre best i Hi Hmax.
  - cbn [foldl]. rewrite app_nil_r. eauto.
  - cbn [foldl]. replace (pre ++ kv :: rest) with ((pre ++ [kv]) ++ rest)
      by (by rewrite <- app_assoc).
    pose proof (lookup_lt_Some _ _ _ Hi) as Hlt.
    destruct (decide (best.2 < kv.2)%nat) as [Hless|Hge].
    + apply (IH (pre ++ [kv]) kv (length pre)).
      * rewrite lookup_app_r by lia. by rewrite Nat.sub_diag.
      * intros j x Hx. destruct (decide (j < length pre)%nat) as [Hj|Hj].
        -- rewrite lookup_app_l in Hx by done. destruct (Hmax j x Hx). lia.
        -- rewrite lookup_app_r in Hx by lia.
           destruct (j - length pre)%nat as [|m] eqn:Hm; [|done].
           cbn in Hx. injection Hx as <-. lia.
    + apply (IH (pre ++ [kv]) best i).
      * by rewrite lookup_app_l.
      * intros j x Hx. destruct (decide (j < length pre)%nat) as [Hj|Hj].
        -- rewrite lookup_app_l in Hx by done. by apply Hmax.
        -- rewrite lookup_app_r in Hx by lia.
           destruct (j - length pre)%nat as [|m] eqn:Hm; [|done].
           cbn in Hx. injection Hx as <-. lia.
Qed.

Lemma py_max_key_first_greatest (d : dict nat) :
  d ≠ [] →
  ∃ k n i, py_max_key d = Some k ∧ d !! i = Some (k, n)
    ∧ ∀ j k' n', d !! j = Some (k', n') → (n' <= n)%nat ∧ (j < i → n' < n)%nat.
Proof.
  destruct d as [|first rest]; [done|]. intros _.
  destruct (max_fold_first_greatest [first] rest first 0) as (i & Hi & Hmax).
  { done. }
  { intros [|j] x Hx; [|done]. cbn in Hx. injection Hx as <-. lia. }
  cbn [app] in Hi, Hmax. unfold py_max_key.
  destruct (foldl _ first rest) as [k n] eqn:Hbest.
  exists k, n, i. split; [done|]. split; [done|].
  intros j k' n' Hj. apply (Hmax j (k', n') Hj).
Qed.

Lemma dict_get_lookup {V : Type} (d : dict V) (i : nat) (k : string) (v : V) :
  NoDup (dict_keys d) → d !! i = Some (k, v) → dict_get d k = Some v.
Proof.
  unfold dict_keys. revert i. induction d as [|[k0 v0] d IH]; intros i Hnd Hi; [done|].
  rewrite fmap_cons in Hnd. apply NoDup_cons in Hnd as [Hk0 Hnd].
  cbn [dict_get]. destruct i as [|i]; cbn in Hi.
  - injection Hi as -> ->. by rewrite decide_True.
  - rewrite decide_False; [by eapply IH|].
    intros ->. apply Hk0. apply list_elem_of_fmap. exists (k, v). split; [done|].
    by eapply list_elem_of_lookup_2.
Qed.

Lemma pattern_types_distinct : NoDup (dict_keys BUG_PATTERNS).
Proof.
  apply (bool_decide_unpack _). by vm_compute.
Qed.

Lemma generic_has_no_patterns : "GENERIC" ∉ dict_keys BUG_PATTERNS.
Proof.
  apply (bool_decide_unpack _). by vm_compute.
Qed.

Lemma sum_list_bounds (l : list nat) (n : nat) :
  n ∈ l → (∀ m, m ∈ l → m <= n)%nat →
  (n <= sum_list l)%nat ∧ (sum_list l <= length l * n)%nat.
Proof.
  intros Hin Hmax. split.
  - induction l as [|m l IH]; [by apply elem_of_nil in Hin|].
    simpl. apply elem_of_cons in Hin as [->|Hin]; [lia|].
    assert (n <= sum_list l)%nat; [|lia].
    apply IH; [done|]. intros m' Hm'. apply Hmax. by apply list_elem_of_further.
  - clear Hin. induction l as [|m l IH]; [done|].
    simpl. pose proof (Hmax m (list_elem_of_here _ _)).
    assert (sum_list l <= length l * n)%nat; [|lia].
    apply IH. intros m' Hm'. apply Hmax. by apply list_elem_of_further.
Qed.

Lemma forallb_zero_false (l : list nat) :
  forallb (λ n, Nat.eqb n 0) l = false ↔ ∃ n, n ∈ l ∧ (0 < n)%nat.
Proof.
  induction l as [|m l IH]; cbn [forallb].
  - split; [done|]. intros (n & Hn & _). by apply elem_of_nil in Hn.
  - destruct m as [|m]; cbn [Nat.eqb andb].
    + rewrite IH. split; intros (n & Hn & Hpos).
      * exists n. split; [by apply list_elem_of_further|done].
      * apply elem_of_cons in Hn as [->|Hn]; [lia|eauto].
    + split; [|done]. intros _. exists (S m). split; [apply list_elem_of_here|lia].
Qed.

(** The winner of a classification that found a match. *)
Lemma classify_winner findall report :
  forallb (λ n, Nat.eqb n 0) (dict_values (type_scores findall report)) = false →
  ∃ best n i w found,
    type_scores findall report !! i = Some (best, n)
    ∧ (∀ j k' n', type_scores findall report !! j = Some (k', n') →
         (n' <= n)%nat ∧ (j < i → n' < n)%nat)
    ∧ (0 < n)%nat
    ∧ (n <= sum_list (dict_values (type_scores findall report)))%nat
    ∧ (sum_list (dict_values (type_scores findall report)) <= 7 * n)%nat
    ∧ best ∈ dict_keys BUG_PATTERNS
    ∧ dict_get WEIGHT_PROFILES best = Some w
    ∧ dict_get (type_indicators findall report) best = Some found
    ∧ classify findall report
      = Some (mkBugClassification best
                (Rmin (INR n / INR (sum_list (dict_values (type_scores findall report)))) 1)
                w found).
Proof.
  intros Hany. set (scores := type_scores findall report) in *.
  destruct (py_max_key_first_greatest scores) as (best & n & i & Hmax & Hi & Hgreat);
    [done|].
  assert (Hkeys : NoDup (dict_keys scores)).
  { unfold scores. rewrite type_scores_keys. apply pattern_types_distinct. }
  pose proof (dict_get_lookup scores i best n Hkeys Hi) as Hget.
  assert (Hin : best ∈ dict_keys BUG_PATTERNS).
  { rewrite <- (type_scores_keys findall report). fold scores.
    by eapply BM25Facts.dict_get_Some_key. }
  assert (Hn_in : n ∈ dict_values scores).
  { unfold dict_values. apply list_elem_of_fmap. exists (best, n).
    split; [done|]. by eapply list_elem_of_lookup_2. }
  assert (Hn_max : ∀ m, m ∈ dict_values scores → (m <= n)%nat).
  { intros m Hm. unfold dict_values in Hm.
    apply list_elem_of_fmap in Hm as ([k' n'] & -> & Hm).
    apply list_elem_of_lookup in Hm as [j Hj]. by destruct (Hgreat j k' n' Hj). }
  destruct (sum_list_bounds _ _ Hn_in Hn_max) as [Hle Hge].
  assert (Hlen : length (dict_values scores) = 7%nat) by done.
  rewrite Hlen in Hge.
  assert (Hpos : (0 < n)%nat).
  { apply forallb_zero_false in Hany as (m & Hm & Hmpos).
    specialize (Hn_max m Hm). lia. }
  destruct (pattern_types_have_profiles _ Hin) as [w Hw].
  assert (Hin' : best ∈ dict_keys (type_indicators findall report))
    by (by rewrite type_indicators_keys).
  destruct (dict_get_is_Some _ _ Hin') as [found Hfound].
  exists best, n, i, w, found. repeat (split; [done|]).
  unfold classify. fold scores. rewrite Hany, Hmax. cbn [mbind option_bind].
  rewrite Hget. cbn [mbind option_bind]. rewrite decide_True by lia.
  rewrite py_div_Some by (apply not_0_INR; lia). cbn [mbind option_bind].
  rewrite Hw. cbn [mbind option_bind]. rewrite Hfound. done.
Qed.

Lemma forallb_zero_true (l : list nat) :
  forallb (λ n, Nat.eqb n 0) l = true ↔ Forall (λ n, n = 0%nat) l.
Proof.
  induction l as [|m l IH]; cbn [forallb].
  - split; [constructor|done].
  - rewrite andb_true_iff, IH, Nat.eqb_eq, Forall_cons. done.
Qed.

Lemma classify_no_match findall report :
  forallb (λ n, Nat.eqb n 0) (dict_values (type_scores findall report)) = true →
  classify findall report
  = Some (mkBugClassification "GENERIC" 0.5 (profile 0.35 0.30 0.20 0.15) []).
Proof. intros H. unfold classify. by rewrite H. Qed.

(** X5. Every classification has a confidence between 1/7 and 1. The type
    is GENERIC exactly when no pattern of any type matched, and then the
    confidence is 0.5. *)
Theorem classification_confidence_bounds_and_generic_case
    (findall : string → string → list string) (bug_report : string) :
  ∃ cl, classify findall bug_report = Some cl
    ∧ / 7 <= confidence cl <= 1
    ∧ (bug_type cl = "GENERIC"
       ↔ Forall (λ n, n = 0%nat) (dict_values (type_scores findall bug_report)))
    ∧ (bug_type cl = "GENERIC" → confidence cl = 0.5).
Proof.
  destruct (forallb (λ n, Nat.eqb n 0)
              (dict_values (type_scores findall bug_report))) eqn:Hany.
  - rewrite (classify_no_match _ _ Hany). eexists. split; [done|].
    cbn [confidence bug_type]. split; [lra|].
    split; [|done]. split; [intros _; by apply forallb_zero_true|done].
  - destruct (classify_winner _ _ Hany)
      as (best & n & i & w & found & Hi & Hgreat & Hpos & Hle & Hge & Hin & _ & _ & ->).
    eexists. split; [done|]. cbn [confidence bug_type].
    set (total := sum_list (dict_values (type_scores findall bug_report))) in *.
    assert (Htotal : 0 < INR total) by (apply lt_0_INR; lia).
    apply le_INR in Hle, Hge. rewrite mult_INR in Hge.
    assert (Hratio : / 7 <= INR n / INR total <= 1).
    { split.
      - apply (Rmult_le_reg_r (INR total)); [done|].
        unfold Rdiv. rewrite Rmult_assoc, Rinv_l by lra.
        replace (INR 7) with 7 in Hge by (cbn [INR]; lra). lra.
      - apply (Rmult_le_reg_r (INR total)); [done|].
        unfold Rdiv. rewrite Rmult_assoc, Rinv_l by lra. lra. }
    rewrite Rmin_left by lra. split; [done|].
    assert (Hne : best ≠ "GENERIC").
    { intros ->. by apply generic_has_no_patterns. }
    split; [|done]. split; [done|].
    intros Hall. apply forallb_zero_true in Hall. congruence.
Qed.

(** X6. When some pattern matched, the type returned is the one with the
    greatest match count, the first such type in the order of the pattern
    table; the confidence is its count divided by the count of all
    matches. *)
Theorem classification_picks_first_type_with_most_matches
    (findall : string → string → list string) (bug_report : string) :
  ∃ cl, classify findall bug_report = Some cl
    ∧ (Forall (λ n, n = 0%nat) (dict_values (type_scores findall bug_report))
       ∨ ∃ i n,
           type_scores findall bug_report !! i = Some (bug_type cl, n)
           ∧ (0 < n)%nat
           ∧ (∀ j k' n', type_scores findall bug_report !! j = Some (k', n') →
                (n' <= n)%nat ∧ (j < i → n' < n)%nat)
           ∧ confidence cl
             = INR n / INR (sum_list (dict_values (type_scores findall bug_report)))).
Proof.
  destruct (forallb (λ n, Nat.eqb n 0)
              (dict_values (type_scores findall bug_report))) eqn:Hany.
  - rewrite (classify_no_match _ _ Hany). eexists. split; [done|].
    left. by apply forallb_zero_true.
  - destruct (classify_winner _ _ Hany)
      as (best & n & i & w & found & Hi & Hgreat & Hpos & Hle & Hge & Hin & _ & _ & ->).
    eexists. split; [done|]. right. exists i, n. cbn [confidence bug_type].
    split; [done|]. split; [done|]. split; [done|].
    apply Rmin_left.
    assert (0 < INR (sum_list (dict_values (type_scores findall bug_report))))
      by (apply lt_0_INR; lia).
    apply le_INR in Hle.
    apply (Rmult_le_reg_r
             (INR (sum_list (dict_values (type_scores findall bug_report)))));
      [done|].
    unfold Rdiv. rewrite Rmult_assoc, Rinv_l by lra. lra.
Qed.

(** *** Profiles and blends *)

Lemma profile_sum (a b c d : R) : py_sum (dict_values (profile a b c d)) = a + b + c + d.
Proof.
  unfold profile, dict_values. cbn [fmap list_fmap snd].
  rewrite !py_sum_cons, py_sum_nil. lra.
Qed.

Lemma profile_nonneg (a b c d : R) :
  0 <= a → 0 <= b → 0 <= c → 0 <= d →
  Forall (λ v, 0 <= v) (dict_values (profile a b c d)).
Proof.
  intros. unfold profile, dict_values. cbn [fmap list_fmap snd].
  repeat (apply Forall_cons; split; [done|]). apply Forall_nil_2.
Qed.

Lemma profile_blend_normal (a b c d : R) :
  a + b + c + d = 1 → 0 <= a → 0 <= b → 0 <= c → 0 <= d →
  py_sum (dict_values (profile a b c d)) = 1
  ∧ Forall (λ v, 0 <= v) (dict_values (profile a b c d))
  ∧ dict_keys (profile a b c d) = signals
  ∧ ∀ conf, ∃ adjusted,
      adjust_weights (profile a b c d) conf = Some adjusted
      ∧ dict_keys adjusted = signals
      ∧ py_sum (dict_values adjusted) = 1
      ∧ (0 <= conf <= 1 → Forall (λ v, 0 <= v) (dict_values adjusted)).
Proof.
  intros Hsum Ha Hb Hc Hd. split; [by rewrite profile_sum|].
  split; [by apply profile_nonneg|]. split; [done|]. intros conf.
  destruct (decide (conf >= 0.8)) as [Hhigh|Hlow].
  - rewrite adjust_weights_high by done. eexists. split; [done|].
    split; [done|]. split; [by rewrite profile_sum|].
    intros _. by apply profile_nonneg.
  - rewrite adjust_weights_low_profile by lra. eexists. split; [done|].
    split; [done|]. split.
    + rewrite profile_sum.
      replace (conf * a + (1 - conf) * 0.35 + (conf * b + (1 - conf) * 0.30)
               + (conf * c + (1 - conf) * 0.20) + (conf * d + (1 - conf) * 0.15))
        with (conf * (a + b + c + d) + (1 - conf)) by lra.
      rewrite Hsum. lra.
    + intros Hconf. apply profile_nonneg;
        (apply Rplus_le_le_0_compat; apply Rmult_le_pos; lra).
Qed.

(** X7. Every weight profile of the table has the four signals, no
    negative weight and total 1; what [adjust_weights] returns for it, at
    any confidence, again has the four signals and total 1, and no negative
    weight when the confidence lies in [0,1]. *)
Theorem profiles_and_their_blends_are_normalised :
  Forall (λ entry : string * dict R,
            py_sum (dict_values entry.2) = 1
            ∧ Forall (λ v, 0 <= v) (dict_values entry.2)
            ∧ dict_keys entry.2 = signals
            ∧ ∀ conf, ∃ adjusted,
                adjust_weights entry.2 conf = Some adjusted
                ∧ dict_keys adjusted = signals
                ∧ py_sum (dict_values adjusted) = 1
                ∧ (0 <= conf <= 1 → Forall (λ v, 0 <= v) (dict_values adjusted)))
         WEIGHT_PROFILES.
Proof.
  unfold WEIGHT_PROFILES.
  repeat (apply Forall_cons; split; [cbn [snd]; apply profile_blend_normal; lra|]).
  apply Forall_nil_2.
Qed.

Lemma table_profile_normal (category : string) (w : dict R) :
  dict_get WEIGHT_PROFILES category = Some w →
  ∃ a b c d, w = profile a b c d ∧ a + b + c + d = 1
    ∧ 0 <= a ∧ 0 <= b ∧ 0 <= c ∧ 0 <= d.
Proof.
  unfold WEIGHT_PROFILES. cbn [dict_get]. intros H.
  repeat case_decide; simplify_eq; eexists _, _, _, _; (split; [done|]);
    repeat split; lra.
Qed.

Lemma classify_weights_normal findall report :
  ∃ cl a b c d, classify findall report = Some cl
    ∧ weights cl = profile a b c d ∧ a + b + c + d = 1
    ∧ 0 <= a ∧ 0 <= b ∧ 0 <= c ∧ 0 <= d.
Proof.
  destruct (classify_spec findall report) as (cl & Hcl & Hw).
  apply table_profile_normal in Hw as (a & b & c & d & Hw & H).
  exists cl, a, b, c, d. done.
Qed.

Lemma set_weights_normal_profile (self : Judge.JudgeAgent) (a b c d : R) :
  a + b + c + d = 1 →
  ∃ judge, Judge.set_weights self (profile a b c d) = Some judge
    ∧ dict_keys (Judge.weights judge) = signals
    ∧ Judge.weight_of judge "stack_trace" = a
    ∧ Judge.weight_of judge "bm25" = b
    ∧ Judge.weight_of judge "pattern" = c
    ∧ Judge.weight_of judge "test" = d
    ∧ ∀ s, s ∉ signals → Judge.weight_of judge s = 0.
Proof.
  intros Hsum. unfold Judge.set_weights.
  rewrite JudgeFacts._normalize_weights_positive
    by (cbn [Judge.weights]; rewrite profile_sum; lra).
  cbn [Judge.weights]. rewrite profile_sum, Hsum. eexists. split; [done|].
  unfold Judge.weight_of, profile. cbn [Judge.weights fmap list_fmap fst snd dict_get].
  split; [done|].
  repeat split; repeat case_decide; try done; cbn [default];
    unfold Datatypes.id; try lra.
  intros s Hs. repeat case_decide; try done; subst; exfalso; apply Hs;
    unfold signals; repeat (apply list_elem_of_here || apply list_elem_of_further).
Qed.

Lemma dict_get_fmap_value {V W : Type} (f : string * V → W) (d : dict V) (k : string) :
  dict_get ((λ kv, (kv.1, f kv)) <$> d) k = (λ v, f (k, v)) <$> dict_get d k.
Proof.
  induction d as [|[k0 v0] d IH]; [done|].
  rewrite fmap_cons. cbn [dict_get fst]. case_decide; [by subst|done].
Qed.

(** X8. The weights that a classification returns can always be installed
    in the judge: their total is positive, and the judge stores, under the
    same signal names, each classified weight divided by that total. No
    stored weight is negative, and the stored weights add up to 1. *)
Theorem judge_normalises_classified_weights
    (findall : string → string → list string) (bug_report : string)
    (self : Judge.JudgeAgent) :
  ∃ cl judge,
    classify findall bug_report = Some cl
    ∧ Judge.set_weights self (weights cl) = Some judge
    ∧ py_sum (dict_values (weights cl)) > 0
    ∧ dict_keys (Judge.weights judge) = dict_keys (weights cl)
    ∧ (∀ s, Judge.weight_of judge s
            = default 0 (dict_get (weights cl) s)
              / py_sum (dict_values (weights cl)))
    ∧ (∀ s, 0 <= Judge.weight_of judge s)
    ∧ py_sum (dict_values (Judge.weights judge)) = 1.
Proof.
  destruct (classify_weights_normal findall bug_report)
    as (cl & a & b & c & d & Hcl & Hw & Hsum & Ha & Hb & Hc & Hd).
  assert (Htotal : py_sum (dict_values (weights cl)) = 1)
    by (by rewrite Hw, profile_sum).
  exists cl, (Judge.mkJudgeAgent
                ((λ kv, (kv.1, kv.2 / py_sum (dict_values (weights cl))))
                   <$> weights cl)).
  split; [done|]. split.
  { unfold Judge.set_weights.
    rewrite JudgeFacts._normalize_weights_positive; [done|].
    cbn [Judge.weights]. rewrite Htotal. lra. }
  cbn [Judge.weights]. split; [rewrite Htotal; lra|]. split.
  { unfold dict_keys. by rewrite <- list_fmap_compose. }
  assert (Hget : ∀ s,
    Judge.weight_of
      (Judge.mkJudgeAgent
         ((λ kv, (kv.1, kv.2 / py_sum (dict_values (weights cl))))
            <$> weights cl)) s
    = default 0 (dict_get (weights cl) s) / py_sum (dict_values (weights cl))).
  { intros s. unfold Judge.weight_of. cbn [Judge.weights].
    rewrite (dict_get_fmap_value
               (λ kv : string * R, kv.2 / py_sum (dict_values (weights cl)))).
    destruct (dict_get (weights cl) s) as [v|];
      cbn [fmap option_fmap option_map default snd].
    - done.
    - unfold Datatypes.id. rewrite Htotal. lra. }
  split; [done|]. split.
  - intros s. rewrite Hget, Htotal, Rdiv_1_r.
    apply (JudgeFacts.weight_of_nonneg (Judge.mkJudgeAgent (weights cl)) s).
    cbn [Judge.weights]. rewrite Hw. by apply profile_nonneg.
  - rewrite JudgeFacts.normalize_values, py_sum_scale.
    rewrite Htotal. lra.
Qed.

(** X9. [get_weights] never fails: a type of the table gets its own
    profile, any other type the GENERIC profile; the profile returned has
    the four signals and total 1. *)
Theorem get_weights_falls_back_to_generic (bug_type : string) :
  ∃ w, get_weights bug_type = Some w
    ∧ dict_keys w = signals
    ∧ py_sum (dict_values w) = 1
    ∧ (bug_type ∈ dict_keys WEIGHT_PROFILES → dict_get WEIGHT_PROFILES bug_type = Some w)
    ∧ (bug_type ∉ dict_keys WEIGHT_PROFILES → w = profile 0.35 0.30 0.20 0.15).
Proof.
  unfold get_weights.
  destruct (dict_get WEIGHT_PROFILES bug_type) as [w|] eqn:Hw.
  - exists w. split; [done|].
    destruct (table_profile_normal _ _ Hw) as (a & b & c & d & -> & Hsum & _).
    split; [done|]. split; [by rewrite profile_sum|]. split; [done|].
    intros Hout. exfalso. apply Hout. by eapply BM25Facts.dict_get_Some_key.
  - rewrite generic_profile. eexists. split; [done|]. split; [done|].
    split; [rewrite profile_sum; lra|]. split; [|done].
    intros Hin. apply dict_get_is_Some in Hin as [? Hin]. congruence.
Qed.

(** *** Indicators *)

Lemma score_type_indicators findall report (patterns : list string) :
  (length (score_type findall report patterns).2 <= 3 * length patterns)%nat
  ∧ (length (score_type findall report patterns).2
     <= (score_type findall report patterns).1)%nat.
Proof.
  unfold score_type.
  assert (Hgen : ∀ acc : nat * list string,
    let out := foldl (λ acc pattern,
                        let matches := findall pattern report in
                        match matches with
                        | [] => acc
                        | _ => ((acc.1 + length matches)%nat, acc.2 ++ take 3 matches)
                        end) acc patterns in
    (length out.2 <= length acc.2 + 3 * length patterns)%nat
    ∧ (length out.2 + acc.1 <= length acc.2 + out.1)%nat).
  { induction patterns as [|p patterns IH]; intros acc; cbn [foldl length]; [lia|].
    destruct (findall p report) as [|m ms] eqn:Hm.
    - destruct (IH acc) as [H1 H2]. cbn zeta in *. lia.
    - destruct (IH ((acc.1 + length (m :: ms))%nat, acc.2 ++ take 3 (m :: ms)))
        as [H1 H2].
      cbn zeta in *. cbn [fst snd] in *.
      rewrite length_app, length_take in H1, H2. lia. }
  specialize (Hgen (0%nat, [])). cbn zeta in Hgen. cbn [fst snd length] in Hgen. lia.
Qed.

(** X10. A classification reports at most three indicators for each
    pattern of the winning type, and never more indicators than the type
    has matches; a GENERIC classification reports none. *)
Theorem classification_indicators_are_bounded
    (findall : string → string → list string) (bug_report : string) :
  ∃ cl, classify findall bug_report = Some cl
    ∧ (length (indicators cl)
       <= 3 * length (default [] (dict_get BUG_PATTERNS (bug_type cl))))%nat
    ∧ (length (indicators cl)
       <= default 0%nat (dict_get (type_scores findall bug_report) (bug_type cl)))%nat
    ∧ (bug_type cl = "GENERIC" → indicators cl = []).
Proof.
  destruct (forallb (λ n, Nat.eqb n 0)
              (dict_values (type_scores findall bug_report))) eqn:Hany.
  - rewrite (classify_no_match _ _ Hany). eexists. split; [done|].
    cbn [indicators length]. split; [lia|]. split; [lia|done].
  - destruct (classify_winner _ _ Hany)
      as (best & n & i & w & found & _ & _ & _ & _ & _ & Hin & _ & Hfound & ->).
    eexists. split; [done|]. cbn [indicators bug_type].
    unfold type_indicators, type_scores in *.
    rewrite dict_get_fmap_value in Hfound. rewrite dict_get_fmap_value.
    destruct (dict_get BUG_PATTERNS best) as [patterns|] eqn:Hp; [|done].
    cbn [fmap option_fmap option_map default] in *. injection Hfound as <-.
    unfold Datatypes.id. cbn [snd].
    destruct (score_type_indicators findall bug_report patterns).
    split; [done|]. split; [done|].
    intros ->. exfalso. by apply generic_has_no_patterns.
Qed.

End ClassifierMore.

(** ** BM25 ranker: what the index records, and how scores add up *)

Module BM25More.
Import BM25 BM25Facts.

Lemma Counter_fold_count (c0 : gmap string nat) (terms : list string) (t : string) :
  default 0%nat
    (foldl (λ c term, <[term := S (default 0%nat (c !! term))]> c) c0 terms !! t)
  = (default 0%nat (c0 !! t) + length (filter (λ x, x = t) terms))%nat.
Proof.
  revert c0. induction terms as [|x terms IH]; intros c0; cbn [foldl].
  - rewrite filter_nil. cbn [length]. lia.
  - rewrite IH, filter_cons. destruct (decide (x = t)) as [->|Hne].
    + rewrite lookup_insert_eq. cbn [default length]. unfold Datatypes.id. lia.
    + by rewrite lookup_insert_ne.
Qed.

(** [Counter(terms)] records for every term the number of its
    occurrences in the list, and holds no entry for a term that does not
    occur. *)
Theorem counter_counts_occurrences (terms : list string) (t : string) :
  default 0%nat (Counter terms !! t) = length (filter (λ x, x = t) terms)
  ∧ (Counter terms !! t = None ↔ t ∉ terms)
  ∧ (∀ n, Counter terms !! t = Some n → (1 <= n)%nat).
Proof.
  assert (Hcount : default 0%nat (Counter terms !! t)
                   = length (filter (λ x, x = t) terms)).
  { unfold Counter. rewrite Counter_fold_count, lookup_empty. done. }
  split; [done|]. split; [|apply Counter_positive].
  split.
  - intros Hnone Hin. rewrite Hnone in Hcount. cbn [default] in Hcount.
    assert (t ∈ filter (λ x, x = t) terms) as Hf by (by apply list_elem_of_filter).
    destruct (filter (λ x, x = t) terms); [by apply elem_of_nil in Hf|done].
  - intros Hout. destruct (Counter terms !! t) as [n|] eqn:Hn; [|done].
    exfalso. apply Hout. by eapply Counter_member.
Qed.

Section Index.
Context (_tokenize : string → list string).

(** The tokens of a document as [fit] reads them. *)
Definition tokens_of (doc_info : DocInfo) : list string :=
  _tokenize (default EmptyString (text doc_info)).

Lemma fit_loop_counts (st : BM25Ranker * nat) (documents : dict DocInfo) :
  let st' := foldl (fit_doc _tokenize) st documents in
  (∀ t, default 0%nat (doc_freqs st'.1 !! t)
        = (default 0%nat (doc_freqs st.1 !! t)
           + length (filter (λ item : string * DocInfo, t ∈ tokens_of item.2)
                       documents))%nat)
  ∧ st'.2 = (st.2 + sum_list ((λ item, length (tokens_of item.2)) <$> documents))%nat.
Proof.
  revert st. induction documents as [|item documents IH]; intros st; cbn zeta.
  - cbn [foldl]. split; [intros t; rewrite filter_nil; cbn [length]; lia|].
    rewrite fmap_nil. simpl. lia.
  - cbn [foldl]. destruct (IH (fit_doc _tokenize st item)) as [Hdf Htotal].
    cbn zeta in Hdf, Htotal. split.
    + intros t. rewrite Hdf. unfold fit_doc. cbn [fst doc_freqs].
      rewrite count_doc_freqs_value, filter_cons. fold (tokens_of item.2).
      destruct (decide (t ∈ tokens_of item.2)); cbn [length]; lia.
    + rewrite Htotal. unfold fit_doc. cbn [snd]. fold (tokens_of item.2).
      rewrite fmap_cons. simpl. lia.
Qed.

(** X11. After [fit] on a new ranker, [N] is the number of documents, the
    document frequency of every term is the number of documents whose
    tokens contain it, and the average length times [N] is the number of
    all tokens; for an empty corpus the average length is 0. *)
Theorem fit_records_corpus_statistics (k1' b' : R) (documents : dict DocInfo) :
  ∃ r, fit _tokenize (__init__ k1' b') documents = Some r
    ∧ N r = length documents
    ∧ (∀ t, default 0%nat (doc_freqs r !! t)
            = length (filter (λ item : string * DocInfo, t ∈ tokens_of item.2)
                        documents))
    ∧ avgdl r * INR (length documents)
      = INR (sum_list ((λ item, length (tokens_of item.2)) <$> documents))
    ∧ (documents = [] → avgdl r = 0).
Proof.
  unfold fit, __init__. cbn [k1 b doc_freqs doc_lens avgdl doc_terms doc_metadata].
  set (st0 := (mkBM25Ranker k1' b' ∅ ∅ 0 (length documents) [] ∅, 0%nat)).
  destruct (fit_loop_counts st0 documents) as [Hdf Htotal].
  destruct (fit_loop_params _tokenize st0 documents) as (_ & _ & HN).
  cbn zeta in *. set (st := foldl (fit_doc _tokenize) st0 documents) in *.
  unfold st0 in Hdf, Htotal, HN. cbn [fst snd doc_freqs N Nat.add] in Hdf, Htotal, HN.
  rewrite HN, Htotal.
  destruct documents as [|item documents].
  - cbn [length]. rewrite decide_False by lia. cbn [mbind option_bind].
    eexists. split; [done|]. cbn [N doc_freqs avgdl]. split; [done|].
    split; [intros t; by rewrite Hdf, lookup_empty|].
    split; [|done]. rewrite fmap_nil. simpl. lra.
  - rewrite decide_True by (cbn [length]; lia).
    pose proof (INR_length_pos item documents) as Hpos.
    rewrite py_div_Some by lra. cbn [mbind option_bind].
    eexists. split; [done|]. cbn [N doc_freqs avgdl]. split; [done|].
    split; [intros t; by rewrite Hdf, lookup_empty|].
    split; [field; lra|done].
Qed.

Lemma dict_keys_set_new {V : Type} (d : dict V) (k : string) (v : V) :
  k ∉ dict_keys d → dict_keys (dict_set d k v) = dict_keys d ++ [k].
Proof.
  unfold dict_keys. induction d as [|[k0 v0] d IH]; intros Hk; [done|].
  rewrite fmap_cons in Hk. cbn [dict_set fst] in *.
  apply not_elem_of_cons in Hk as [Hne Hk].
  rewrite decide_False by done. rewrite !fmap_cons. cbn [fst app].
  by rewrite IH.
Qed.

Lemma fit_loop_documents (st : BM25Ranker * nat) (documents : dict DocInfo) :
  NoDup (dict_keys documents) →
  (∀ id, id ∈ dict_keys documents → id ∉ dict_keys (doc_terms st.1)) →
  let st' := foldl (fit_doc _tokenize) st documents in
  dict_keys (doc_terms st'.1) = dict_keys (doc_terms st.1) ++ dict_keys documents
  ∧ (∀ id info, (id, info) ∈ documents →
       doc_lens st'.1 !! id = Some (length (tokens_of info))
       ∧ dict_get (doc_terms st'.1) id = Some (Counter (tokens_of info)))
  ∧ (∀ id, id ∉ dict_keys documents →
       doc_lens st'.1 !! id = doc_lens st.1 !! id
       ∧ dict_get (doc_terms st'.1) id = dict_get (doc_terms st.1) id).
Proof.
  revert st. induction documents as [|[doc_id info] documents IH];
    intros st Hnd Hfresh; cbn zeta.
  - cbn [foldl]. change (dict_keys (V:=DocInfo) []) with (@nil string).
    rewrite app_nil_r.
    split; [done|]. split; [|done]. intros id i Hin. by apply elem_of_nil in Hin.
  - cbn [foldl]. unfold dict_keys in Hnd, Hfresh. rewrite fmap_cons in Hnd, Hfresh.
    cbn [fst] in Hnd, Hfresh. apply NoDup_cons in Hnd as [Hid Hnd].
    set (st1 := fit_doc _tokenize st (doc_id, info)).
    assert (Hkeys1 : dict_keys (doc_terms st1.1)
                     = dict_keys (doc_terms st.1) ++ [doc_id]).
    { unfold st1, fit_doc. cbn [fst snd doc_terms]. apply dict_keys_set_new.
      apply Hfresh. apply list_elem_of_here. }
    destruct (IH st1 Hnd) as (Hkeys & Hin & Hout).
    { intros id Hid'. rewrite Hkeys1. intros [Hold|Hnew]%elem_of_app.
      - by apply (Hfresh id); [apply list_elem_of_further|].
      - apply list_elem_of_singleton in Hnew as ->. done. }
    cbn zeta in Hkeys, Hin, Hout. split; [|split].
    + rewrite Hkeys, Hkeys1, <- app_assoc. unfold dict_keys at 4.
      by rewrite fmap_cons.
    + intros id i [Heq|Hlater]%elem_of_cons.
      * injection Heq as -> ->. destruct (Hout doc_id Hid) as [-> ->].
        unfold st1, fit_doc. cbn [fst snd doc_lens doc_terms].
        fold (tokens_of info). rewrite lookup_insert_eq, dict_get_set.
        by rewrite decide_True.
      * by apply Hin.
    + intros id Hid'. unfold dict_keys in Hid'. rewrite fmap_cons in Hid'.
      apply not_elem_of_cons in Hid' as [Hne Hid'].
      destruct (Hout id Hid') as [-> ->].
      unfold st1, fit_doc. cbn [fst snd doc_lens doc_terms].
      rewrite lookup_insert_ne by done. rewrite dict_get_set.
      by rewrite decide_False.
Qed.

Lemma fit_indexed (k1' b' : R) (documents : dict DocInfo) :
  NoDup (dict_keys documents) →
  ∃ r, fit _tokenize (__init__ k1' b') documents = Some r
    ∧ fitted r ∧ k1 r = k1' ∧ b r = b'
    ∧ dict_keys (doc_terms r) = dict_keys documents
    ∧ (∀ id info, (id, info) ∈ documents →
         doc_lens r !! id = Some (length (tokens_of info))
         ∧ dict_get (doc_terms r) id = Some (Counter (tokens_of info)))
    ∧ (∀ id, id ∉ dict_keys documents →
         doc_lens r !! id = None ∧ dict_get (doc_terms r) id = None).
Proof.
  intros Hnd.
  destruct (fit_new_ranker _tokenize k1' b' documents)
    as (r & Hfit & Hr & Hk & Hb & _).
  exists r. split; [done|]. split; [done|]. split; [done|]. split; [done|].
  clear Hr Hk Hb. unfold fit, __init__ in Hfit.
  cbn [k1 b doc_freqs doc_lens avgdl doc_terms doc_metadata] in Hfit.
  set (st0 := (mkBM25Ranker k1' b' ∅ ∅ 0 (length documents) [] ∅, 0%nat)) in *.
  destruct (fit_loop_documents st0 documents Hnd) as (Hkeys & Hin & Hout).
  { intros id _. unfold st0. cbn [fst doc_terms]. apply not_elem_of_nil. }
  cbn zeta in *. set (st := foldl (fit_doc _tokenize) st0 documents) in *.
  destruct (if decide (0 < N st.1)%nat
            then py_div (INR st.2) (INR (N st.1)) else Some 0) as [a|]; [|done].
  cbn [mbind option_bind] in Hfit. injection Hfit as <-.
  cbn [doc_terms doc_lens]. split; [exact Hkeys|]. split; [exact Hin|].
  intros id Hid. destruct (Hout id Hid) as [-> ->]. unfold st0.
  cbn [fst doc_lens doc_terms dict_get]. by rewrite lookup_empty.
Qed.

(** X12. After [fit] on a new ranker and a document map, the index lists
    the documents in the order of the map, and holds for each document the
    number of its tokens and the counter of its tokens; an id outside the
    map has no entry. *)
Theorem fit_records_every_document (k1' b' : R) (documents : dict DocInfo) :
  NoDup (dict_keys documents) →
  ∃ r, fit _tokenize (__init__ k1' b') documents = Some r
    ∧ dict_keys (doc_terms r) = dict_keys documents
    ∧ (∀ id info, (id, info) ∈ documents →
         doc_lens r !! id = Some (length (tokens_of info))
         ∧ dict_get (doc_terms r) id = Some (Counter (tokens_of info)))
    ∧ (∀ id, id ∉ dict_keys documents →
         doc_lens r !! id = None ∧ dict_get (doc_terms r) id = None).
Proof.
  intros Hnd.
  destruct (fit_indexed k1' b' documents Hnd) as (r & Hfit & _ & _ & _ & H).
  by exists r.
Qed.

End Index.

Lemma fit_records_every_document_witness :
  ∃ r, fit blank_tokenize (__init__ BM25_K1 BM25_B) docs_b_a = Some r
    ∧ dict_keys (doc_terms r) = dict_keys docs_b_a
    ∧ (∀ id info, (id, info) ∈ docs_b_a →
         doc_lens r !! id = Some (length (tokens_of blank_tokenize info))
         ∧ dict_get (doc_terms r) id = Some (Counter (tokens_of blank_tokenize info)))
    ∧ (∀ id, id ∉ dict_keys docs_b_a →
         doc_lens r !! id = None ∧ dict_get (doc_terms r) id = None).
Proof.
  apply (fit_records_every_document blank_tokenize BM25_K1 BM25_B docs_b_a).
  apply (bool_decide_unpack _). by vm_compute.
Defined.

(** *** Which documents a query reaches *)

Lemma term_score_positive (r : BM25Ranker) (t : string) (tf doc_len : nat) :
  fitted r → 0 <= k1 r → 0 <= b r <= 1 → 0 < avgdl r → (1 <= tf)%nat →
  default 0%nat (doc_freqs r !! t) ≠ 0%nat →
  ∃ a, term_score r t tf doc_len = Some a ∧ 0 < a.
Proof.
  intros Hr Hk Hb Havg Htf Hdf.
  destruct (term_score_spec r t tf doc_len Hr Hk Hb Havg Htf)
    as (idf & Hidf & _ & Hden & ->).
  destruct (_idf_spec r t Hr) as (idf' & Hidf' & _ & _ & Hpos).
  rewrite Hidf in Hidf'. injection Hidf' as <-. specialize (Hpos Hdf).
  eexists. split; [done|]. apply Rmult_lt_0_compat; [done|].
  apply Rdiv_lt_0_compat; [|done]. apply Rmult_lt_0_compat; [|lra].
  apply lt_0_INR. lia.
Qed.

Lemma score_loop_shared (r : BM25Ranker) (c : gmap string nat) (doc_len : nat)
    (terms : list string) (acc : R) :
  fitted r → 0 <= k1 r → 0 <= b r <= 1 → 0 < avgdl r →
  (∀ t tf, c !! t = Some tf →
     (1 <= tf)%nat ∧ default 0%nat (doc_freqs r !! t) ≠ 0%nat) →
  ∃ s, foldl (λ score term, score ← score; score_step r c doc_len score term)
             (Some acc) terms = Some s
    ∧ acc <= s
    ∧ (acc < s ↔ ∃ t, t ∈ terms ∧ is_Some (c !! t)).
Proof.
  intros Hr Hk Hb Havg Hc. revert acc.
  induction terms as [|t terms IH]; intros acc; cbn [foldl].
  - exists acc. split; [done|]. split; [lra|]. split; [lra|].
    intros (t & Ht & _). by apply elem_of_nil in Ht.
  - cbn [mbind option_bind]. unfold score_step at 2.
    destruct (c !! t) as [tf|] eqn:Htf.
    + destruct (Hc _ _ Htf) as [Hone Hdf].
      destruct (term_score_positive r t tf doc_len Hr Hk Hb Havg Hone Hdf)
        as (a & -> & Ha).
      cbn [mbind option_bind]. destruct (IH (acc + a)) as (s & -> & Hs & _).
      exists s. split; [done|]. split; [lra|]. split; [|lra].
      intros _. exists t. split; [apply list_elem_of_here|by rewrite Htf].
    + destruct (IH acc) as (s & -> & Hs & Hiff). exists s.
      split; [done|]. split; [done|]. rewrite Hiff. split.
      * intros (t' & Ht' & Hsome). exists t'. split; [|done].
        by apply list_elem_of_further.
      * intros (t' & [->|Ht']%elem_of_cons & Hsome).
        -- rewrite Htf in Hsome. by destruct Hsome.
        -- by exists t'.
Qed.


Section Search.
Context (_tokenize : string → list string).

Lemma score_indexed_document (r : BM25Ranker) (query id : string)
    (tokens : list string) :
  fitted r → 0 <= k1 r → 0 <= b r <= 1 →
  doc_lens r !! id = Some (length tokens) →
  dict_get (doc_terms r) id = Some (Counter tokens) →
  ∃ s, score _tokenize r query id = Some s
    ∧ 0 <= s
    ∧ (0 < s ↔ ∃ t, t ∈ _tokenize query ∧ t ∈ tokens).
Proof.
  intros Hr Hk Hb Hlen Hterms. unfold score, score_terms.
  rewrite Hlen, Hterms. cbn [default]. unfold Datatypes.id.
  destruct (decide (length tokens = 0%nat)) as [Hz|Hnz].
  - exists 0. split; [done|]. split; [lra|]. split; [lra|].
    intros (t & _ & Ht). apply length_zero_iff_nil in Hz. subst tokens.
    by apply elem_of_nil in Ht.
  - assert (Havg : 0 < avgdl r).
    { eapply fitted_avgdl; [done|exact Hlen|lia]. }
    destruct (score_loop_shared r (Counter tokens) (length tokens)
                (_tokenize query) 0 Hr Hk Hb Havg) as (s & -> & Hs & Hiff).
    { intros t tf Htf.
      destruct (fitted_terms r Hr _ _ _ _ Hterms Htf) as [H1 H2].
      split; [done|lia]. }
    exists s. split; [done|]. split; [done|]. rewrite Hiff.
    split; intros (t & Hq & Ht); exists t; (split; [done|]).
    + destruct (counter_counts_occurrences tokens t) as (_ & Hnone & _).
      destruct (decide (t ∈ tokens)) as [|Hnot]; [done|].
      apply Hnone in Hnot. rewrite Hnot in Ht. by destruct Ht.
    + destruct (Counter tokens !! t) eqn:Hc; [done|].
      destruct (counter_counts_occurrences tokens t) as (_ & Hnone & _).
      by apply Hnone in Hc.
Qed.

(** X13. With [k1 >= 0] and [0 <= b <= 1], after [fit] on a document dict
    the score of an indexed document for a query is a number that is not
    negative, and it is positive exactly when the query and the document
    have a token in common. *)
Theorem score_positive_iff_shared_token (k1' b' : R) (documents : dict DocInfo) :
  0 <= k1' → 0 <= b' <= 1 → NoDup (dict_keys documents) →
  ∃ r, fit _tokenize (__init__ k1' b') documents = Some r
    ∧ ∀ query id info, (id, info) ∈ documents →
        ∃ s, score _tokenize r query id = Some s
          ∧ 0 <= s
          ∧ (0 < s ↔ ∃ t, t ∈ _tokenize query ∧ t ∈ tokens_of _tokenize info).
Proof.
  intros Hk Hb Hnd.
  destruct (fit_indexed _tokenize k1' b' documents Hnd)
    as (r & Hfit & Hr & Hk1 & Hb1 & _ & Hin & _).
  exists r. split; [done|]. intros query id info Hid.
  destruct (Hin id info Hid) as [Hlen Hterms].
  apply score_indexed_document; try done; by rewrite ?Hk1, ?Hb1.
Qed.




End Search.

Lemma score_positive_iff_shared_token_witness :
  ∃ r, fit blank_tokenize (__init__ BM25_K1 BM25_B) docs_b_a = Some r
    ∧ ∀ query id info, (id, info) ∈ docs_b_a →
        ∃ s, score blank_tokenize r query id = Some s
          ∧ 0 <= s
          ∧ (0 < s ↔ ∃ t, t ∈ blank_tokenize query
                          ∧ t ∈ tokens_of blank_tokenize info).
Proof.
  apply (score_positive_iff_shared_token blank_tokenize BM25_K1 BM25_B docs_b_a).
  - unfold BM25_K1. lra.
  - unfold BM25_B. lra.
  - apply (bool_decide_unpack _). by vm_compute.
Defined.



End BM25More.

(** ** The evaluation metrics *)

Module EvaluatorMore.
Import TopKEvaluator.

Lemma existsb_take_le {A : Type} (f : A → bool) (l : list A) (n n' : nat) :
  (n <= n')%nat → existsb f (take n l) = true → existsb f (take n' l) = true.
Proof.
  intros Hn. rewrite !existsb_exists. intros (x & Hx & Hf). exists x.
  split; [|done]. apply list_elem_of_In. apply list_elem_of_In in Hx.
  apply elem_of_take in Hx as (i & Hi & Hlt). apply elem_of_take.
  exists i. split; [done|lia].
Qed.

Lemma foldl_fixed {A B : Type} (f : A → B → A) (l : list B) (a : A) :
  (∀ x a, x ∈ l → f a x = a) → foldl f a l = a.
Proof.
  induction l as [|x l IH]; intros Hf; [done|]. cbn [foldl].
  rewrite Hf by apply list_elem_of_here. apply IH.
  intros y a' Hy. apply Hf. by apply list_elem_of_further.
Qed.

Lemma INR_succ (n : nat) : INR (n + 1) = INR n + 1.
Proof. rewrite plus_INR. cbn [INR]. done. Qed.

Section Metrics.
Context (path_name : string → string).

Lemma matches_nonempty (actual : gset string) (p : string) :
  matches path_name actual p = true → (0 < size actual)%nat.
Proof.
  unfold matches. intros H.
  assert (∃ x, x ∈ actual) as [x Hx].
  { apply orb_true_iff in H as [H|H]; apply bool_decide_eq_true in H; eauto. }
  destruct (size actual) eqn:Hsize; [|lia].
  apply size_empty_inv in Hsize. apply Hsize in Hx. by apply not_elem_of_empty in Hx.
Qed.

(** *** One result *)

Lemma top_1_hit (actual : gset string) (locations : list Location) :
  existsb (matches path_name actual) (predicted_paths (py_slice_to locations 1))
    = true →
  ∃ p rest, predicted_paths locations = p :: rest
            ∧ matches path_name actual p = true.
Proof.
  unfold py_slice_to. rewrite decide_True by lia.
  change (Z.to_nat 1) with 1%nat. destruct locations as [|l locations]; [done|].
  cbn [take predicted_paths fmap list_fmap existsb]. rewrite orb_false_r.
  intros H. eauto.
Qed.

Lemma reciprocal_rank_spec (actual : gset string) (preds : list string)
    (n : nat) :
  (1 <= n)%nat →
  ∃ q, (∀ acc, reciprocal_rank path_name actual (enumerate_from n preds) acc
               = Some (acc + q))
    ∧ 0 <= q <= 1
    ∧ (0 < q ↔ existsb (matches path_name actual) preds = true)
    ∧ (∀ p rest, preds = p :: rest → n = 1%nat →
         matches path_name actual p = true → q = 1).
Proof.
  revert n. induction preds as [|p preds IH]; intros n Hn;
    cbn [enumerate_from reciprocal_rank existsb].
  - exists 0. split; [intros acc; f_equal; lra|]. split; [lra|]. split; [|done].
    split; [lra|done].
  - destruct (matches path_name actual p) eqn:Hp.
    + assert (HR : 1 <= INR n) by (apply le_INR in Hn; cbn [INR] in Hn; lra).
      rewrite py_div_Some by lra. cbn [mbind option_bind].
      exists (1 / INR n).
      assert (0 < 1 / INR n <= 1).
      { split; [apply Rdiv_lt_0_compat; lra|].
        apply (Rmult_le_reg_r (INR n)); [lra|].
        replace (1 / INR n * INR n) with 1 by (field; lra). lra. }
      split; [done|]. split; [lra|]. split; [split; [done|lra]|].
      intros p' rest _ -> _. cbn [INR]. lra.
    + destruct (IH (S n)) as (q & Hq & Hrange & Hiff & _); [lia|].
      exists q. split; [done|]. split; [done|]. split; [done|].
      intros p' rest [= <- <-] _ Hp'. congruence.
Qed.

Lemma precision_loop_spec (actual : gset string) (preds : list string)
    (n hits : nat) (precision_sum : R) :
  (1 <= n)%nat →
  ∃ hits' precision_sum',
    foldl (λ st item, st ← st; precision_step path_name actual st item)
          (Some (hits, precision_sum)) (enumerate_from n preds)
    = Some (hits', precision_sum')
    ∧ precision_sum <= precision_sum'
    ∧ (precision_sum < precision_sum'
       ↔ existsb (matches path_name actual) preds = true).
Proof.
  revert n hits precision_sum.
  induction preds as [|p preds IH]; intros n hits ps Hn;
    cbn [enumerate_from foldl existsb].
  - exists hits, ps. split; [done|]. split; [lra|]. split; [lra|done].
  - cbn [mbind option_bind]. unfold precision_step at 2. cbn [fst snd].
    destruct (matches path_name actual p) eqn:Hp.
    + assert (HR : 1 <= INR n) by (apply le_INR in Hn; cbn [INR] in Hn; lra).
      rewrite py_div_Some by lra. cbn [mbind option_bind].
      assert (0 < INR (hits + 1) / INR n).
      { apply Rdiv_lt_0_compat; [|lra]. apply lt_0_INR. lia. }
      destruct (IH (S n) (hits + 1)%nat (ps + INR (hits + 1) / INR n))
        as (h' & ps' & -> & Hle & _); [lia|].
      exists h', ps'. split; [done|]. split; [lra|]. split; [done|lra].
    + destruct (IH (S n) hits ps) as (h' & ps' & -> & Hle & Hiff); [lia|].
      exists h', ps'. done.
Qed.

(** What one result with ground truth adds to the three sums. *)
Lemma result_contributions (files : list string) (locations : list Location) :
  let actual : gset string := list_to_set files in
  let predicted := predicted_paths locations in
  ∃ q d,
    (∀ rr_sum, reciprocal_rank path_name actual (enumerate_from 1 predicted) rr_sum
               = Some (rr_sum + q))
    ∧ (∀ ap_sum (total : nat),
         (inner ← foldl (λ st item, st ← st; precision_step path_name actual st item)
                        (Some (0%nat, 0)) (enumerate_from 1 predicted);
          if decide (0 < size actual)%nat
          then q ← py_div inner.2 (INR (size actual)); Some (ap_sum + q, total)
          else Some (ap_sum, total))
         = Some (ap_sum + d, total))
    ∧ 0 <= q <= 1 ∧ 0 <= d
    ∧ (0 < q ↔ 0 < d)
    ∧ (existsb (matches path_name actual)
               (predicted_paths (py_slice_to locations 1)) = true → q = 1).
Proof.
  intros actual predicted.
  destruct (reciprocal_rank_spec actual predicted 1) as (q & Hrr & Hq & Hqiff & Hq1);
    [lia|].
  destruct (precision_loop_spec actual predicted 1 0 0) as (h & ps & Hloop & Hps & Hpsiff);
    [lia|].
  assert (Hhit : existsb (matches path_name actual) predicted = true →
                 (0 < size actual)%nat).
  { intros (p & _ & Hp)%existsb_exists. by eapply matches_nonempty. }
  assert (Htop : existsb (matches path_name actual)
                   (predicted_paths (py_slice_to locations 1)) = true → q = 1).
  { intros (p & rest & Heq & Hp)%top_1_hit. by eapply Hq1. }
  destruct (decide (0 < size actual)%nat) as [Hsize|Hsize].
  - assert (HR : 0 < INR (size actual)) by (apply lt_0_INR; lia).
    exists q, (ps / INR (size actual)). split; [done|]. split.
    { intros ap_sum total. rewrite Hloop. cbn [mbind option_bind snd].
      rewrite py_div_Some by lra. done. }
    split; [done|]. split.
    { apply Rmult_le_pos; [done|]. left. by apply Rinv_0_lt_compat. }
    split; [|done]. rewrite Hqiff, <- Hpsiff. split.
    + intros Hpos. by apply Rdiv_lt_0_compat.
    + intros Hpos. destruct Hps as [Hlt|<-]; [done|].
      unfold Rdiv in Hpos. rewrite Rmult_0_l in Hpos. lra.
  - exists q, 0. split; [done|]. split.
    { intros ap_sum total. rewrite Hloop. cbn [mbind option_bind snd].
      f_equal. f_equal. lra. }
    split; [done|]. split; [lra|]. split; [|done]. split; [|lra].
    intros Hpos. apply Hqiff in Hpos. apply Hhit in Hpos. lia.
Qed.

(** *** The loops over the results *)

Lemma top_k_step_le (ground_truth : gmap string (list string)) (k k' : Z)
    (result : Result) (hits hits' total : nat) :
  (0 <= k <= k')%Z → (hits <= hits' <= total)%nat →
  ∃ g g' u,
    top_k_accuracy_step path_name ground_truth k (hits, total) result = (g, u)
    ∧ top_k_accuracy_step path_name ground_truth k' (hits', total) result = (g', u)
    ∧ (g <= g' <= u)%nat.
Proof.
  intros Hk Hh. unfold top_k_accuracy_step. cbn [fst snd].
  destruct (ground_truth !! default EmptyString (bug_id result)) as [files|];
    [|by eexists _, _, _].
  set (actual := list_to_set files : gset string).
  set (locations := default [] (top_locations result)).
  destruct (existsb (matches path_name actual)
              (predicted_paths (py_slice_to locations k))) eqn:Hhit.
  - assert (existsb (matches path_name actual)
              (predicted_paths (py_slice_to locations k')) = true) as ->.
    { revert Hhit. unfold py_slice_to, predicted_paths.
      rewrite !decide_True by lia. rewrite !fmap_take.
      apply existsb_take_le. lia. }
    eexists _, _, _. split; [done|]. split; [done|]. lia.
  - destruct (existsb (matches path_name actual)
                (predicted_paths (py_slice_to locations k')));
      (eexists _, _, _; split; [done|]; split; [done|]; lia).
Qed.

Lemma top_k_loop_le (ground_truth : gmap string (list string)) (k k' : Z)
    (results : list Result) (hits hits' total : nat) :
  (0 <= k <= k')%Z → (hits <= hits' <= total)%nat →
  ∃ g g' u,
    foldl (top_k_accuracy_step path_name ground_truth k) (hits, total) results
    = (g, u)
    ∧ foldl (top_k_accuracy_step path_name ground_truth k') (hits', total) results
      = (g', u)
    ∧ (g <= g' <= u)%nat.
Proof.
  intros Hk. revert hits hits' total.
  induction results as [|result results IH]; intros hits hits' total Hh;
    cbn [foldl].
  - by eexists _, _, _.
  - destruct (top_k_step_le ground_truth k k' result hits hits' total Hk Hh)
      as (g & g' & u & -> & -> & Hg).
    by apply IH.
Qed.

Lemma top_k_accuracy_value (ground_truth : gmap string (list string)) (k : Z)
    (results : list Result) (hits total : nat) :
  foldl (top_k_accuracy_step path_name ground_truth k) (0%nat, 0%nat) results
  = (hits, total) →
  top_k_accuracy path_name results ground_truth k
  = Some (if decide (0 < total)%nat then INR hits / INR total * 100 else 0).
Proof.
  intros Hloop. unfold top_k_accuracy. rewrite Hloop. cbn [fst snd].
  destruct (decide (0 < total)%nat) as [Hpos|]; [|done].
  rewrite py_div_Some; [done|]. apply not_0_INR. lia.
Qed.

Lemma top_k_accuracy_le (results : list Result)
    (ground_truth : gmap string (list string)) (k k' : Z) :
  (0 <= k <= k')%Z →
  ∃ a a', top_k_accuracy path_name results ground_truth k = Some a
    ∧ top_k_accuracy path_name results ground_truth k' = Some a'
    ∧ 0 <= a ∧ a <= a' ∧ a' <= 100.
Proof.
  intros Hk.
  destruct (top_k_loop_le ground_truth k k' results 0 0 0 Hk)
    as (g & g' & u & Hloop & Hloop' & Hle); [lia|].
  rewrite (top_k_accuracy_value _ _ _ _ _ Hloop).
  rewrite (top_k_accuracy_value _ _ _ _ _ Hloop').
  eexists _, _. split; [done|]. split; [done|].
  destruct (decide (0 < u)%nat) as [Hpos|]; [|lra].
  assert (HT : 0 < INR u) by (apply lt_0_INR; lia).
  assert (H0 : 0 <= INR g) by apply pos_INR.
  assert (H1 : INR g <= INR g') by (apply le_INR; lia).
  assert (H2 : INR g' <= INR u) by (apply le_INR; lia).
  assert (Hinv : 0 < / INR u) by (by apply Rinv_0_lt_compat).
  unfold Rdiv. split; [|split].
  - apply Rmult_le_pos; [|lra]. apply Rmult_le_pos; lra.
  - apply Rmult_le_compat_r; [lra|]. apply Rmult_le_compat_r; lra.
  - replace 100 with (INR u * / INR u * 100) at 2 by (field; lra).
    apply Rmult_le_compat_r; [lra|]. apply Rmult_le_compat_r; lra.
Qed.

Lemma metrics_loops (ground_truth : gmap string (list string))
    (results : list Result) (hits total : nat) (rr_sum ap_sum : R) :
  INR hits <= rr_sum <= INR total → 0 <= ap_sum → (0 < rr_sum ↔ 0 < ap_sum) →
  ∃ hits' total' rr_sum' ap_sum',
    foldl (top_k_accuracy_step path_name ground_truth 1) (hits, total) results
    = (hits', total')
    ∧ foldl (λ st result, st ← st; mrr_step path_name ground_truth st result)
            (Some (rr_sum, total)) results = Some (rr_sum', total')
    ∧ foldl (λ st result,
               st ← st; average_precision_step path_name ground_truth st result)
            (Some (ap_sum, total)) results = Some (ap_sum', total')
    ∧ INR hits' <= rr_sum' <= INR total'
    ∧ 0 <= ap_sum'
    ∧ (0 < rr_sum' ↔ 0 < ap_sum')
    ∧ (total <= total')%nat.
Proof.
  revert hits total rr_sum ap_sum.
  induction results as [|result results IH];
    intros hits total rr_sum ap_sum Hrr Hap Hiff; cbn [foldl].
  - exists hits, total, rr_sum, ap_sum. by do 6 (split; [done|]).
  - cbn [mbind option_bind].
    unfold top_k_accuracy_step at 2, mrr_step at 2, average_precision_step at 2.
    cbn [fst snd].
    destruct (ground_truth !! default EmptyString (bug_id result)) as [files|];
      [|by apply IH].
    destruct (result_contributions files (default [] (top_locations result)))
      as (q & d & Hq & Hd & Hqr & Hdr & Hqd & Htop).
    rewrite Hq, Hd. cbn [mbind option_bind].
    assert (Hpos : 0 <= rr_sum) by (pose proof (pos_INR hits); lra).
    assert (Hiff' : 0 < rr_sum + q ↔ 0 < ap_sum + d).
    { split; intros Hsum.
      - destruct (Rlt_dec 0 q) as [Hq'|Hq']; [apply Hqd in Hq'; lra|].
        assert (0 < rr_sum) as Hr%Hiff by lra. lra.
      - destruct (Rlt_dec 0 d) as [Hd'|Hd']; [apply Hqd in Hd'; lra|].
        assert (0 < ap_sum) as Hr%Hiff by lra. lra. }
    destruct (existsb _ _) eqn:Hhit.
    + rewrite (Htop eq_refl) in *.
      destruct (IH (hits + 1)%nat (total + 1)%nat (rr_sum + 1) (ap_sum + d))
        as (h' & t' & rr' & ap' & H1 & H2 & H3 & H4 & H5 & H6 & H7);
        [rewrite !INR_succ; lra|lra|done|].
      exists h', t', rr', ap'. do 6 (split; [done|]). lia.
    + destruct (IH hits (total + 1)%nat (rr_sum + q) (ap_sum + d))
        as (h' & t' & rr' & ap' & H1 & H2 & H3 & H4 & H5 & H6 & H7);
        [rewrite INR_succ; lra|lra|done|].
      exists h', t', rr', ap'. do 6 (split; [done|]). lia.
Qed.

(** X16. For limits [0 <= k <= k'] the top-[k] accuracy is returned for
    both, lies between 0 and 100, and does not decrease from [k] to [k']. *)
Theorem top_k_accuracy_grows_with_k (results : list Result)
    (ground_truth : gmap string (list string)) (k k' : Z) :
  (0 <= k)%Z → (k <= k')%Z →
  ∃ a a', top_k_accuracy path_name results ground_truth k = Some a
    ∧ top_k_accuracy path_name results ground_truth k' = Some a'
    ∧ 0 <= a ∧ a <= a' ∧ a' <= 100.
Proof. intros H1 H2. by apply top_k_accuracy_le. Qed.

(** X17. [evaluate_all] returns its five metrics for every list of results
    and every ground truth, with no division by zero. The accuracies are
    ordered, [0 <= top_1 <= top_5 <= top_10 <= 100]; the mean reciprocal
    rank lies between [top_1 / 100] and 1; the mean average precision is
    not negative, and it is positive exactly when the mean reciprocal rank
    is. *)
Theorem evaluate_all_metrics_are_consistent (results : list Result)
    (ground_truth : gmap string (list string)) :
  ∃ m, evaluate_all path_name results ground_truth = Some m
    ∧ 0 <= top_1 m ∧ top_1 m <= top_5 m ∧ top_5 m <= top_10 m ∧ top_10 m <= 100
    ∧ top_1 m / 100 <= m_mrr m ∧ m_mrr m <= 1
    ∧ 0 <= m_map m
    ∧ (0 < m_mrr m ↔ 0 < m_map m).
Proof.
  destruct (top_k_accuracy_le results ground_truth 1 5) as (a1 & a5 & H1 & H5 & Ha);
    [lia|].
  destruct (top_k_accuracy_le results ground_truth 5 10)
    as (a5' & a10 & H5' & H10 & Hb); [lia|].
  rewrite H5 in H5'. injection H5' as <-.
  destruct (metrics_loops ground_truth results 0 0 0 0)
    as (h & t & rr & ap & Hloop1 & Hloop2 & Hloop3 & Hrr & Hap & Hiff & _);
    [cbn [INR]; lra|lra|done|].
  pose proof (top_k_accuracy_value _ _ _ _ _ Hloop1) as Hval.
  rewrite H1 in Hval. injection Hval as ->.
  unfold evaluate_all. rewrite H1, H5, H10. cbn [mbind option_bind].
  unfold mrr, mean_average_precision. rewrite Hloop2, Hloop3.
  cbn [mbind option_bind fst snd].
  destruct (decide (0 < t)%nat) as [Hpos|Hzero].
  - assert (HT : 0 < INR t) by (apply lt_0_INR; lia).
    assert (Hinv : 0 < / INR t) by (by apply Rinv_0_lt_compat).
    rewrite !py_div_Some by lra. cbn [mbind option_bind].
    eexists. split; [done|]. cbn [top_1 top_5 top_10 m_mrr m_map].
    split; [lra|]. split; [lra|]. split; [lra|]. split; [lra|].
    unfold Rdiv in *. split; [|split; [|split; [|split]]].
    + replace (INR h * / INR t * 100 * / 100) with (INR h * / INR t) by (field; lra).
      apply Rmult_le_compat_r; lra.
    + replace 1 with (INR t * / INR t) by (field; lra).
      apply Rmult_le_compat_r; lra.
    + apply Rmult_le_pos; lra.
    + intros Hm. apply Rmult_lt_0_compat; [|done]. apply Hiff.
      destruct (Rlt_dec 0 rr) as [|Hn]; [done|].
      assert (rr * / INR t <= 0); [|lra].
      replace 0 with (0 * / INR t) by lra. apply Rmult_le_compat_r; lra.
    + intros Hm. apply Rmult_lt_0_compat; [|done]. apply Hiff.
      destruct (Rlt_dec 0 ap) as [|Hn]; [done|].
      assert (ap * / INR t <= 0); [|lra].
      replace 0 with (0 * / INR t) by lra. apply Rmult_le_compat_r; lra.
  - eexists. split; [done|]. cbn [top_1 top_5 top_10 m_mrr m_map].
    repeat split; try lra.
Qed.

(** X18. When no result has an entry in the ground truth (in particular
    for an empty list of results), [evaluate_all] returns 0.0 for all five
    metrics, without dividing. *)
Theorem evaluate_all_without_ground_truth (results : list Result)
    (ground_truth : gmap string (list string)) :
  (∀ result, result ∈ results →
     ground_truth !! default EmptyString (bug_id result) = None) →
  evaluate_all path_name results ground_truth = Some (mkMetrics 0 0 0 0 0).
Proof.
  intros Hnone.
  assert (Htop : ∀ k st,
    foldl (top_k_accuracy_step path_name ground_truth k) st results = st).
  { intros k st. apply foldl_fixed. intros result [hits total] Hin.
    unfold top_k_accuracy_step. by rewrite (Hnone result Hin). }
  assert (Hmrr : ∀ st,
    foldl (λ st result, st ← st; mrr_step path_name ground_truth st result)
          (Some st) results = Some st).
  { intros st. apply foldl_fixed. intros result [[rr_sum total]|] Hin; [|done].
    cbn [mbind option_bind]. unfold mrr_step. by rewrite (Hnone result Hin). }
  assert (Hmap : ∀ st,
    foldl (λ st result,
             st ← st; average_precision_step path_name ground_truth st result)
          (Some st) results = Some st).
  { intros st. apply foldl_fixed. intros result [[ap_sum total]|] Hin; [|done].
    cbn [mbind option_bind]. unfold average_precision_step.
    by rewrite (Hnone result Hin). }
  unfold evaluate_all, top_k_accuracy, mrr, mean_average_precision.
  rewrite !Htop, Hmrr, Hmap. cbn [mbind option_bind fst snd].
  rewrite decide_False by lia. done.
Qed.

End Metrics.

Lemma evaluate_all_without_ground_truth_witness :
  evaluate_all (λ p, p) [mkResult (Some "bug-1") None] {[ "bug-2" := ["A.java"] ]}
  = Some (mkMetrics 0 0 0 0 0).
Proof.
  apply (evaluate_all_without_ground_truth (λ p, p)
           [mkResult (Some "bug-1") None] {[ "bug-2" := ["A.java"] ]}).
  intros result Hresult. apply list_elem_of_singleton in Hresult as ->.
  reflexivity.
Defined.

Lemma top_k_accuracy_grows_with_k_witness :
  ∃ a a',
    top_k_accuracy (λ p, p)
      [mkResult (Some "bug-1") (Some [mkLocation (Some "A.java")])]
      {[ "bug-1" := ["A.java"] ]} 1 = Some a
    ∧ top_k_accuracy (λ p, p)
        [mkResult (Some "bug-1") (Some [mkLocation (Some "A.java")])]
        {[ "bug-1" := ["A.java"] ]} 5 = Some a'
    ∧ 0 <= a ∧ a <= a' ∧ a' <= 100.
Proof.
  apply (top_k_accuracy_grows_with_k (λ p, p)
           [mkResult (Some "bug-1") (Some [mkLocation (Some "A.java")])]
           {[ "bug-1" := ["A.java"] ]} 1 5); lia.
Defined.

End EvaluatorMore.

(** ** The pattern agent *)

Module PatternMore.
Import PatternDetection.

Lemma dict_set_new {V : Type} (d : dict V) (k : string) (v : V) :
  k ∉ dict_keys d → dict_set d k v = d ++ [(k, v)].
Proof.
  unfold dict_keys. induction d as [|[k0 v0] d IH]; intros Hk; [done|].
  rewrite fmap_cons in Hk. cbn [dict_set fst] in *.
  apply not_elem_of_cons in Hk as [Hne Hk].
  rewrite decide_False by done. cbn [app]. by rewrite IH.
Qed.

Lemma dict_update_new {V : Type} (d e : dict V) :
  NoDup (dict_keys e) → (∀ k, k ∈ dict_keys e → k ∉ dict_keys d) →
  dict_update d e = d ++ e.
Proof.
  unfold dict_update. revert d.
  induction e as [|[k v] e IH]; intros d Hnd Hnew; cbn [foldl].
  - by rewrite app_nil_r.
  - unfold dict_keys in Hnd, Hnew. rewrite fmap_cons in Hnd, Hnew.
    cbn [fst snd] in *. apply NoDup_cons in Hnd as [Hk Hnd].
    rewrite dict_set_new by (apply Hnew; apply list_elem_of_here).
    rewrite IH; [by rewrite <- app_assoc|done|].
    intros k' Hk'. unfold dict_keys. rewrite fmap_app, fmap_cons, fmap_nil.
    cbn [fst]. intros [Hd|Hlast]%elem_of_app.
    + by apply (Hnew k'); [apply list_elem_of_further|].
    + apply list_elem_of_singleton in Hlast as ->. done.
Qed.

Lemma dict_set_same {V : Type} (d : dict V) (k : string) (v : V) :
  dict_get d k = Some v → dict_set d k v = d.
Proof.
  induction d as [|[k0 v0] d IH]; cbn [dict_get dict_set]; [done|].
  case_decide; [by intros [= ->]|]. intros Hget. by rewrite IH.
Qed.

Lemma dict_update_same {V : Type} (d e : dict V) :
  (∀ k v, (k, v) ∈ e → dict_get d k = Some v) → dict_update d e = d.
Proof.
  unfold dict_update. induction e as [|[k v] e IH]; intros He; cbn [foldl]; [done|].
  cbn [fst snd]. rewrite dict_set_same by (apply He; apply list_elem_of_here).
  apply IH. intros k' v' Hin. apply He. by apply list_elem_of_further.
Qed.

Lemma dict_get_elem {V : Type} (d : dict V) (k : string) (v : V) :
  NoDup (dict_keys d) → (k, v) ∈ d → dict_get d k = Some v.
Proof.
  unfold dict_keys. induction d as [|[k0 v0] d IH]; intros Hnd Hin.
  - by apply elem_of_nil in Hin.
  - rewrite fmap_cons in Hnd. cbn [fst] in Hnd.
    apply NoDup_cons in Hnd as [Hk Hnd]. cbn [dict_get].
    apply elem_of_cons in Hin as [[= -> ->]|Hin]; [by rewrite decide_True|].
    rewrite decide_False; [by apply IH|]. intros ->. apply Hk.
    apply list_elem_of_fmap. by exists (k, v).
Qed.

Lemma dict_get_None {V : Type} (d : dict V) (k : string) :
  k ∉ dict_keys d → dict_get d k = None.
Proof.
  intros Hk. destruct (dict_get d k) as [v|] eqn:Hget; [|done].
  by apply BM25Facts.dict_get_Some_key in Hget.
Qed.

(** *** The pattern tables *)

Lemma NULL_PATTERNS_keys :
  dict_keys NULL_PATTERNS
  = ["return_null"; "no_null_check_before_call"; "nullable_field"; "get_or_null"].
Proof. reflexivity. Qed.

Lemma TYPE_PATTERNS_keys :
  dict_keys TYPE_PATTERNS
  = ["unsafe_cast"; "instanceof_without_cast"; "generic_raw_type"].
Proof. reflexivity. Qed.

Lemma SYNC_PATTERNS_keys :
  dict_keys SYNC_PATTERNS
  = ["iterator_without_sync"; "collection_modify_in_loop";
     "missing_synchronized"; "shared_mutable"].
Proof. reflexivity. Qed.

Lemma BOUNDS_PATTERNS_keys :
  dict_keys BOUNDS_PATTERNS = ["array_access"; "get_by_index"; "substring"].
Proof. reflexivity. Qed.

Lemma all_pattern_names_differ :
  NoDup (dict_keys NULL_PATTERNS ++ dict_keys TYPE_PATTERNS
         ++ dict_keys SYNC_PATTERNS ++ dict_keys BOUNDS_PATTERNS).
Proof.
  rewrite NULL_PATTERNS_keys, TYPE_PATTERNS_keys, SYNC_PATTERNS_keys,
    BOUNDS_PATTERNS_keys.
  apply (bool_decide_unpack _). by vm_compute.
Qed.

Lemma NULL_PATTERNS_NoDup : NoDup (dict_keys NULL_PATTERNS).
Proof.
  pose proof all_pattern_names_differ as H. by apply NoDup_app in H as (H & _).
Qed.

Lemma dict_update_nil {V : Type} (e : dict V) :
  NoDup (dict_keys e) → dict_update [] e = e.
Proof.
  intros Hnd. rewrite dict_update_new; [done|done|].
  intros k _. apply not_elem_of_nil.
Qed.

Lemma own_table_then_null (table : dict PatternInfo) :
  NoDup (dict_keys table) →
  Forall (λ k, k ∉ dict_keys table) (dict_keys NULL_PATTERNS) →
  dict_update (dict_update [] table) NULL_PATTERNS = table ++ NULL_PATTERNS.
Proof.
  intros Hnd Hdisj. rewrite dict_update_nil by done.
  apply dict_update_new; [apply NULL_PATTERNS_NoDup|].
  by apply Forall_forall.
Qed.

Lemma patterns_to_check_CCE :
  patterns_to_check "CCE" = TYPE_PATTERNS ++ NULL_PATTERNS.
Proof.
  unfold patterns_to_check.
  change (dict_get BUG_TYPE_PATTERNS "CCE") with (Some TYPE_PATTERNS).
  apply own_table_then_null; rewrite ?TYPE_PATTERNS_keys, ?NULL_PATTERNS_keys;
    apply (bool_decide_unpack _); by vm_compute.
Qed.

Lemma patterns_to_check_CME :
  patterns_to_check "CME" = SYNC_PATTERNS ++ NULL_PATTERNS.
Proof.
  unfold patterns_to_check.
  change (dict_get BUG_TYPE_PATTERNS "CME") with (Some SYNC_PATTERNS).
  apply own_table_then_null; rewrite ?SYNC_PATTERNS_keys, ?NULL_PATTERNS_keys;
    apply (bool_decide_unpack _); by vm_compute.
Qed.

Lemma patterns_to_check_AIOBE :
  patterns_to_check "AIOBE" = BOUNDS_PATTERNS ++ NULL_PATTERNS.
Proof.
  unfold patterns_to_check.
  change (dict_get BUG_TYPE_PATTERNS "AIOBE") with (Some BOUNDS_PATTERNS).
  apply own_table_then_null; rewrite ?BOUNDS_PATTERNS_keys, ?NULL_PATTERNS_keys;
    apply (bool_decide_unpack _); by vm_compute.
Qed.

Lemma patterns_to_check_other (bug_type : string) :
  bug_type ∉ ["CCE"; "CME"; "AIOBE"] →
  patterns_to_check bug_type = NULL_PATTERNS.
Proof.
  intros Hother. unfold patterns_to_check.
  assert (Hnull : dict_update [] NULL_PATTERNS = NULL_PATTERNS)
    by apply dict_update_nil, NULL_PATTERNS_NoDup.
  assert (Hcases : dict_get BUG_TYPE_PATTERNS bug_type = Some NULL_PATTERNS
                   ∨ dict_get BUG_TYPE_PATTERNS bug_type = Some []
                   ∨ dict_get BUG_TYPE_PATTERNS bug_type = None).
  { unfold BUG_TYPE_PATTERNS. cbn [dict_get].
    repeat case_decide; subst; auto; exfalso; apply Hother;
      repeat first [apply list_elem_of_here | apply list_elem_of_further]. }
  destruct Hcases as [-> | [-> | ->]]; [|done|done].
  rewrite Hnull. apply dict_update_same. intros k v Hin.
  by apply dict_get_elem; [apply NULL_PATTERNS_NoDup|].
Qed.

Lemma patterns_to_check_cases (bug_type : string) :
  patterns_to_check bug_type = NULL_PATTERNS
  ∨ patterns_to_check bug_type = TYPE_PATTERNS ++ NULL_PATTERNS
  ∨ patterns_to_check bug_type = SYNC_PATTERNS ++ NULL_PATTERNS
  ∨ patterns_to_check bug_type = BOUNDS_PATTERNS ++ NULL_PATTERNS.
Proof.
  destruct (decide (bug_type ∈ ["CCE"; "CME"; "AIOBE"])) as [Hin|Hout].
  - repeat apply elem_of_cons in Hin as [->|Hin].
    + right. left. apply patterns_to_check_CCE.
    + right. right. left. apply patterns_to_check_CME.
    + right. right. right. apply patterns_to_check_AIOBE.
    + by apply elem_of_nil in Hin.
  - left. by apply patterns_to_check_other.
Qed.

Lemma max_possible_positive (bug_type : string) :
  0 < py_sum ((λ p, severity p * 3) <$> dict_values (patterns_to_check bug_type)).
Proof.
  destruct (patterns_to_check_cases bug_type) as [-> | [-> | [-> | ->]]];
    unfold dict_values, NULL_PATTERNS, TYPE_PATTERNS, SYNC_PATTERNS, BOUNDS_PATTERNS;
    cbn [app fmap list_fmap snd severity]; rewrite !py_sum_cons, py_sum_nil; lra.
Qed.

Lemma _compile_patterns_value :
  _compile_patterns
  = NULL_PATTERNS ++ TYPE_PATTERNS ++ SYNC_PATTERNS ++ BOUNDS_PATTERNS.
Proof. reflexivity. Qed.

Lemma compiled_severity (name : string) (compiled : PatternInfo) :
  dict_get _compile_patterns name = Some compiled → 0 <= severity compiled.
Proof.
  rewrite _compile_patterns_value.
  unfold NULL_PATTERNS, TYPE_PATTERNS, SYNC_PATTERNS, BOUNDS_PATTERNS.
  cbn [app dict_get].
  repeat (case_decide; [intros [= <-]; cbn [severity]; lra|]). done.
Qed.

(** *** The analysis of one class *)

Section Agent.
Context {Json : Type}.
Context (findall : string → string → list string).
Context (read_class_source : dict Json → string → option string).

Lemma detect_loop (self : PatternDetectionAgent (Json:=Json)) (name source : string)
    (items : dict PatternInfo) (analysis : PatternAnalysis) (total_severity : R) :
  (∀ k c, dict_get (_compiled self) k = Some c → 0 <= severity c) →
  ∃ found risks added,
    foldl (detect_step findall self name source) (analysis, total_severity) items
    = (mkPatternAnalysis (class_name analysis) (matches analysis ++ found)
         (score analysis) (risk_factors analysis ++ risks),
       total_severity + added)
    ∧ 0 <= added
    ∧ (length risks <= length found <= length items)%nat
    ∧ Forall (λ m, location m = name ∧ is_Some (line_hint m)
                   ∧ pattern_type m ∈ dict_keys items) found.
Proof.
  intros Hsev. revert analysis total_severity.
  induction items as [|[pattern_name info] items IH]; intros analysis total;
    cbn [foldl].
  - exists [], [], 0. rewrite !app_nil_r, Rplus_0_r. destruct analysis.
    split; [done|]. split; [lra|]. split; [done|]. constructor.
  - assert (Hlater : ∀ found,
      Forall (λ m, location m = name ∧ is_Some (line_hint m)
                   ∧ pattern_type m ∈ dict_keys items) found →
      Forall (λ m, location m = name ∧ is_Some (line_hint m)
                   ∧ pattern_type m ∈ dict_keys ((pattern_name, info) :: items))
             found).
    { intros found Hfound. eapply Forall_impl; [exact Hfound|].
      intros m (? & ? & ?). split; [done|]. split; [done|].
      unfold dict_keys. rewrite fmap_cons. by apply list_elem_of_further. }
    unfold detect_step at 2. cbn [fst snd].
    destruct (dict_get (_compiled self) pattern_name) as [compiled|] eqn:Hc.
    + destruct (findall (regex compiled) source) as [|first rest] eqn:Hfound.
      * destruct (IH analysis total) as (found & risks & added & -> & H1 & H2 & H3).
        exists found, risks, added. split; [done|]. split; [done|].
        split; [cbn [length]; lia|]. by apply Hlater.
      * set (m := mkPatternMatch pattern_name name (Some first)
                    (severity compiled) (description compiled)).
        set (new_risks := if decide (severity compiled >= 0.5)
                          then [pattern_name +:+ ": " +:+ description compiled]
                          else []).
        assert (Hrisks : (if decide (severity compiled >= 0.5)
                          then risk_factors analysis
                               ++ [pattern_name +:+ ": " +:+ description compiled]
                          else risk_factors analysis)
                         = risk_factors analysis ++ new_risks).
        { unfold new_risks. case_decide; [done|by rewrite app_nil_r]. }
        rewrite Hrisks.
        destruct (IH (mkPatternAnalysis (class_name analysis)
                        (matches analysis ++ [m]) (score analysis)
                        (risk_factors analysis ++ new_risks))
                     (total + severity compiled * INR (length (first :: rest))))
          as (found & risks & added & -> & H1 & H2 & H3).
        cbn [class_name matches score risk_factors].
        exists (m :: found), (new_risks ++ risks),
          (severity compiled * INR (length (first :: rest)) + added).
        split; [rewrite <- !app_assoc; cbn [app]; f_equal; lra|].
        split.
        { pose proof (Hsev _ _ Hc). pose proof (pos_INR (length (first :: rest))).
          assert (0 <= severity compiled * INR (length (first :: rest)))
            by (by apply Rmult_le_pos).
          lra. }
        split.
        { rewrite length_app. cbn [length].
          assert (length new_risks <= 1)%nat
            by (unfold new_risks; case_decide; cbn [length]; lia).
          lia. }
        constructor; [|by apply Hlater]. cbn [location line_hint pattern_type m].
        split; [done|]. split; [done|]. unfold dict_keys. rewrite fmap_cons.
        apply list_elem_of_here.
    + destruct (IH analysis total) as (found & risks & added & -> & H1 & H2 & H3).
      exists found, risks, added. split; [done|]. split; [done|].
      split; [cbn [length]; lia|]. by apply Hlater.
Qed.

(** X19. For an agent built by the constructor, [analyze_class] returns an
    analysis for every class, bug type and source: the divisor
    [max_possible] is positive for every bug type. The analysis carries the
    class name, a score between 0 and 1, at most one match for each
    pattern checked and at most one risk factor for each match. Without a
    source (an empty source text, or no source given and no code
    structure) the analysis is empty with score 0.0. *)
Theorem analyze_class_score_is_between_0_and_1
    (code_structure : option (dict Json)) (name bug_type : string)
    (source_code : option string) :
  ∃ analysis,
    analyze_class findall read_class_source (__init__ code_structure)
      name bug_type source_code = Some analysis
    ∧ class_name analysis = name
    ∧ 0 <= score analysis <= 1
    ∧ (length (risk_factors analysis) <= length (matches analysis)
       <= length (patterns_to_check bug_type))%nat
    ∧ Forall (λ m, location m = name
                   ∧ pattern_type m ∈ dict_keys (patterns_to_check bug_type))
             (matches analysis)
    ∧ (source_code = Some EmptyString
       ∨ (source_code = None
          ∧ (code_structure = None ∨ code_structure = Some [])) →
       analysis = mkPatternAnalysis name [] 0 []).
Proof.
  set (self := __init__ code_structure).
  assert (Hempty : ∃ analysis, Some (mkPatternAnalysis name [] 0 []) = Some analysis
    ∧ class_name analysis = name
    ∧ 0 <= score analysis <= 1
    ∧ (length (risk_factors analysis) <= length (matches analysis)
       <= length (patterns_to_check bug_type))%nat
    ∧ Forall (λ m, location m = name
                   ∧ pattern_type m ∈ dict_keys (patterns_to_check bug_type))
             (matches analysis)
    ∧ (source_code = Some EmptyString
       ∨ (source_code = None
          ∧ (code_structure = None ∨ code_structure = Some [])) →
       analysis = mkPatternAnalysis name [] 0 [])).
  { eexists. split; [done|]. cbn [class_name score matches risk_factors length].
    split; [done|]. split; [lra|]. split; [lia|]. split; [constructor|done]. }
  unfold analyze_class.
  set (source := match source_code with
                 | Some _ => source_code
                 | None => _get_class_source read_class_source self name
                 end).
  assert (Hsource : source_code = Some EmptyString
                    ∨ (source_code = None
                       ∧ (code_structure = None ∨ code_structure = Some [])) →
                    source = None ∨ source = Some EmptyString).
  { intros [->|[-> Hcs]]; [by right|]. left. unfold source, _get_class_source, self.
    by destruct Hcs as [-> | ->]. }
  destruct source as [[|c text]|]; [done| |done].
  set (src := String c text).
  destruct (detect_loop self name src (patterns_to_check bug_type)
              (mkPatternAnalysis name [] 0 []) 0)
    as (found & risks & added & -> & Hadded & Hlen & Hfound).
  { intros k comp. unfold self, __init__. cbn [_compiled]. apply compiled_severity. }
  cbn [fst snd class_name matches score risk_factors app].
  pose proof (max_possible_positive bug_type) as Hmax.
  rewrite decide_True by lra. rewrite py_div_Some by lra.
  cbn [mbind option_bind]. eexists. split; [done|].
  cbn [class_name matches score risk_factors].
  split; [done|]. split.
  { split; [|apply Rmin_r]. apply Rmin_glb; [|lra].
    rewrite Rplus_0_l. apply Rmult_le_pos; [done|].
    left. by apply Rinv_0_lt_compat. }
  split; [done|]. split.
  { eapply Forall_impl; [exact Hfound|]. by intros m (? & _ & ?). }
  intros Hno. destruct (Hsource Hno) as [?|?]; done.
Qed.

(** X20. A bug type without a pattern table of its own (every type other
    than CCE, CME and AIOBE: NPE, IAE, ISE, GENERIC, IOE and any unknown
    name) is analysed with the null patterns alone, as GENERIC is. *)
Theorem bug_types_without_own_table_are_analysed_as_generic
    (self : PatternDetectionAgent (Json:=Json)) (name bug_type : string)
    (source_code : option string) :
  bug_type ∉ ["CCE"; "CME"; "AIOBE"] →
  patterns_to_check bug_type = NULL_PATTERNS
  ∧ analyze_class findall read_class_source self name bug_type source_code
    = analyze_class findall read_class_source self name "GENERIC" source_code.
Proof.
  intros Hother. assert (Hgeneric : "GENERIC" ∉ ["CCE"; "CME"; "AIOBE"]).
  { apply (bool_decide_unpack _). by vm_compute. }
  split; [by apply patterns_to_check_other|]. unfold analyze_class.
  by rewrite (patterns_to_check_other bug_type), (patterns_to_check_other "GENERIC").
Qed.

Lemma get_pattern_scores_no_structure
    (candidates : list string) (bug_type : string) :
  ∃ scores,
    get_pattern_scores findall read_class_source (__init__ None)
      candidates bug_type = Some scores
    ∧ ∀ c, scores !! c = if decide (c ∈ candidates) then Some 0 else None.
Proof.
  unfold get_pattern_scores, analyze_candidates.
  assert (Hloop : ∀ results : gmap string PatternAnalysis,
    foldl (λ results class_name,
             results ← results;
             analysis ← analyze_class findall read_class_source (__init__ None)
                          class_name bug_type
                          ((default ∅ None : gmap string string) !! class_name);
             Some (<[class_name := analysis]> results))
          (Some results) candidates
    = Some (foldl (λ results class_name,
                     <[class_name := mkPatternAnalysis class_name [] 0 []]> results)
                  results candidates)).
  { induction candidates as [|c candidates IH]; intros results; [done|].
    cbn [foldl mbind option_bind default]. rewrite lookup_empty.
    change (analyze_class findall read_class_source (__init__ None) c bug_type None)
      with (Some (mkPatternAnalysis c [] 0 [])).
    cbn [mbind option_bind]. apply IH. }
  rewrite Hloop. clear Hloop. eexists. split; [done|]. intros c.
  rewrite lookup_fmap.
  assert (Hlookup : ∀ results : gmap string PatternAnalysis,
    score <$> foldl (λ results class_name,
                       <[class_name := mkPatternAnalysis class_name [] 0 []]> results)
                    results candidates !! c
    = if decide (c ∈ candidates) then Some 0 else score <$> results !! c).
  { induction candidates as [|c' candidates IH]; intros results; cbn [foldl].
    - rewrite decide_False; [done|apply not_elem_of_nil].
    - rewrite IH. destruct (decide (c ∈ candidates)) as [Hin|Hout].
      + rewrite decide_True; [done|by apply list_elem_of_further].
      + destruct (decide (c = c')) as [->|Hne].
        * rewrite lookup_insert_eq. rewrite decide_True; [done|apply list_elem_of_here].
        * rewrite lookup_insert_ne by done. rewrite decide_False; [done|].
          by intros [?|?]%elem_of_cons. }
  rewrite Hlookup. rewrite lookup_empty. done.
Qed.

(** X21. An agent built without a code structure, as the orchestrator
    builds it, gives every candidate the pattern score 0.0, for every bug
    type; the result has an entry for each candidate and no other. *)
Theorem agent_without_code_structure_scores_zero
    (candidates : list string) (bug_type : string) :
  ∃ scores,
    get_pattern_scores findall read_class_source (__init__ None)
      candidates bug_type = Some scores
    ∧ ∀ c, scores !! c = if decide (c ∈ candidates) then Some 0 else None.
Proof. apply get_pattern_scores_no_structure. Qed.

End Agent.

Lemma bug_types_without_own_table_are_analysed_as_generic_witness :
  patterns_to_check "IOE" = NULL_PATTERNS
  ∧ analyze_class (Json:=unit) (λ _ _, []) (λ _ _, None) (__init__ None)
      "World" "IOE" (Some "return null;")
    = analyze_class (Json:=unit) (λ _ _, []) (λ _ _, None) (__init__ None)
        "World" "GENERIC" (Some "return null;").
Proof.
  apply (bug_types_without_own_table_are_analysed_as_generic
           (Json:=unit) (λ _ _, []) (λ _ _, None) (__init__ None)
           "World" "IOE" (Some "return null;")).
  apply (bool_decide_unpack _). by vm_compute.
Defined.

End PatternMore.

(** ** The test index *)

Module TestIndexMore.
Import Coverage TestIndex.

(** *** Strings *)

Lemma append_cons (c : ascii) (s1 s2 : string) :
  String c s1 +:+ s2 = String c (s1 +:+ s2).
Proof. reflexivity. Qed.

Lemma append_nil_r (s : string) : s +:+ EmptyString = s.
Proof. induction s as [|c s IH]; [done|]. rewrite append_cons. by f_equal. Qed.

Lemma append_assoc (s1 s2 s3 : string) :
  (s1 +:+ s2) +:+ s3 = s1 +:+ (s2 +:+ s3).
Proof.
  induction s1 as [|c s1 IH]; [done|]. rewrite !append_cons. by f_equal.
Qed.

Lemma length_append (s1 s2 : string) :
  String.length (s1 +:+ s2) = (String.length s1 + String.length s2)%nat.
Proof.
  induction s1 as [|c s1 IH]; [done|]. rewrite append_cons. cbn [String.length].
  by rewrite IH.
Qed.

Lemma py_take_drop (n : nat) (s : string) : py_take n s +:+ py_drop n s = s.
Proof.
  revert s. induction n as [|n IH]; intros [|c s]; cbn [py_take py_drop];
    try done.
  rewrite append_cons. by f_equal.
Qed.

Lemma py_drop_append (s1 s2 : string) : py_drop (String.length s1) (s1 +:+ s2) = s2.
Proof.
  induction s1 as [|c s1 IH]; [done|]. rewrite append_cons.
  cbn [String.length py_drop]. exact IH.
Qed.

Lemma py_take_append (s1 s2 : string) : py_take (String.length s1) (s1 +:+ s2) = s1.
Proof.
  induction s1 as [|c s1 IH]; [by destruct s2|]. rewrite append_cons.
  cbn [String.length py_take]. by f_equal.
Qed.

Lemma py_lower_append (s1 s2 : string) :
  py_lower (s1 +:+ s2) = py_lower s1 +:+ py_lower s2.
Proof.
  induction s1 as [|c s1 IH]; [done|]. rewrite append_cons. cbn [py_lower].
  rewrite append_cons. by f_equal.
Qed.

Lemma py_startswith_spec (s p : string) :
  py_startswith s p = true ↔ ∃ rest, s = p +:+ rest.
Proof.
  unfold py_startswith. revert s. induction p as [|c p IH]; intros s.
  - destruct s; cbn [String.prefix]; split; eauto.
  - destruct s as [|c' s]; cbn [String.prefix].
    + split; [done|]. by intros [rest ?].
    + destruct (ascii_dec c c') as [->|Hne].
      * rewrite IH. split; intros [rest Hrest]; exists rest.
        -- rewrite append_cons. by f_equal.
        -- rewrite append_cons in Hrest. by injection Hrest.
      * split; [done|]. intros [rest Hrest]. rewrite append_cons in Hrest.
        by injection Hrest.
Qed.

Lemma py_endswith_spec (s p : string) :
  py_endswith s p = true ↔ ∃ pre, s = pre +:+ p.
Proof.
  unfold py_endswith. rewrite andb_true_iff, Nat.leb_le, String.eqb_eq. split.
  - intros [Hlen Hdrop]. exists (py_take (String.length s - String.length p) s).
    transitivity (py_take (String.length s - String.length p) s
                  +:+ py_drop (String.length s - String.length p) s);
      [by rewrite py_take_drop|by rewrite Hdrop].
  - intros [pre ->]. rewrite length_append. split; [lia|].
    replace (String.length pre + String.length p - String.length p)%nat
      with (String.length pre) by lia.
    apply py_drop_append.
Qed.

Lemma py_contains_spec (needle hay : string) :
  py_contains needle hay = true ↔ ∃ pre post, hay = pre +:+ needle +:+ post.
Proof.
  induction hay as [|c hay IH].
  - cbn [py_contains]. rewrite orb_false_r.
    change (String.prefix needle EmptyString) with (py_startswith EmptyString needle).
    rewrite py_startswith_spec. split.
    + intros [rest Hrest]. by exists EmptyString, rest.
    + intros (pre & post & Heq). destruct pre; [by exists post|done].
  - cbn [py_contains]. rewrite orb_true_iff, IH.
    change (String.prefix needle (String c hay))
      with (py_startswith (String c hay) needle).
    rewrite py_startswith_spec. split.
    + intros [[rest Hrest]|(pre & post & ->)].
      * by exists EmptyString, rest.
      * by exists (String c pre), post.
    + intros (pre & post & Heq). destruct pre as [|c' pre].
      * left. by exists post.
      * right. injection Heq as -> ->. by exists pre, post.
Qed.

Lemma py_drop_add (n m : nat) (s : string) :
  py_drop (n + m) s = py_drop m (py_drop n s).
Proof.
  revert s. induction n as [|n IH]; intros s; [done|].
  destruct s as [|c s]; cbn [Nat.add py_drop]; [by destruct m|apply IH].
Qed.

(** *** Test files and test classes *)

Lemma lower_mentions_test (path pre part post : string) :
  path = pre +:+ part +:+ post →
  py_contains "test" (py_lower part) = true →
  py_contains "test" (py_lower path) = true.
Proof.
  intros -> (a & z & Hpart)%py_contains_spec. apply py_contains_spec.
  exists (py_lower pre +:+ a), (z +:+ py_lower post).
  rewrite !py_lower_append, Hpart, !append_assoc. done.
Qed.

(** X22. A path counts as a test file exactly when its lower-case form
    contains [test]: the four further tests of [_is_test_file] (the endings
    [Test.java] and [Tests.java], the directories [/test/] and [\test\])
    never decide. *)
Theorem is_test_file_iff_lower_path_contains_test (file_path : string) :
  _is_test_file file_path = py_contains "test" (py_lower file_path).
Proof.
  unfold _is_test_file.
  destruct (py_contains "test" (py_lower file_path)) eqn:Hlower; [done|].
  cbn [orb].
  assert (Hnot : ∀ pre part post,
    file_path = pre +:+ part +:+ post →
    py_contains "test" (py_lower part) = true → False).
  { intros pre part post Heq Hpart.
    rewrite (lower_mentions_test _ _ _ _ Heq Hpart) in Hlower. done. }
  destruct (py_endswith file_path "Test.java") eqn:H1.
  { apply py_endswith_spec in H1 as [pre Heq]. exfalso.
    apply (Hnot pre "Test.java" EmptyString); [by rewrite append_nil_r|done]. }
  destruct (py_endswith file_path "Tests.java") eqn:H2.
  { apply py_endswith_spec in H2 as [pre Heq]. exfalso.
    apply (Hnot pre "Tests.java" EmptyString); [by rewrite append_nil_r|done]. }
  destruct (py_contains "/test/" file_path) eqn:H3.
  { apply py_contains_spec in H3 as (pre & post & Heq). exfalso.
    by apply (Hnot pre "/test/" post). }
  destruct (py_contains "\test\" file_path) eqn:H4.
  { apply py_contains_spec in H4 as (pre & post & Heq). exfalso.
    by apply (Hnot pre "\test\" post). }
  done.
Qed.

(** X23. [_extract_tested_class] strips one affix: [Test] in front gives
    the rest of the name; otherwise [Test] or [Tests] at the end gives what
    stands before it. Whatever it returns is the name without a leading
    [Test] or a trailing [Test] or [Tests]. The leading [Test] wins, so the
    name [Test] itself gives the empty string. *)
Theorem extract_tested_class_strips_one_affix :
  (∀ rest, _extract_tested_class ("Test" +:+ rest) = Some rest)
  ∧ (∀ subject, py_startswith (subject +:+ "Test") "Test" = false →
       _extract_tested_class (subject +:+ "Test") = Some subject)
  ∧ (∀ subject, py_startswith (subject +:+ "Tests") "Test" = false →
       _extract_tested_class (subject +:+ "Tests") = Some subject)
  ∧ (∀ test_class_name tested,
       _extract_tested_class test_class_name = Some tested →
       test_class_name = "Test" +:+ tested
       ∨ test_class_name = tested +:+ "Test"
       ∨ test_class_name = tested +:+ "Tests").
Proof.
  split; [|split; [|split]].
  - intros rest. unfold _extract_tested_class.
    assert (py_startswith ("Test" +:+ rest) "Test" = true) as ->
      by (apply py_startswith_spec; eauto).
    reflexivity.
  - intros subject Hstart. unfold _extract_tested_class. rewrite Hstart.
    assert (py_endswith (subject +:+ "Test") "Test" = true) as ->
      by (apply py_endswith_spec; eauto).
    f_equal. rewrite length_append.
    replace (String.length subject + String.length "Test" - 4)%nat
      with (String.length subject) by (cbn [String.length]; lia).
    apply py_take_append.
  - intros subject Hstart. unfold _extract_tested_class. rewrite Hstart.
    assert (py_endswith (subject +:+ "Tests") "Test" = false) as ->.
    { unfold py_endswith. rewrite length_append.
      replace (String.length subject + String.length "Tests"
               - String.length "Test")%nat
        with (String.length subject + 1)%nat by (cbn [String.length]; lia).
      rewrite py_drop_add, py_drop_append. apply andb_false_r. }
    assert (py_endswith (subject +:+ "Tests") "Tests" = true) as ->
      by (apply py_endswith_spec; eauto).
    f_equal. rewrite length_append.
    replace (String.length subject + String.length "Tests" - 5)%nat
      with (String.length subject) by (cbn [String.length]; lia).
    apply py_take_append.
  - intros test_class_name tested. unfold _extract_tested_class.
    destruct (py_startswith test_class_name "Test") eqn:Hstart.
    { apply py_startswith_spec in Hstart as [rest ->]. intros [= <-]. by left. }
    destruct (py_endswith test_class_name "Test") eqn:Hend.
    { apply py_endswith_spec in Hend as [pre ->]. intros [= <-]. right. left.
      f_equal. symmetry. rewrite length_append.
      replace (String.length pre + String.length "Test" - 4)%nat
        with (String.length pre) by (cbn [String.length]; lia).
      apply py_take_append. }
    destruct (py_endswith test_class_name "Tests") eqn:Hends; [|done].
    apply py_endswith_spec in Hends as [pre ->]. intros [= <-]. right. right.
    f_equal. symmetry. rewrite length_append.
    replace (String.length pre + String.length "Tests" - 5)%nat
      with (String.length pre) by (cbn [String.length]; lia).
    apply py_take_append.
Qed.

(** *** The index *)

Definition co_of (co : gmap string (gset string)) (a : string) : gset string :=
  default ∅ (co !! a).

Definition tests_of (tests : gmap string (list string)) (a : string) : list string :=
  default [] (tests !! a).

Lemma add_co_occurrence_spec (cls1 cls2 : string)
    (co : gmap string (gset string)) (a b : string) :
  b ∈ co_of (add_co_occurrence cls1 co cls2) a
  ↔ b ∈ co_of co a ∨ (a = cls1 ∧ b = cls2 ∧ a ≠ b).
Proof.
  unfold add_co_occurrence, co_of. destruct (decide (cls1 ≠ cls2)) as [Hne|Heq].
  - destruct (decide (a = cls1)) as [->|Ha].
    + rewrite lookup_insert_eq. cbn [default]. unfold Datatypes.id.
      rewrite elem_of_union, elem_of_singleton. intuition congruence.
    + rewrite lookup_insert_ne by done. intuition congruence.
  - intuition congruence.
Qed.

Lemma add_co_occurrence_nonempty (cls1 cls2 : string)
    (co : gmap string (gset string)) :
  map_Forall (λ _ s, s ≠ ∅) co →
  map_Forall (λ _ s, s ≠ ∅) (add_co_occurrence cls1 co cls2).
Proof.
  intros Hco. unfold add_co_occurrence. case_decide; [|done].
  apply map_Forall_insert_2; [|done]. intros Hempty.
  assert (cls2 ∈ (∅ : gset string)) as Hin; [|by apply not_elem_of_empty in Hin].
  rewrite <- Hempty. apply elem_of_union_r. by apply elem_of_singleton.
Qed.

Lemma inner_loop_spec (cls1 : string) (l : list string)
    (co : gmap string (gset string)) (a b : string) :
  b ∈ co_of (foldl (add_co_occurrence cls1) co l) a
  ↔ b ∈ co_of co a ∨ (a = cls1 ∧ b ∈ l ∧ a ≠ b).
Proof.
  revert co. induction l as [|cls2 l IH]; intros co; cbn [foldl].
  - split; [by left|]. intros [?|(_ & ?%elem_of_nil & _)]; done.
  - rewrite IH, add_co_occurrence_spec, elem_of_cons. intuition congruence.
Qed.

Lemma inner_loop_nonempty (cls1 : string) (l : list string)
    (co : gmap string (gset string)) :
  map_Forall (λ _ s, s ≠ ∅) co →
  map_Forall (λ _ s, s ≠ ∅) (foldl (add_co_occurrence cls1) co l).
Proof.
  revert co. induction l as [|cls2 l IH]; intros co Hco; cbn [foldl]; [done|].
  apply IH. by apply add_co_occurrence_nonempty.
Qed.

Lemma outer_loop_spec (l1 l2 : list string)
    (co : gmap string (gset string)) (a b : string) :
  b ∈ co_of (foldl (λ co cls1, foldl (add_co_occurrence cls1) co l2) co l1) a
  ↔ b ∈ co_of co a ∨ (a ∈ l1 ∧ b ∈ l2 ∧ a ≠ b).
Proof.
  revert co. induction l1 as [|cls1 l1 IH]; intros co; cbn [foldl].
  - split; [by left|]. intros [?|(?%elem_of_nil & _)]; done.
  - rewrite IH, inner_loop_spec, elem_of_cons. intuition congruence.
Qed.

Lemma outer_loop_nonempty (l1 l2 : list string)
    (co : gmap string (gset string)) :
  map_Forall (λ _ s, s ≠ ∅) co →
  map_Forall (λ _ s, s ≠ ∅)
    (foldl (λ co cls1, foldl (add_co_occurrence cls1) co l2) co l1).
Proof.
  revert co. induction l1 as [|cls1 l1 IH]; intros co Hco; cbn [foldl]; [done|].
  apply IH. by apply inner_loop_nonempty.
Qed.

Lemma build_co_occurrence_spec (classes_in_test : gset string)
    (co : gmap string (gset string)) (a b : string) :
  b ∈ co_of (build_co_occurrence classes_in_test co) a
  ↔ b ∈ co_of co a ∨ (a ∈ classes_in_test ∧ b ∈ classes_in_test ∧ a ≠ b).
Proof.
  unfold build_co_occurrence. rewrite outer_loop_spec, !elem_of_elements. done.
Qed.

(** What the loops over the classes and methods of one test file keep. *)
Record file_inv (path : string) (tests0 : gmap string (list string))
    (st : gset string * gmap string (list string)) : Prop := mk_file_inv {
  file_in_test : ∀ a, a ∈ st.1 → path ∈ tests_of st.2 a;
  file_tests : ∀ a fs, st.2 !! a = Some fs →
    a ≠ EmptyString ∧ fs ≠ [] ∧ Forall (λ f, _is_test_file f = true) fs;
  file_grows : ∀ a f, f ∈ tests_of tests0 a → f ∈ tests_of st.2 a;
}.

Lemma index_method_inv (path : string) (cls : ClassInfo) (method : MethodInfo)
    (tests0 : gmap string (list string))
    (st : gset string * gmap string (list string)) :
  _is_test_file path = true →
  file_inv path tests0 st → file_inv path tests0 (index_method path cls st method).
Proof.
  intros Hpath [Hin Htests Hgrows]. unfold index_method.
  destruct (_is_test_method _); [|done].
  destruct (_extract_tested_class _) as [[|c tested]|]; [done| |done].
  set (t := String c tested). split; cbn [fst snd]; unfold tests_of in *.
  - intros a [Ha|Ha]%elem_of_union.
    + destruct (decide (a = t)) as [->|Hne].
      * rewrite lookup_insert_eq. cbn [default]. unfold Datatypes.id.
        apply elem_of_app. right. apply list_elem_of_here.
      * rewrite lookup_insert_ne by done. by apply Hin.
    + apply elem_of_singleton in Ha as ->. rewrite lookup_insert_eq.
      cbn [default]. unfold Datatypes.id. apply elem_of_app. right.
      apply list_elem_of_here.
  - intros a fs. destruct (decide (a = t)) as [->|Hne].
    + rewrite lookup_insert_eq. intros [= <-]. split; [done|].
      split; [by destruct (default [] (st.2 !! t))|].
      apply Forall_app. split; [|by repeat constructor].
      destruct (st.2 !! t) as [fs|] eqn:Hfs; cbn [default]; [|constructor].
      by destruct (Htests _ _ Hfs) as (_ & _ & ?).
    + rewrite lookup_insert_ne by done. apply Htests.
  - intros a f Hf. destruct (decide (a = t)) as [->|Hne].
    + rewrite lookup_insert_eq. cbn [default]. unfold Datatypes.id.
      apply elem_of_app. left. by apply Hgrows.
    + rewrite lookup_insert_ne by done. by apply Hgrows.
Qed.

Lemma index_classes_inv (path : string) (classes : list ClassInfo)
    (tests0 : gmap string (list string))
    (st : gset string * gmap string (list string)) :
  _is_test_file path = true →
  file_inv path tests0 st →
  file_inv path tests0 (foldl (index_class path) st classes).
Proof.
  intros Hpath. revert st.
  induction classes as [|cls classes IH]; intros st Hst; cbn [foldl]; [done|].
  apply IH. unfold index_class. generalize (default [] (methods cls)).
  intros ms. revert st Hst. induction ms as [|m ms IHm]; intros st Hst;
    cbn [foldl]; [done|].
  apply IHm. by apply index_method_inv.
Qed.

(** What [_build_index] keeps of the two indexes. *)
Record index_inv (self : TestFailureAgent) : Prop := mk_index_inv {
  index_sym : ∀ a b,
    b ∈ co_of (_co_occurrence self) a → a ∈ co_of (_co_occurrence self) b;
  index_irrefl : ∀ a, a ∉ co_of (_co_occurrence self) a;
  index_shared : ∀ a b, b ∈ co_of (_co_occurrence self) a →
    ∃ f, f ∈ tests_of (_class_to_tests self) a
         ∧ f ∈ tests_of (_class_to_tests self) b;
  index_tests : ∀ a fs, _class_to_tests self !! a = Some fs →
    a ≠ EmptyString ∧ fs ≠ [] ∧ Forall (λ f, _is_test_file f = true) fs;
  index_nonempty : map_Forall (λ _ s, s ≠ ∅) (_co_occurrence self);
}.

Lemma index_file_inv (self : TestFailureAgent) (file_info : FileInfo) :
  index_inv self → index_inv (index_file self file_info).
Proof.
  intros [Hsym Hirr Hshared Htests Hne]. unfold index_file.
  destruct (_is_test_file (default EmptyString (file_path file_info))) eqn:Hpath;
    [|done].
  set (path := default EmptyString (file_path file_info)) in *.
  destruct (index_classes_inv path (default [] (classes file_info))
              (_class_to_tests self) (∅, _class_to_tests self) Hpath)
    as [Hin Htests' Hgrows].
  { split; cbn [fst snd]; [|done|done]. intros a Ha.
    by apply not_elem_of_empty in Ha. }
  set (st := foldl (index_class path) (∅, _class_to_tests self)
               (default [] (classes file_info))) in *.
  split; cbn [_co_occurrence _class_to_tests].
  - intros a b [Hold|(Ha & Hb & Hab)]%build_co_occurrence_spec;
      apply build_co_occurrence_spec; [left; by apply Hsym|right; done].
  - intros a [Hold|(_ & _ & Hab)]%build_co_occurrence_spec; [|done].
    by apply (Hirr a).
  - intros a b [Hold|(Ha & Hb & Hab)]%build_co_occurrence_spec.
    + destruct (Hshared a b Hold) as (f & Hfa & Hfb). exists f.
      split; by apply Hgrows.
    + exists path. split; by apply Hin.
  - exact Htests'.
  - unfold build_co_occurrence. by apply outer_loop_nonempty.
Qed.

Lemma _build_index_inv (self : TestFailureAgent) (files : list FileInfo) :
  index_inv self → index_inv (_build_index self files).
Proof.
  unfold _build_index. revert self.
  induction files as [|file_info files IH]; intros self Hself; cbn [foldl]; [done|].
  apply IH. by apply index_file_inv.
Qed.

Lemma empty_index_inv : index_inv (mkTestFailureAgent ∅ ∅).
Proof.
  split; cbn [_co_occurrence _class_to_tests]; unfold co_of.
  - intros a b. rewrite lookup_empty. intros Hb. by apply not_elem_of_empty in Hb.
  - intros a. rewrite lookup_empty. apply not_elem_of_empty.
  - intros a b. rewrite lookup_empty. intros Hb. by apply not_elem_of_empty in Hb.
  - intros a fs. by rewrite lookup_empty.
  - apply map_Forall_empty.
Qed.

(** X24. In the index that the constructor builds, for every code
    structure: co-occurrence is symmetric and no class is co-tested with
    itself; two co-tested classes share a test file; every class with test
    files has a name that is not empty and a list of files that is not
    empty, all of them test files; every class with a co-occurrence entry
    has a set that is not empty and has test files. Without a code
    structure both indexes are empty. *)
Theorem build_index_keeps_the_indexes_consistent
    (code_structure : option (list FileInfo)) :
  let self := __init__ code_structure in
  (∀ a b, b ∈ get_co_tested_classes self a → py_split_last b = b →
     py_split_last a ∈ get_co_tested_classes self b)
  ∧ (∀ a, py_split_last a ∉ get_co_tested_classes self a)
  ∧ (∀ a b, b ∈ get_co_tested_classes self a →
       ∃ f, _is_test_file f = true
            ∧ f ∈ default [] (_class_to_tests self !! py_split_last a)
            ∧ f ∈ default [] (_class_to_tests self !! b))
  ∧ (∀ a fs, _class_to_tests self !! a = Some fs →
       a ≠ EmptyString ∧ fs ≠ [] ∧ Forall (λ f, _is_test_file f = true) fs)
  ∧ (∀ a s, _co_occurrence self !! a = Some s →
       s ≠ ∅ ∧ is_Some (_class_to_tests self !! a))
  ∧ (code_structure = None → self = mkTestFailureAgent ∅ ∅).
Proof.
  intros self.
  assert (Hinv : index_inv self).
  { unfold self, __init__. destruct code_structure as [files|];
      [apply _build_index_inv|]; apply empty_index_inv. }
  destruct Hinv as [Hsym Hirr Hshared Htests Hne].
  assert (Hfiles : ∀ a b, b ∈ co_of (_co_occurrence self) a →
    ∃ f, _is_test_file f = true
         ∧ f ∈ tests_of (_class_to_tests self) a
         ∧ f ∈ tests_of (_class_to_tests self) b).
  { intros a b Hb. destruct (Hshared a b Hb) as (f & Hfa & Hfb).
    exists f. split; [|done]. unfold tests_of in Hfa.
    destruct (_class_to_tests self !! a) as [fs|] eqn:Hfs; cbn [default] in Hfa;
      [|by apply elem_of_nil in Hfa].
    destruct (Htests _ _ Hfs) as (_ & _ & Hall).
    by apply (proj1 (Forall_forall _ _) Hall). }
  unfold get_co_tested_classes. split; [|split; [|split; [|split; [|split]]]].
  - intros a b Hb Hsimple. rewrite Hsimple. by apply Hsym.
  - intros a. apply Hirr.
  - intros a b Hb. by apply Hfiles.
  - exact Htests.
  - intros a s' Hs. split; [by apply (Hne a)|].
    assert (∃ b, b ∈ s') as [b Hb].
    { apply set_choose_L. by apply (Hne a). }
    destruct (Hfiles a b) as (f & _ & Hfa & _).
    { unfold co_of. by rewrite Hs. }
    unfold tests_of in Hfa. destruct (_class_to_tests self !! a); [done|].
    by apply elem_of_nil in Hfa.
  - intros ->. done.
Qed.

End TestIndexMore.

(** ** The orchestrator *)

Module OrchestratorMore.
Import Orchestrator.

(** The rankers that a graph is built with: none, or the index of a
    document dict. *)
Definition usable (ranker : option BM25.BM25Ranker) : Prop :=
  match ranker with
  | None => True
  | Some r =>
      BM25Facts.fitted r ∧ 0 <= BM25.k1 r ∧ 0 <= BM25.b r <= 1
      ∧ NoDup (dict_keys (BM25.doc_terms r))
  end.

Lemma fit_usable (_tokenize : string → list string)
    (documents : dict BM25.DocInfo) :
  NoDup (dict_keys documents) →
  ∃ r, BM25.fit _tokenize (BM25.__init__ BM25.BM25_K1 BM25.BM25_B) documents
       = Some r
    ∧ usable (Some r)
    ∧ dict_keys (BM25.doc_terms r) = dict_keys documents.
Proof.
  intros Hnd.
  destruct (BM25More.fit_indexed _tokenize BM25.BM25_K1 BM25.BM25_B documents Hnd)
    as (r & Hfit & Hr & Hk & Hb & Hkeys & _).
  exists r. split; [done|]. split; [|done]. cbn [usable].
  rewrite Hk, Hb, Hkeys. destruct BM25Facts.default_parameters as [? ?].
  split; [done|]. split; [done|]. split; done.
Qed.

Lemma dict_keys_set_old {V : Type} (d : dict V) (k : string) (v : V) :
  k ∈ dict_keys d → dict_keys (dict_set d k v) = dict_keys d.
Proof.
  unfold dict_keys. induction d as [|[k0 v0] d IH]; intros Hk.
  - by apply elem_of_nil in Hk.
  - rewrite fmap_cons in Hk. cbn [dict_set fst] in *.
    destruct (decide (k0 = k)) as [->|Hne]; [done|].
    rewrite !fmap_cons. cbn [fst]. f_equal. apply IH.
    by apply elem_of_cons in Hk as [?|?].
Qed.

Lemma dict_set_NoDup {V : Type} (d : dict V) (k : string) (v : V) :
  NoDup (dict_keys d) → NoDup (dict_keys (dict_set d k v)).
Proof.
  intros Hnd. destruct (decide (k ∈ dict_keys d)) as [Hin|Hout].
  - by rewrite dict_keys_set_old.
  - rewrite BM25More.dict_keys_set_new by done. apply NoDup_app.
    split; [done|]. split; [|apply NoDup_singleton].
    intros x Hx ->%list_elem_of_singleton. done.
Qed.

Lemma dict_keys_set_elem {V : Type} (d : dict V) (k k' : string) (v : V) :
  k' ∈ dict_keys (dict_set d k v) ↔ k' ∈ dict_keys d ∨ k' = k.
Proof.
  destruct (decide (k ∈ dict_keys d)) as [Hin|Hout].
  - rewrite dict_keys_set_old by done. split; [by left|]. by intros [?| ->].
  - rewrite BM25More.dict_keys_set_new by done.
    by rewrite elem_of_app, list_elem_of_singleton.
Qed.

Lemma dict_set_Forall {V : Type} (P : string * V → Prop) (d : dict V)
    (k : string) (v : V) :
  (∀ k', P (k', v)) → Forall P d → Forall P (dict_set d k v).
Proof.
  intros Hv. induction d as [|[k0 v0] d IH]; intros Hd; cbn [dict_set].
  - by repeat constructor.
  - apply Forall_cons in Hd as [H0 Hd]. case_decide.
    + by constructor.
    + constructor; [done|by apply IH].
Qed.

Lemma by_key_lookup (scores : dict R) (k : string) :
  by_key scores !! k = dict_get scores k.
Proof.
  unfold by_key. induction scores as [|[k0 v0] scores IH]; [done|].
  cbn [list_to_map foldr dict_get]. case_decide as Hk.
  - subst. apply lookup_insert_eq.
  - rewrite lookup_insert_ne by done. exact IH.
Qed.

Lemma max_or_one (raw : dict R) :
  raw ≠ [] →
  match raw with
  | [] => Some 1
  | _ => py_max (dict_values raw)
  end = py_max (dict_values raw).
Proof. by destruct raw. Qed.

Lemma conj_Forall {A : Type} {P Q : A → Prop} {l : list A} :
  Forall P l → Forall Q l → Forall (λ x, P x ∧ Q x) l.
Proof. intros HP HQ. apply Forall_and. done. Qed.

Lemma foldl_Rmax_spec (x : R) (xs : list R) :
  x <= foldl Rmax x xs
  ∧ Forall (λ y, y <= foldl Rmax x xs) xs
  ∧ (foldl Rmax x xs = x ∨ foldl Rmax x xs ∈ xs).
Proof.
  revert x. induction xs as [|y xs IH]; intros x; cbn [foldl].
  - split; [lra|]. split; [constructor|by left].
  - destruct (IH (Rmax x y)) as (H1 & H2 & H3).
    pose proof (Rmax_l x y). pose proof (Rmax_r x y).
    split; [lra|]. split; [constructor; [lra|done]|].
    destruct H3 as [H3|H3]; [|right; by apply list_elem_of_further].
    rewrite H3. unfold Rmax. destruct (Rle_dec x y); [right|by left].
    apply list_elem_of_here.
Qed.

Lemma py_max_spec (xs : list R) :
  xs ≠ [] →
  ∃ m, py_max xs = Some m ∧ m ∈ xs ∧ Forall (λ y, y <= m) xs.
Proof.
  destruct xs as [|x xs]; [done|]. intros _. cbn [py_max].
  destruct (foldl_Rmax_spec x xs) as (H1 & H2 & H3).
  eexists. split; [done|]. split; [|by constructor].
  destruct H3 as [->|H3]; [apply list_elem_of_here|by apply list_elem_of_further].
Qed.

Section Nodes.
Context {Json : Type}.
Context (_tokenize : string → list string).

Lemma rank_ids_distinct (r : BM25.BM25Ranker) (query : string) (k : Z) :
  usable (Some r) →
  ∃ result, BM25.rank _tokenize r query k = Some result
    ∧ NoDup result.*1
    ∧ result.*1 ⊆ dict_keys (BM25.doc_terms r).
Proof.
  intros (Hr & Hk & Hb & Hnd).
  destruct (BM25Facts.rank_collect_spec _tokenize r query Hr Hk Hb)
    as (hits & Hhits & _ & Hsub).
  unfold BM25.rank. rewrite Hhits. cbn [mbind option_bind].
  eexists. split; [done|].
  destruct (BM25Facts.py_slice_to_take
              (py_sort (λ x : string * R, - x.2) false hits) k) as [n ->].
  assert (Hsorted : (take n (py_sort (λ x : string * R, - x.2) false hits)).*1
                    `sublist_of` (py_sort (λ x : string * R, - x.2) false hits).*1).
  { rewrite fmap_take. apply sublist_take. }
  assert (Hperm : (py_sort (λ x : string * R, - x.2) false hits).*1 ≡ₚ hits.*1)
    by (by rewrite py_sort_perm).
  split.
  - eapply sublist_NoDup; [|exact Hsorted]. rewrite Hperm.
    by eapply sublist_NoDup; [|exact Hsub].
  - intros x Hx. eapply sublist_subseteq; [exact Hsub|].
    rewrite <- Hperm. by eapply sublist_subseteq; [exact Hsorted|].
Qed.

Lemma add_stack_classes (classes : list string) (candidates : list string) :
  NoDup candidates →
  let all :=
    foldl (λ candidates st_class,
             let simple_name := py_split_last st_class in
             if decide (simple_name ∈ candidates) then candidates
             else candidates ++ [simple_name])
          candidates classes in
  NoDup all
  ∧ (∀ c, c ∈ all ↔ c ∈ candidates ∨ c ∈ py_split_last <$> classes)
  ∧ candidates `prefix_of` all.
Proof.
  revert candidates. induction classes as [|st classes IH]; intros candidates Hnd;
    cbn zeta; cbn [foldl].
  - split; [done|]. split; [|done]. intros c. rewrite fmap_nil.
    split; [by left|]. by intros [?|?%elem_of_nil].
  - destruct (decide (py_split_last st ∈ candidates)) as [Hin|Hout].
    + destruct (IH candidates Hnd) as (H1 & H2 & H3). split; [done|].
      split; [|done]. intros c. rewrite H2, fmap_cons, elem_of_cons.
      split; [intros [?|?]; auto|]. intros [?|[->|?]]; auto.
    + destruct (IH (candidates ++ [py_split_last st])) as (H1 & H2 & H3).
      { apply NoDup_app. split; [done|]. split; [|apply NoDup_singleton].
        intros x Hx ->%list_elem_of_singleton. done. }
      split; [done|]. split.
      * intros c. rewrite H2, fmap_cons, elem_of_cons, elem_of_app,
          list_elem_of_singleton. intuition.
      * etransitivity; [|exact H3]. by apply prefix_app_r.
Qed.

Lemma _get_candidates_node_spec
    (self : BugLocalizationGraph (Json:=Json)) (state : AgentState) :
  usable (bm25_ranker self) →
  ∃ candidates,
    _get_candidates_node _tokenize self state = Some candidates
    ∧ NoDup candidates
    ∧ (length candidates <= 100)%nat
    ∧ (∀ c, c ∈ candidates →
         (∃ r, bm25_ranker self = Some r ∧ c ∈ dict_keys (BM25.doc_terms r))
         ∨ c ∈ py_split_last <$> stack_trace_classes state)
    ∧ (stack_trace_classes state = [] →
       ∀ r, bm25_ranker self = Some r →
         (λ result : list (string * R), result.*1)
           <$> BM25.rank _tokenize r (query_of state) 100
         = Some candidates).
Proof.
  intros Husable. unfold _get_candidates_node.
  assert (∃ ranked,
    match bm25_ranker self with
    | Some ranker =>
        bm25_results ← BM25.rank _tokenize ranker (query_of state) 100;
        Some (bm25_results.*1)
    | None => Some []
    end = Some ranked
    ∧ NoDup ranked ∧ (length ranked <= 100)%nat
    ∧ (∀ c, c ∈ ranked →
         ∃ r, bm25_ranker self = Some r ∧ c ∈ dict_keys (BM25.doc_terms r))
    ∧ (∀ r, bm25_ranker self = Some r →
         (λ result : list (string * R), result.*1)
           <$> BM25.rank _tokenize r (query_of state) 100 = Some ranked))
    as (ranked & -> & Hnd & Hlen & Hdocs & Hrank).
  { destruct (bm25_ranker self) as [r|].
    - destruct (rank_ids_distinct r (query_of state) 100 Husable)
        as (result & Hresult & Hnd & Hsub).
      rewrite Hresult. cbn [mbind option_bind]. eexists. split; [done|].
      split; [done|]. split.
      + destruct Husable as (Hr & Hk & Hb & _).
        destruct (BM25Facts.rank_collect_spec _tokenize r (query_of state) Hr Hk Hb)
          as (hits & Hhits & _).
        unfold BM25.rank in Hresult. rewrite Hhits in Hresult.
        cbn [mbind option_bind] in Hresult. injection Hresult as <-.
        rewrite length_fmap.
        pose proof (length_py_slice_to
                      (py_sort (λ x : string * R, - x.2) false hits) 100) as Hle.
        change (Z.to_nat 100) with 100%nat in Hle. apply Hle. lia.
      + split; [intros c Hc; exists r; split; [done|by apply Hsub]|].
        intros r' [= <-]. by rewrite Hresult.
    - exists []. split; [done|]. split; [constructor|]. split; [cbn; lia|].
      split; [intros c Hc; by apply elem_of_nil in Hc|]. done. }
  cbn [mbind option_bind].
  destruct (add_stack_classes (stack_trace_classes state) ranked Hnd)
    as (Hall & Hmem & Hprefix).
  cbn zeta in Hall, Hmem, Hprefix.
  set (all := foldl _ ranked (stack_trace_classes state)) in *.
  eexists. split; [done|]. unfold py_slice_to. rewrite decide_True by lia.
  change (Z.to_nat 100) with 100%nat. split; [|split; [|split]].
  - eapply sublist_NoDup; [exact Hall|apply sublist_take].
  - rewrite length_take. lia.
  - intros c Hc. assert (c ∈ all) as [Hranked|Hstack]%Hmem.
    { eapply sublist_subseteq; [apply sublist_take|exact Hc]. }
    + left. by apply Hdocs.
    + by right.
  - intros Hempty r Hr. rewrite (Hrank r Hr). f_equal. unfold all.
    rewrite Hempty. cbn [foldl]. symmetry. by apply take_ge.
Qed.


Lemma bm25_scores_loop (r : BM25.BM25Ranker) (query : string)
    (candidates : list string) (acc : dict R) :
  usable (Some r) →
  NoDup (dict_keys acc) → Forall (λ kv, 0 <= kv.2) acc →
  ∃ scores,
    foldl (λ scores doc_id,
             scores ← scores;
             s ← BM25.score _tokenize r query doc_id;
             Some (dict_set scores doc_id s))
          (Some acc) candidates = Some scores
    ∧ NoDup (dict_keys scores)
    ∧ Forall (λ kv, 0 <= kv.2) scores
    ∧ (∀ c, c ∈ dict_keys scores ↔ c ∈ dict_keys acc ∨ c ∈ candidates)
    ∧ (∀ c, c ∈ candidates →
         dict_get scores c = BM25.score _tokenize r query c)
    ∧ (∀ c, c ∉ candidates → dict_get scores c = dict_get acc c).
Proof.
  intros (Hr & Hk & Hb & _). revert acc.
  induction candidates as [|c candidates IH]; intros acc Hnd Hpos; cbn [foldl].
  - exists acc. split; [done|]. split; [done|]. split; [done|]. split; [|split].
    + intros c. split; [by left|]. by intros [?|?%elem_of_nil].
    + intros c Hc. by apply elem_of_nil in Hc.
    + done.
  - cbn [mbind option_bind].
    destruct (BM25Facts.score_terms_total r (_tokenize query) c Hr Hk Hb)
      as (s & Hs & Hs0).
    fold (BM25.score _tokenize r query c) in Hs. rewrite Hs.
    cbn [mbind option_bind].
    destruct (IH (dict_set acc c s)) as (scores & -> & H1 & H2 & H3 & H4 & H5).
    { by apply dict_set_NoDup. }
    { by apply dict_set_Forall. }
    exists scores. split; [done|]. split; [done|]. split; [done|].
    split; [|split].
    + intros c'. rewrite H3, dict_keys_set_elem, elem_of_cons. intuition.
    + intros c' [->|Hin]%elem_of_cons; [|by apply H4].
      destruct (decide (c ∈ candidates)) as [Hlater|Hnot]; [by apply H4|].
      rewrite (H5 c Hnot), BM25Facts.dict_get_set, Hs. by rewrite decide_True.
    + intros c' [Hne Hnot]%not_elem_of_cons.
      rewrite (H5 c' Hnot), BM25Facts.dict_get_set. by rewrite decide_False.
Qed.

Lemma _compute_bm25_node_spec
    (self : BugLocalizationGraph (Json:=Json)) (state : AgentState) :
  usable (bm25_ranker self) →
  ∃ scores,
    _compute_bm25_node _tokenize self state = Some scores
    ∧ NoDup (dict_keys scores)
    ∧ Forall (λ kv, 0 <= kv.2 <= 1) scores
    ∧ (bm25_ranker self = None → scores = [])
    ∧ (∀ r, bm25_ranker self = Some r →
         (∀ c, c ∈ dict_keys scores ↔ c ∈ candidate_names state)
         ∧ ∃ max_score, 0 < max_score
             ∧ (∀ c, c ∈ candidate_names state →
                  ∃ s, BM25.score _tokenize r (query_of state) c = Some s
                       ∧ 0 <= s <= max_score
                       ∧ dict_get scores c = Some (s / max_score))
             ∧ ((∃ c s, c ∈ candidate_names state
                        ∧ BM25.score _tokenize r (query_of state) c = Some s
                        ∧ 0 < s) →
                ∃ c, c ∈ candidate_names state
                     ∧ BM25.score _tokenize r (query_of state) c = Some max_score
                     ∧ dict_get scores c = Some 1)).
Proof.
  intros Husable. unfold _compute_bm25_node.
  destruct (bm25_ranker self) as [r|] eqn:Hranker.
  2:{ exists []. split; [done|]. split; [constructor|]. split; [constructor|].
      split; [done|]. intros r' [=]. }
  destruct (bm25_scores_loop r (query_of state) (candidate_names state) []
              Husable) as (raw & -> & Hnd & Hpos & Hkeys & Hget & _);
    [constructor|constructor|].
  cbn [mbind option_bind].
  assert (Hraw : ∀ c, c ∈ candidate_names state →
    ∃ s, BM25.score _tokenize r (query_of state) c = Some s ∧ 0 <= s
         ∧ dict_get raw c = Some s ∧ s ∈ dict_values raw).
  { intros c Hc. pose proof (Hget c Hc) as Hs.
    destruct (dict_get raw c) as [s|] eqn:Hrawc.
    - exists s. split; [done|].
      assert ((c, s) ∈ raw) as Hin.
      { clear -Hrawc. induction raw as [|[k0 v0] raw IH]; [done|].
        cbn [dict_get] in Hrawc. case_decide.
        - injection Hrawc as ->. subst. apply list_elem_of_here.
        - apply list_elem_of_further. by apply IH. }
      split; [by apply (proj1 (Forall_forall _ _) Hpos (c, s))|].
      split; [done|]. unfold dict_values. apply list_elem_of_fmap.
      by exists (c, s).
    - exfalso. assert (c ∈ dict_keys raw) as Hk by (apply Hkeys; by right).
      apply ClassifierFacts.dict_get_is_Some in Hk as [? Hsome]. congruence. }
  assert (Hscale : ∀ m, 0 < m → Forall (λ y, y <= m) (dict_values raw) →
    NoDup (dict_keys ((λ kv : string * R, (kv.1, kv.2 / m)) <$> raw))
    ∧ Forall (λ kv : string * R, 0 <= kv.2 <= 1)
        ((λ kv : string * R, (kv.1, kv.2 / m)) <$> raw)
    ∧ (∀ c, c ∈ dict_keys ((λ kv : string * R, (kv.1, kv.2 / m)) <$> raw)
            ↔ c ∈ candidate_names state)
    ∧ (∀ c, c ∈ candidate_names state →
         ∃ s, BM25.score _tokenize r (query_of state) c = Some s
              ∧ 0 <= s <= m
              ∧ dict_get ((λ kv : string * R, (kv.1, kv.2 / m)) <$> raw) c
                = Some (s / m))).
  { intros m Hm Hle.
    assert (Hk : dict_keys ((λ kv : string * R, (kv.1, kv.2 / m)) <$> raw)
                 = dict_keys raw).
    { unfold dict_keys. rewrite <- list_fmap_compose. done. }
    rewrite Hk. split; [done|]. split; [|split].
    - apply Forall_fmap. unfold dict_values in Hle. rewrite Forall_fmap in Hle.
      eapply Forall_impl; [exact (conj_Forall Hpos Hle)|].
      intros [k v] [Hv0 Hvm]. cbn [fst snd compose] in *.
      assert (0 < / m) by (by apply Rinv_0_lt_compat).
      split; [apply Rmult_le_pos; lra|].
      replace 1 with (m * / m) by (field; lra).
      apply Rmult_le_compat_r; lra.
    - intros c. rewrite Hkeys. split; [|by right].
      by intros [?%elem_of_nil|?].
    - intros c Hc. destruct (Hraw c Hc) as (s & Hs & Hs0 & Hgetc & Hin).
      exists s. split; [done|]. split.
      + split; [done|]. by apply (proj1 (Forall_forall _ _) Hle).
      + rewrite (ClassifierMore.dict_get_fmap_value (λ kv, kv.2 / m)).
        by rewrite Hgetc. }
  destruct (decide (raw = [])) as [->|Hne].
  - cbn [mbind option_bind]. rewrite decide_True by lra. cbn [mapM].
    exists []. split; [done|]. split; [constructor|]. split; [constructor|].
    split; [done|]. intros r' [= <-]. split.
    + intros c. rewrite Hkeys. split; [|by right]. by intros [?%elem_of_nil|?].
    + exists 1. split; [lra|]. split.
      * intros c Hc. destruct (Hraw c Hc) as (s & _ & _ & Habs & _). done.
      * intros (c & s & Hc & _). destruct (Hraw c Hc) as (? & _ & _ & Habs & _).
        done.
  - rewrite (max_or_one raw Hne).
    destruct (py_max_spec (dict_values raw)) as (m & -> & Hm & Hle).
    { destruct raw; [done|]. unfold dict_values. by rewrite fmap_cons. }
    cbn [mbind option_bind].
    assert (Hm0 : 0 <= m).
    { unfold dict_values in Hm. apply list_elem_of_fmap in Hm as ([k v] & -> & Hin).
      by apply (proj1 (Forall_forall _ _) Hpos (k, v)). }
    destruct (decide (m > 0)) as [Hmpos|Hmzero].
    + rewrite JudgeFacts.normalize_mapM by lra.
      destruct (Hscale m) as (H1 & H2 & H3 & H4); [lra|done|].
      eexists. split; [done|]. split; [done|]. split; [done|]. split; [done|].
      intros r' [= <-]. split; [done|]. exists m. split; [lra|]. split; [done|].
      intros _. unfold dict_values in Hm.
      apply list_elem_of_fmap in Hm as ([k v] & Hv & Hin). cbn [snd] in Hv.
      subst v. assert (Hk : k ∈ candidate_names state).
      { assert (k ∈ dict_keys raw) as [?%elem_of_nil|?]%Hkeys; [|done|done].
        unfold dict_keys. apply list_elem_of_fmap. by exists (k, m). }
      exists k. split; [done|]. destruct (Hraw k Hk) as (s & Hs & _ & Hgetk & _).
      rewrite (PatternMore.dict_get_elem raw k m Hnd Hin) in Hgetk.
      injection Hgetk as <-. split; [done|].
      destruct (H4 k Hk) as (s' & Hs' & _ & ->). rewrite Hs in Hs'.
      injection Hs' as <-. f_equal. field. lra.
    + assert (m = 0) as -> by lra.
      assert (Hzero : Forall (λ kv : string * R, kv.2 = 0) raw).
      { unfold dict_values in Hle. rewrite Forall_fmap in Hle.
        eapply Forall_impl; [exact (conj_Forall Hpos Hle)|].
        intros [k v] [Hv0 Hvm]. cbn [snd compose] in *. lra. }
      exists raw. split; [done|]. split; [done|]. split.
      { eapply Forall_impl; [exact Hzero|]. intros [k v] Hv. cbn [snd] in *. lra. }
      split; [done|]. intros r' [= <-]. split.
      { intros c. rewrite Hkeys. split; [|by right]. by intros [?%elem_of_nil|?]. }
      exists 1. split; [lra|]. split.
      * intros c Hc. destruct (Hraw c Hc) as (s & Hs & Hs0 & Hgetc & Hin).
        exists s. split; [done|].
        assert (s <= 0) by (by apply (proj1 (Forall_forall _ _) Hle)).
        split; [lra|]. rewrite Hgetc. f_equal. field.
      * intros (c & s & Hc & Hs & Hspos).
        destruct (Hraw c Hc) as (s' & Hs' & _ & _ & Hin).
        rewrite Hs in Hs'. injection Hs' as <-.
        assert (s <= 0) by (by apply (proj1 (Forall_forall _ _) Hle)). lra.
Qed.


End Nodes.

(** *** A whole run *)

Lemma table_profile_bound (category : string) (w : dict R) :
  dict_get Classifier.WEIGHT_PROFILES category = Some w →
  ∃ a b c d, w = Classifier.profile a b c d ∧ a + b + c + d = 1
    ∧ 0 <= a ∧ 0 <= b ∧ 0 <= c ∧ 0 <= d
    ∧ a + 0.8 * b + 0.18 * d <= 0.627.
Proof.
  unfold Classifier.WEIGHT_PROFILES. cbn [dict_get]. intros H.
  repeat case_decide; simplify_eq; eexists _, _, _, _; (split; [done|]);
    repeat split; lra.
Qed.

Lemma empty_agent_score (class_name : string) (candidates : list string)
    (test_mentions : gset string) :
  Coverage._calculate_coverage_score (Coverage.mkTestFailureAgent ∅ ∅)
    class_name candidates test_mentions
  = Some (if Coverage.mentioned class_name test_mentions then 0.3 else 0).
Proof.
  rewrite CoverageFacts._calculate_coverage_score_value. f_equal.
  unfold Coverage.has_test_file, Coverage.co_tested_candidates.
  cbn [Coverage._class_to_tests Coverage._co_occurrence].
  rewrite !lookup_empty. cbn [default].
  rewrite decide_False by (by intros [? ?]).
  rewrite (left_absorb_L ∅ (∩)). rewrite size_empty. cbn [INR].
  unfold Rdiv. rewrite Rmult_0_l, Rmult_0_r.
  destruct (Coverage.mentioned _ _); (rewrite Rmin_left by lra; lra).
Qed.

Lemma empty_agent_test_scores (extract : string → gset string)
    (candidates : list string) (report : string) :
  ∃ scores,
    Coverage.get_test_scores extract (Coverage.mkTestFailureAgent ∅ ∅)
      candidates report = Some scores
    ∧ map_Forall (λ _ v, v = 0 ∨ v = 0.3) scores.
Proof.
  unfold Coverage.get_test_scores.
  assert (Hloop : ∀ (todo : list string) (acc : gmap string R),
    map_Forall (λ _ v, v = 0 ∨ v = 0.3) acc →
    ∃ scores,
      foldl (λ results class_name,
               results ← results;
               coverage_score ←
                 Coverage._calculate_coverage_score
                   (Coverage.mkTestFailureAgent ∅ ∅) class_name candidates
                   (extract report);
               Some (<[class_name := coverage_score]> results))
            (Some acc) todo = Some scores
      ∧ map_Forall (λ _ v, v = 0 ∨ v = 0.3) scores).
  { induction todo as [|c todo IH]; intros acc Hacc; cbn [foldl]; [eauto|].
    cbn [mbind option_bind]. rewrite empty_agent_score. cbn [mbind option_bind].
    apply IH. apply map_Forall_insert_2; [|done].
    destruct (Coverage.mentioned _ _); auto. }
  apply Hloop. apply map_Forall_empty.
Qed.

Lemma stack_scores_zero_or_one (st_classes : gset string)
    (candidates : list string) (acc : gmap string R) :
  map_Forall (λ _ v, v = 0 ∨ v = 1) acc →
  map_Forall (λ _ v, v = 0 ∨ v = 1)
    (foldl (λ scores candidate,
              let simple_name := py_split_last candidate in
              <[candidate := if decide (simple_name ∈ st_classes) then 1 else 0]>
                scores)
           acc candidates).
Proof.
  revert acc. induction candidates as [|c candidates IH]; intros acc Hacc;
    cbn [foldl]; [done|].
  apply IH. apply map_Forall_insert_2; [|done]. case_decide; auto.
Qed.

Lemma default_of_map_Forall (P : R → Prop) (m : gmap string R) (c : string) :
  P 0 → map_Forall (λ _ v, P v) m → P (default 0 (m !! c)).
Proof.
  intros H0 Hm. destruct (m !! c) as [v|] eqn:Hv; cbn [default]; [|done].
  by apply (Hm c).
Qed.

Lemma judgment_bound (judge : Judge.JudgeAgent) (st bm pt ts : gmap string R)
    (c : string) (j : Judge.CandidateJudgment) (wa wb wc wd : R) :
  Judge.weight_of judge "stack_trace" = wa → Judge.weight_of judge "bm25" = wb →
  Judge.weight_of judge "pattern" = wc → Judge.weight_of judge "test" = wd →
  0 <= wa → 0 <= wb → 0 <= wc → 0 <= wd →
  wa + 0.8 * wb + 0.18 * wd <= 0.627 →
  default 0 (st !! c) = 0 ∨ default 0 (st !! c) = 1 →
  0 <= default 0 (bm !! c) <= 1 →
  default 0 (pt !! c) = 0 →
  default 0 (ts !! c) = 0 ∨ default 0 (ts !! c) = 0.3 →
  JudgeFacts.judged judge st bm pt ts c j →
  0 <= Judge.final_score j <= 0.69.
Proof.
  intros Ha Hb Hc Hd Ha0 Hb0 Hc0 Hd0 Hbound Hst Hbm Hpt Hts Hj.
  apply JudgeFacts.judged_fields in Hj as (_ & _ & _ & _ & ->).
  unfold Judge.fusion_raw. rewrite Ha, Hb, Hc, Hd, Hpt.
  set (m := default 0 (bm !! c)) in *.
  assert (Hm : 0 <= wb * m <= wb).
  { split; [apply Rmult_le_pos; lra|].
    replace wb with (wb * 1) at 2 by lra. apply Rmult_le_compat_l; lra. }
  set (raw := wa * default 0 (st !! c)
              * (if decide (is_Some (st !! c)) then 1 else 0.5)
              + wb * m * 0.8 + wc * 0 * 0.7 + wd * default 0 (ts !! c) * 0.6).
  assert (Hraw : 0 <= raw <= 0.627).
  { unfold raw. destruct Hst as [-> | ->], Hts as [-> | ->];
      case_decide; lra. }
  assert (Hfused : 0 <= raw * Judge.fusion_factor (Judge.consensus j)
                              (Judge.conflict_resolved j) <= 0.69).
  { unfold Judge.fusion_factor.
    destruct (Judge.consensus j), (Judge.conflict_resolved j); lra. }
  rewrite Rmin_left by lra. done.
Qed.

Section Run.
Context {Json : Type}.
Context (_tokenize : string → list string).
Context (findall : string → string → list string).
Context (read_class_source : dict Json → string → option string).
Context (_extract_test_mentions : string → gset string).
Context (_extract_info_node : string → list string * list string * list string).

Lemma _judge_fusion_node_bound (self : BugLocalizationGraph (Json:=Json))
    (state : AgentState) (wa wb wc wd : R) :
  dynamic_weights state = Classifier.profile wa wb wc wd →
  wa + wb + wc + wd = 1 → 0 <= wa → 0 <= wb → 0 <= wc → 0 <= wd →
  wa + 0.8 * wb + 0.18 * wd <= 0.627 →
  Forall (λ kv, 0 <= kv.2 <= 1) (bm25_scores state) →
  map_Forall (λ _ v, v = 0) (pattern_scores state) →
  map_Forall (λ _ v, v = 0 ∨ v = 0.3) (test_scores state) →
  ∃ self' stack rankings rate,
    _judge_fusion_node self state = Some (self', (stack, rankings, rate))
    ∧ bm25_ranker self' = bm25_ranker self
    ∧ pattern_agent self' = pattern_agent self
    ∧ test_agent self' = test_agent self
    ∧ (length rankings <= 20)%nat
    ∧ Forall (λ x, 0 <= score x <= 0.69
                   ∧ 0 <= bm25_score x <= 1
                   ∧ pattern_score x = 0
                   ∧ (test_score x = 0 ∨ test_score x = 0.3)) rankings.
Proof.
  intros Hw Hsum Ha Hb Hc Hd Hbound Hbm Hpt Hts. unfold _judge_fusion_node.
  rewrite Hw.
  destruct (ClassifierMore.set_weights_normal_profile (judge_agent self)
              wa wb wc wd Hsum)
    as (judge & -> & _ & Hwa & Hwb & Hwc & Hwd & _).
  cbn [mbind option_bind].
  set (st_classes := list_to_set (py_split_last <$> stack_trace_classes state)
                     : gset string).
  set (stack := foldl _ ∅ (candidate_names state)).
  assert (Hstack : map_Forall (λ _ v, v = 0 ∨ v = 1) stack).
  { apply stack_scores_zero_or_one. apply map_Forall_empty. }
  assert (Hbmkey : ∀ c, 0 <= default 0 (by_key (bm25_scores state) !! c) <= 1).
  { intros c. rewrite by_key_lookup.
    destruct (dict_get (bm25_scores state) c) as [v|] eqn:Hv; cbn [default];
      [|lra].
    assert ((c, v) ∈ bm25_scores state) as Hin.
    { clear -Hv. induction (bm25_scores state) as [|[k0 v0] d IH]; [done|].
      cbn [dict_get] in Hv. case_decide.
      - injection Hv as ->. subst. apply list_elem_of_here.
      - apply list_elem_of_further. by apply IH. }
    by apply (proj1 (Forall_forall _ _) Hbm (c, v)). }
  assert (Hptkey : ∀ c, default 0 (pattern_scores state !! c) = 0).
  { intros c. by apply (default_of_map_Forall (λ v, v = 0)). }
  assert (Htskey : ∀ c, default 0 (test_scores state !! c) = 0
                        ∨ default 0 (test_scores state !! c) = 0.3).
  { intros c. apply (default_of_map_Forall (λ v, v = 0 ∨ v = 0.3)); auto. }
  destruct (JudgeFacts.judge_spec judge (candidate_names state) stack
              (by_key (bm25_scores state)) (pattern_scores state)
              (test_scores state) (bug_type state))
    as (js & rate & Hjs & ->).
  cbn [mbind option_bind Judge.candidates Judge.consensus_rate].
  eexists _, _, _, _. split; [done|].
  cbn [bm25_ranker pattern_agent test_agent].
  split; [done|]. split; [done|]. split; [done|]. split.
  - rewrite length_fmap. pose proof (length_py_slice_to
      (Judge.assign_ranks (py_sort Judge.final_score true js)) 20) as Hlen.
    change (Z.to_nat 20) with 20%nat in Hlen. apply Hlen. lia.
  - apply Forall_fmap.
    destruct (BM25Facts.py_slice_to_take
                (Judge.assign_ranks (py_sort Judge.final_score true js)) 20)
      as [n ->].
    apply Forall_take. apply JudgeFacts.ranked_Forall.
    { intros j r. by cbn. }
    eapply JudgeFacts.judged_Forall; [|exact Hjs].
    intros c j Hj. cbn [compose score bm25_score pattern_score test_score].
    split; [|by split; [|split]].
    eapply (judgment_bound judge stack _ _ _ c j wa wb wc wd); try done.
    by apply (default_of_map_Forall (λ v, v = 0 ∨ v = 1)); auto.
Qed.

(** X27. A graph whose ranker is the index of a document dict (or is
    missing) and whose pattern and test agents are built without a code
    structure, as the constructor builds them, localizes every report
    without an exception. Every ranking it returns has a final score
    between 0 and 0.69, so the cap at 1.0 is never reached; its BM25 score
    lies between 0 and 1, its pattern score is 0.0 and its test score is
    0.0 or 0.3. At most 20 rankings are returned, for at most 100
    candidates, and the graph keeps its ranker and agents for the next
    report. *)
Theorem localize_scores_stay_between_0_and_0_69
    (self : BugLocalizationGraph (Json:=Json)) (report : string) (k : Z) :
  usable (bm25_ranker self) →
  pattern_agent self = PatternDetection.__init__ None →
  test_agent self = TestIndex.__init__ None →
  ∃ self' result,
    localize _tokenize findall read_class_source _extract_test_mentions
      _extract_info_node self report k = Some (self', result)
    ∧ Forall (λ x, 0 <= score x <= 0.69
                   ∧ 0 <= bm25_score x <= 1
                   ∧ pattern_score x = 0
                   ∧ (test_score x = 0 ∨ test_score x = 0.3)) (top_k result)
    ∧ (length (top_k result) <= 20)%nat
    ∧ (total_candidates result <= 100)%nat
    ∧ bm25_ranker self' = bm25_ranker self
    ∧ pattern_agent self' = pattern_agent self
    ∧ test_agent self' = test_agent self.
Proof.
  intros Husable Hpattern Htest.
  lazy beta iota zeta delta
    [localize invoke bug_report keywords stack_trace_classes potential_classes
     bug_type bug_confidence dynamic_weights candidate_names bm25_scores
     stack_trace_scores pattern_scores test_scores final_rankings
     consensus_rate].
  unfold Classifier._classify_bug_node.
  destruct (Classifier.classify findall report) as [cl|] eqn:Hcl.
  2:{ destruct (ClassifierFacts.classify_spec findall report) as (? & ? & _).
      congruence. }
  destruct (ClassifierFacts.classify_spec findall report) as (cl' & Hcl' & Hprof).
  rewrite Hcl in Hcl'. injection Hcl' as <-.
  apply table_profile_bound in Hprof
    as (wa & wb & wc & wd & Hw & Hsum & Ha & Hb & Hc & Hd & Hbound).
  cbn [mbind option_bind fst snd].
  match goal with
  | |- context [_get_candidates_node _ ?g ?st] =>
      destruct (_get_candidates_node_spec _tokenize g st Husable)
        as (candidates & -> & _ & Hlen & _)
  end.
  cbn [mbind option_bind].
  match goal with
  | |- context [_compute_bm25_node _ ?g ?st] =>
      destruct (_compute_bm25_node_spec _tokenize g st Husable)
        as (bm25 & -> & _ & Hbm & _)
  end.
  cbn [mbind option_bind]. unfold _detect_patterns_node.
  cbn [candidate_names bug_type]. rewrite Hpattern.
  destruct (PatternMore.get_pattern_scores_no_structure findall
              read_class_source candidates (Classifier.bug_type cl))
    as (patterns & -> & Hpatterns).
  cbn [mbind option_bind]. unfold _analyze_tests_node.
  cbn [candidate_names bug_report]. rewrite Htest.
  change (TestIndex.__init__ None) with (Coverage.mkTestFailureAgent ∅ ∅).
  destruct (empty_agent_test_scores _extract_test_mentions candidates report)
    as (tests & -> & Htests).
  cbn [mbind option_bind].
  match goal with
  | |- context [_judge_fusion_node ?g ?st] =>
      destruct (_judge_fusion_node_bound g st wa wb wc wd)
        as (self' & stack & rankings & rate & -> & H1 & H2 & H3 & H4 & H5)
  end; try done.
  { cbn [pattern_scores]. intros c v Hv. specialize (Hpatterns c).
    rewrite Hv in Hpatterns. case_decide; congruence. }
  cbn [mbind option_bind fst snd top_k total_candidates final_rankings
       candidate_names].
  eexists _, _. split; [done|]. cbn [top_k total_candidates].
  destruct (BM25Facts.py_slice_to_take rankings k) as [n ->].
  split; [by apply Forall_take|]. split; [rewrite length_take; lia|].
  split; [done|]. split; [done|]. split; [by rewrite H2, Hpattern|].
  by rewrite H3, Htest.
Qed.

End Run.

(** A graph over the index of two documents, and a state after the report
    has been parsed. *)
Definition graph_b_a (r : BM25.BM25Ranker) : BugLocalizationGraph (Json:=unit) :=
  mkBugLocalizationGraph (Some r) (PatternDetection.__init__ None)
    (TestIndex.__init__ None) JudgeFacts.default_judge.




Lemma localize_scores_stay_between_0_and_0_69_witness :
  ∃ r, BM25.fit BM25.blank_tokenize (BM25.__init__ BM25.BM25_K1 BM25.BM25_B)
         BM25Facts.docs_b_a = Some r
    ∧ ∃ self' result,
        localize BM25.blank_tokenize Classifier.literal_findall (λ _ _, None)
          (λ _, ∅) (λ _, (["foo"], ["org.example.World"], ["World"]))
          (graph_b_a r) "NullPointerException in foo" 10
        = Some (self', result)
        ∧ Forall (λ x, 0 <= score x <= 0.69
                       ∧ 0 <= bm25_score x <= 1
                       ∧ pattern_score x = 0
                       ∧ (test_score x = 0 ∨ test_score x = 0.3)) (top_k result)
        ∧ (length (top_k result) <= 20)%nat
        ∧ (total_candidates result <= 100)%nat
        ∧ bm25_ranker self' = bm25_ranker (graph_b_a r)
        ∧ pattern_agent self' = pattern_agent (graph_b_a r)
        ∧ test_agent self' = test_agent (graph_b_a r).
Proof.
  destruct (fit_usable BM25.blank_tokenize BM25Facts.docs_b_a)
    as (r & Hfit & Husable & _).
  { apply (bool_decide_unpack _). by vm_compute. }
  exists r. split; [exact Hfit|].
  apply (localize_scores_stay_between_0_and_0_69 BM25.blank_tokenize
           Classifier.literal_findall (λ _ _, None) (λ _, ∅)
           (λ _, (["foo"], ["org.example.World"], ["World"]))
           (graph_b_a r) "NullPointerException in foo" 10).
  - exact Husable.
  - reflexivity.
  - reflexivity.
Defined.

End OrchestratorMore.

(** ** The coverage score *)

Module CoverageMore.
Import Coverage.

Lemma size_list_to_set_le (l : list string) :
  (size (list_to_set l : gset string) <= length l)%nat.
Proof.
  induction l as [|x l IH]; cbn [list_to_set length].
  - by rewrite size_empty.
  - rewrite size_union_alt, size_singleton.
    assert (size (list_to_set l ∖ {[x]} : gset string)
            <= size (list_to_set l : gset string))%nat; [|lia].
    apply subseteq_size. apply subseteq_difference_l. done.
Qed.

Lemma co_tested_ratio (self : TestFailureAgent) (class_name : string)
    (candidates : list string) :
  0 <= INR (size (co_tested_candidates self class_name candidates))
       / INR (length candidates) <= 1.
Proof.
  assert (Hsize : (size (co_tested_candidates self class_name candidates)
                   <= length candidates)%nat).
  { unfold co_tested_candidates.
    etransitivity; [apply subseteq_size, intersection_subseteq_r|].
    etransitivity; [apply size_list_to_set_le|]. by rewrite length_fmap. }
  apply le_INR in Hsize.
  pose proof (pos_INR (size (co_tested_candidates self class_name candidates))).
  destruct (decide (length candidates = 0%nat)) as [Hz|Hnz].
  - rewrite Hz in *. cbn [INR] in *. unfold Rdiv. rewrite Rinv_0. lra.
  - assert (0 < INR (length candidates)) by (apply lt_0_INR; lia).
    assert (0 < / INR (length candidates)) by (by apply Rinv_0_lt_compat).
    unfold Rdiv. split; [apply Rmult_le_pos; lra|].
    replace 1 with (INR (length candidates) * / INR (length candidates))
      by (field; lra).
    apply Rmult_le_compat_r; lra.
Qed.

(** X28. The cap of the coverage score never takes effect: the co-tested
    fraction is at most 1, so the score is the plain sum of its three
    terms, and it equals 1 exactly when the class has test files, every
    candidate counts as co-tested and the class is mentioned. *)
Theorem coverage_cap_never_takes_effect (self : TestFailureAgent)
    (class_name : string) (candidates : list string)
    (test_mentions : gset string) :
  let ratio := INR (size (co_tested_candidates self class_name candidates))
               / INR (length candidates) in
  let total := (if decide (has_test_file self class_name) then 0.3 else 0)
               + 0.4 * ratio
               + (if mentioned class_name test_mentions then 0.3 else 0) in
  0 <= ratio <= 1
  ∧ _calculate_coverage_score self class_name candidates test_mentions
    = Some total
  ∧ (total = 1 ↔ has_test_file self class_name ∧ ratio = 1
                 ∧ mentioned class_name test_mentions = true).
Proof.
  intros ratio total.
  pose proof (co_tested_ratio self class_name candidates) as Hratio.
  fold ratio in Hratio. split; [done|].
  assert (Htotal : total <= 1
                   ∧ (total = 1 ↔ has_test_file self class_name ∧ ratio = 1
                                  ∧ mentioned class_name test_mentions = true)).
  { unfold total. destruct (decide (has_test_file self class_name));
      destruct (mentioned class_name test_mentions);
      (split; [lra|]); (split; [intros Heq|intros (? & ? & ?)]);
      try done; try lra; repeat split; try done; lra. }
  destruct Htotal as [Hle Hiff]. split; [|done].
  rewrite CoverageFacts._calculate_coverage_score_value. fold ratio total.
  f_equal. by apply Rmin_left.
Qed.

End CoverageMore.

(** ** Candidate aggregation *)

Module RankMore.
Import RankCandidates.

Section Candidates.
Context {Payload : Type}.
Local Abbreviation Cand := (Candidate (Payload:=Payload)).

Lemma scores_get_set (scores : list (string * string * Cand))
    (k k' : string * string) (e : Cand) :
  scores_get (scores_set scores k e) k'
  = if decide (k = k') then Some e else scores_get scores k'.
Proof.
  induction scores as [|[k0 e0] scores IH]; cbn [scores_set scores_get].
  - by repeat case_decide.
  - destruct (decide (k0 = k)) as [->|Hne]; cbn [scores_get].
    + by repeat case_decide.
    + rewrite IH. repeat case_decide; congruence.
Qed.

Lemma scores_get_None (scores : list (string * string * Cand))
    (k : string * string) :
  scores_get scores k = None ↔ k ∉ scores.*1.
Proof.
  induction scores as [|[k0 e0] scores IH]; cbn [scores_get].
  - split; [intros _; apply not_elem_of_nil|done].
  - rewrite fmap_cons, not_elem_of_cons. cbn [fst]. case_decide as Hk.
    + split; [done|]. intros [Hne _]. congruence.
    + rewrite IH. split; [intros ?; split; [congruence|done]|by intros [_ ?]].
Qed.

Lemma scores_set_keys (scores : list (string * string * Cand))
    (k : string * string) (e : Cand) :
  (scores_set scores k e).*1
  = if decide (k ∈ scores.*1) then scores.*1 else scores.*1 ++ [k].
Proof.
  induction scores as [|[k0 e0] scores IH]; cbn [scores_set].
  - rewrite decide_False by apply not_elem_of_nil. done.
  - destruct (decide (k0 = k)) as [->|Hne].
    + rewrite decide_True; [done|]. rewrite fmap_cons. apply list_elem_of_here.
    + rewrite !fmap_cons, IH. cbn [fst].
      destruct (decide (k ∈ scores.*1)) as [Hin|Hout].
      * rewrite decide_True; [done|]. by apply list_elem_of_further.
      * rewrite decide_False; [done|]. intros [?|?]%elem_of_cons; congruence.
Qed.

Lemma scores_set_NoDup (scores : list (string * string * Cand))
    (k : string * string) (e : Cand) :
  NoDup scores.*1 → NoDup (scores_set scores k e).*1.
Proof.
  intros Hnd. rewrite scores_set_keys. case_decide as Hk; [done|].
  apply NoDup_app. split; [done|]. split; [|apply NoDup_singleton].
  intros x Hx ->%list_elem_of_singleton. done.
Qed.

Lemma scores_get_elem (scores : list (string * string * Cand))
    (k : string * string) (e : Cand) :
  NoDup scores.*1 → (k, e) ∈ scores → scores_get scores k = Some e.
Proof.
  induction scores as [|[k0 e0] scores IH]; intros Hnd Hin.
  - by apply elem_of_nil in Hin.
  - rewrite fmap_cons in Hnd. cbn [fst] in Hnd.
    apply NoDup_cons in Hnd as [Hk Hnd]. cbn [scores_get].
    apply elem_of_cons in Hin as [[= -> ->]|Hin]; [by rewrite decide_True|].
    rewrite decide_False; [by apply IH|]. intros ->. apply Hk.
    apply list_elem_of_fmap. by exists (k, e).
Qed.

Definition total_score (candidates : list Cand) : R :=
  py_sum ((λ c, default 0 (score c)) <$> candidates).

Lemma total_score_snoc (candidates : list Cand) (c : Cand) :
  total_score (candidates ++ [c]) = total_score candidates + default 0 (score c).
Proof.
  unfold total_score, py_sum. rewrite fmap_app, foldl_app. done.
Qed.

(** What the loop keeps of [scores], with the candidates seen so far. *)
Record rank_inv (seen : list Cand)
    (scores : list (string * string * Cand)) : Prop := mk_rank_inv {
  rank_keys_distinct : NoDup scores.*1;
  rank_keys : ∀ k, k ∈ scores.*1 ↔ ∃ c, c ∈ seen ∧ key_of c = Some k;
  rank_entries : ∀ k e, scores_get scores k = Some e →
    ∃ first rest, located k seen = first :: rest
      ∧ type e = type first ∧ name e = name first ∧ payload e = payload first
      ∧ score e = Some (total_score (first :: rest));
}.

Lemma located_snoc (k : string * string) (seen : list Cand) (c : Cand) :
  located k (seen ++ [c])
  = located k seen ++ (if decide (key_of c = Some k) then [c] else []).
Proof.
  unfold located. rewrite filter_app. reflexivity.
Qed.

Lemma rank_step_inv (seen : list Cand)
    (scores : list (string * string * Cand)) (c : Cand) :
  is_Some (type c) → is_Some (name c) → is_Some (score c) →
  rank_inv seen scores →
  ∃ scores', rank_step scores c = Some scores' ∧ rank_inv (seen ++ [c]) scores'.
Proof.
  intros [t Ht] [n Hn] [s Hs] [Hnd Hkeys Hentries]. unfold rank_step.
  rewrite Ht, Hn, Hs. cbn [mbind option_bind].
  assert (Hkey : key_of c = Some (t, n)) by (unfold key_of; by rewrite Ht, Hn).
  assert (Hseen : ∀ k, (∃ c', c' ∈ seen ++ [c] ∧ key_of c' = Some k)
                       ↔ k ∈ scores.*1 ∨ k = (t, n)).
  { intros k. rewrite Hkeys. split.
    - intros (c' & [Hin| ->%list_elem_of_singleton]%elem_of_app & Hk).
      + left. eauto.
      + right. congruence.
    - intros [(c' & Hin & Hk)| ->].
      + exists c'. split; [apply elem_of_app; by left|done].
      + exists c. split; [|done]. apply elem_of_app. right. apply list_elem_of_here. }
  destruct (scores_get scores (t, n)) as [e0|] eqn:Hget.
  - rewrite Hget. cbn [mbind option_bind].
    destruct (Hentries _ _ Hget) as (first & rest & Hloc & Hty & Hna & Hpay & Hsc).
    rewrite Hsc. cbn [mbind option_bind]. eexists. split; [done|].
    assert (Hin : (t, n) ∈ scores.*1).
    { destruct (decide ((t, n) ∈ scores.*1)) as [|Hout]; [done|].
      apply scores_get_None in Hout. congruence. }
    split.
    + by apply scores_set_NoDup.
    + intros k. rewrite Hseen, scores_set_keys, decide_True by done.
      split; [by left|]. by intros [?| ->].
    + intros k e. rewrite scores_get_set, located_snoc.
      destruct (decide ((t, n) = k)) as [<-|Hne].
      * intros [= <-]. rewrite decide_True by done. rewrite Hloc.
        exists first, (rest ++ [c]). split; [done|].
        cbn [type name payload score]. split; [done|]. split; [done|].
        split; [done|]. f_equal.
        rewrite app_comm_cons, total_score_snoc, Hs. done.
      * intros Hk. rewrite decide_False by congruence. rewrite app_nil_r.
        by apply Hentries.
  - assert (Hout : (t, n) ∉ scores.*1) by (by apply scores_get_None).
    rewrite scores_get_set, decide_True by done. cbn [mbind option_bind score].
    eexists. split; [done|].
    assert (Hnone : located (t, n) seen = []).
    { destruct (located (t, n) seen) as [|x l] eqn:Hloc; [done|]. exfalso.
      assert (x ∈ located (t, n) seen) as [Hx Hin]%list_elem_of_filter
        by (rewrite Hloc; apply list_elem_of_here).
      apply Hout, Hkeys. eauto. }
    split.
    + by do 2 apply scores_set_NoDup.
    + intros k. rewrite Hseen, !scores_set_keys.
      rewrite (decide_False (P := (t, n) ∈ scores.*1)) by done.
      rewrite decide_True by (apply elem_of_app; right; apply list_elem_of_here).
      by rewrite elem_of_app, list_elem_of_singleton.
    + intros k e. rewrite !scores_get_set, located_snoc.
      destruct (decide ((t, n) = k)) as [<-|Hne].
      * intros [= <-]. rewrite decide_True by done. rewrite Hnone.
        exists c, []. split; [done|]. cbn [type name payload score].
        split; [done|]. split; [done|]. split; [done|]. f_equal.
        unfold total_score, py_sum. cbn [fmap list_fmap foldl]. by rewrite Hs.
      * intros Hk. rewrite decide_False by congruence. rewrite app_nil_r.
        by apply Hentries.
Qed.

Lemma rank_loop_inv (candidates : list Cand) :
  Forall (λ c, is_Some (type c) ∧ is_Some (name c) ∧ is_Some (score c))
         candidates →
  ∃ scores,
    foldl (λ scores c, scores ← scores; rank_step scores c) (Some []) candidates
    = Some scores
    ∧ rank_inv candidates scores.
Proof.
  induction candidates as [|c candidates IH] using rev_ind; intros Hall.
  - exists []. split; [done|]. split.
    + constructor.
    + intros k. split; [by intros ?%elem_of_nil|].
      by intros (c & ?%elem_of_nil & _).
    + done.
  - apply Forall_app in Hall as [Hall Hc]. apply Forall_singleton in Hc as (H1 & H2 & H3).
    destruct (IH Hall) as (scores & Hloop & Hinv).
    rewrite foldl_app. cbn [foldl]. rewrite Hloop. cbn [mbind option_bind].
    by apply rank_step_inv.
Qed.

(** X29. On candidates that all have the keys [type], [name] and [score],
    [_rank_candidates] returns one entry for each location (type and
    name) among the candidates and no location twice. The entry carries
    the other fields of the first candidate of its location, and its score
    is the sum, from 0.0 on, of the scores of all candidates of that
    location in their order. The entries are sorted by score from high to
    low. A candidate that lacks one of the three keys makes the call
    fail. *)
Theorem rank_candidates_adds_up_the_scores_of_a_location
    (candidates : list Cand) :
  Forall (λ c, is_Some (type c) ∧ is_Some (name c) ∧ is_Some (score c))
         candidates →
  ∃ ranked, _rank_candidates candidates = Some ranked
    ∧ NoDup (key_of <$> ranked)
    ∧ (∀ c, c ∈ candidates → ∃ r, r ∈ ranked ∧ key_of r = key_of c)
    ∧ (∀ r, r ∈ ranked →
         ∃ k first rest, key_of r = Some k
           ∧ located k candidates = first :: rest
           ∧ payload r = payload first
           ∧ score r = Some (total_score (first :: rest)))
    ∧ StronglySorted (λ x y, default 0 (score x) >= default 0 (score y)) ranked.
Proof.
  intros Hall. destruct (rank_loop_inv candidates Hall) as (scores & Hloop & Hinv).
  destruct Hinv as [Hnd Hkeys Hentries].
  unfold _rank_candidates. rewrite Hloop. cbn [mbind option_bind].
  eexists. split; [done|].
  assert (Hentry : ∀ k e, (k, e) ∈ scores →
    key_of e = Some k
    ∧ ∃ first rest, located k candidates = first :: rest
        ∧ payload e = payload first
        ∧ score e = Some (total_score (first :: rest))).
  { intros k e Hin. apply scores_get_elem in Hin; [|done].
    destruct (Hentries k e Hin) as (first & rest & Hloc & Hty & Hna & Hpay & Hsc).
    split; [|by exists first, rest].
    assert (first ∈ located k candidates) as [Hk _]%list_elem_of_filter
      by (rewrite Hloc; apply list_elem_of_here).
    unfold key_of in *. by rewrite Hty, Hna. }
  assert (Hkeys_of : key_of <$> scores.*2 = Some <$> scores.*1).
  { clear -Hentry. induction scores as [|[k e] scores IH]; [done|].
    rewrite !fmap_cons. cbn [fst snd]. f_equal.
    - by destruct (Hentry k e) as [-> _]; [apply list_elem_of_here|].
    - apply IH. intros k' e' Hin. apply Hentry. by apply list_elem_of_further. }
  split; [|split; [|split]].
  - rewrite py_sort_perm, Hkeys_of. apply NoDup_fmap_2; [|done].
    intros x y [= ->]. done.
  - intros c Hc.
    pose proof (proj1 (Forall_forall _ _) Hall c Hc) as (Ht & Hn & _).
    destruct Ht as [t Ht], Hn as [n Hn].
    assert (Hk : key_of c = Some (t, n)) by (unfold key_of; by rewrite Ht, Hn).
    assert ((t, n) ∈ scores.*1) as Hin by (apply Hkeys; eauto).
    apply list_elem_of_fmap in Hin as ([k e] & Heq & Hin). cbn [fst] in Heq. subst k.
    exists e. split.
    + rewrite py_sort_perm. apply list_elem_of_fmap. by exists ((t, n), e).
    + rewrite Hk. by destruct (Hentry _ _ Hin) as [-> _].
  - intros r Hr. rewrite py_sort_perm in Hr.
    apply list_elem_of_fmap in Hr as ([k e] & -> & Hin). cbn [snd].
    destruct (Hentry k e Hin) as (Hk & first & rest & Hloc & Hpay & Hsc).
    by exists k, first, rest.
  - eapply BM25Facts.StronglySorted_weaken;
      [|apply (py_sort_sorted (λ x : Cand, default 0 (score x)) true)].
    intros x y. unfold sort_le, sort_before. lra.
Qed.

End Candidates.

Definition three_candidates : list (Candidate (Payload:=string)) :=
  [ mkCandidate (Some "class") (Some "World") (Some 3) "World.java";
    mkCandidate (Some "method") (Some "resolve") (Some 4) "World.java";
    mkCandidate (Some "class") (Some "World") (Some 2) "Shadow.java" ].

Lemma rank_candidates_adds_up_the_scores_of_a_location_witness :
  ∃ ranked, _rank_candidates three_candidates = Some ranked
    ∧ NoDup (key_of <$> ranked)
    ∧ (∀ c, c ∈ three_candidates → ∃ r, r ∈ ranked ∧ key_of r = key_of c)
    ∧ (∀ r, r ∈ ranked →
         ∃ k first rest, key_of r = Some k
           ∧ located k three_candidates = first :: rest
           ∧ payload r = payload first
           ∧ score r = Some (total_score (first :: rest)))
    ∧ StronglySorted (λ x y, default 0 (score x) >= default 0 (score y)) ranked.
Proof.
  apply (rank_candidates_adds_up_the_scores_of_a_location three_candidates).
  unfold three_candidates.
  repeat (apply Forall_cons; split; [cbn; eauto|]). apply Forall_nil_2.
Defined.

End RankMore.
